(** * Result portal: schema inference and aggregation (src/App.jsx)

    A shallow embedding of the data-processing functions of [src/App.jsx]:
    [detectTextFields], [detectNumericFields], [extractSubjectFields],
    [buildHistogramData], [buildGpaCountData] and the [useMemo] bodies
    [idField], [primaryNumericField] and [summary]; then the other values
    the component [App] derives from the rows: [primaryTextField], the
    default, charted and offered metrics, the listed rows, the column
    maxima, the student overview and the initial selection.

    Conventions of the embedding.
    - A JavaScript number is an IEEE 754 binary64 value, here a
      [spec_float] with precision 53 and maximal exponent 1024; the
      arithmetic is the correctly rounded one of [SpecFloat].
    - A JavaScript string is a Rocq [string].  Case mapping and the
      white-space class are those of JavaScript on the ASCII range (the
      bytes of a non-ASCII character are carried unchanged).
    - A row is the list of its own properties in [Object.keys] order; reading
      a missing property gives [undefined] (properties inherited from
      [Object.prototype] are not modelled).
    - A function that can throw returns a [completion]. *)

From Stdlib Require Import ZArith NArith List String Ascii Bool Lia.
From Stdlib Require Import DecimalString SpecFloat Permutation.
Import ListNotations.

Local Open Scope Z_scope.

(* ================================================================== *)
(** * Numbers *)
(* ================================================================== *)

Definition prec : Z := 53.
Definition emax : Z := 1024.

Definition number : Set := spec_float.

Definition NaN : number := S754_nan.
Definition num_add : number -> number -> number := SFadd prec emax.
Definition num_sub : number -> number -> number := SFsub prec emax.
Definition num_mul : number -> number -> number := SFmul prec emax.
Definition num_div : number -> number -> number := SFdiv prec emax.

(** [a < b], [a <= b] and [a === b] on numbers; [a >= b] is [num_le b a]
    and [a > b] is [num_lt b a].  All are false when an operand is NaN. *)
Definition num_lt : number -> number -> bool := SFltb.
Definition num_le : number -> number -> bool := SFleb.
Definition num_eq : number -> number -> bool := SFeqb.

(** The number of an integer (exact below [2^53], rounded above). *)
Definition of_Z (z : Z) : number := binary_normalize prec emax z 0 false.

Definition num_zero : number := S754_zero false.
Definition num_one : number := of_Z 1.

(** [Number.isFinite] on a value that is a number. *)
Definition Number_isFinite (x : number) : bool :=
  match x with
  | S754_zero _ | S754_finite _ _ _ => true
  | S754_infinity _ | S754_nan => false
  end.

Definition is_nan (x : number) : bool :=
  match x with S754_nan => true | _ => false end.

Definition is_zero (x : number) : bool :=
  match x with S754_zero _ => true | _ => false end.

(** Structural equality of numbers (the same value and the same sign of
    zero; NaN equals itself). *)
Definition same_number (x y : number) : bool :=
  match x, y with
  | S754_zero a, S754_zero b => Bool.eqb a b
  | S754_infinity a, S754_infinity b => Bool.eqb a b
  | S754_nan, S754_nan => true
  | S754_finite a m e, S754_finite b n f =>
      Bool.eqb a b && Pos.eqb m n && Z.eqb e f
  | _, _ => false
  end.

(** The number nearest to [m * 10^e] (ties to even), with the sign [neg]:
    the value of a decimal literal.  Literals far outside the range of
    binary64 are settled without computing the power of ten. *)
Definition of_decimal (neg : bool) (m : Z) (e : Z) : number :=
  match m with
  | Z0 => S754_zero neg
  | Zpos p =>
      if 0 <=? e then
        if 310 <? e then S754_infinity neg
        else binary_round prec emax neg (p * Z.to_pos (10 ^ e)) 0
      else if Z.log2 m / 3 + 1 + e <? -330 then S754_zero neg
      else
        let '(q, ez, l) := SFdiv_core_binary prec emax m 0 (10 ^ (- e)) 0 in
        binary_round_aux prec emax neg q ez l
  | Zneg _ => NaN
  end.

(** [Math.floor]. *)
Definition Math_floor (x : number) : number :=
  match x with
  | S754_finite s m e =>
      if 0 <=? e then x
      else
        match cond_Zopp s (Zpos m) / 2 ^ (- e) with
        | Z0 => S754_zero s
        | q => of_Z q
        end
  | _ => x
  end.

(** [Math.round]: the nearest integer, ties towards plus infinity. *)
Definition Math_round (x : number) : number :=
  match x with
  | S754_finite s m e =>
      if 0 <=? e then x
      else
        let d := 2 ^ (- e) in
        match (2 * cond_Zopp s (Zpos m) + d) / (2 * d) with
        | Z0 => S754_zero s
        | q => of_Z q
        end
  | _ => x
  end.

(** [Math.max(...l)] and [Math.min(...l)]: NaN is absorbing, [+0] is
    above [-0]. *)
Definition max_step (highest x : number) : number :=
  if is_nan highest || is_nan x then NaN
  else
    match highest, x with
    | S754_zero true, S754_zero false => x
    | _, _ => if num_lt highest x then x else highest
    end.

Definition min_step (lowest x : number) : number :=
  if is_nan lowest || is_nan x then NaN
  else
    match lowest, x with
    | S754_zero false, S754_zero true => x
    | _, _ => if num_lt x lowest then x else lowest
    end.

Definition Math_max (l : list number) : number :=
  fold_left max_step l (S754_infinity true).

Definition Math_min (l : list number) : number :=
  fold_left min_step l (S754_infinity false).

(** The array index that a number denotes as a property key of an array:
    a non-negative integer (both zeros denote index 0).  Any other number
    is not an index, and reading it from an array gives [undefined]. *)
Definition array_index (x : number) : option N :=
  match x with
  | S754_zero _ => Some 0%N
  | S754_finite false m e =>
      if 0 <=? e then Some (Z.to_N (Zpos m * 2 ^ e))
      else if Zpos m mod 2 ^ (- e) =? 0 then Some (Z.to_N (Zpos m / 2 ^ (- e)))
      else None
  | _ => None
  end.

(* ================================================================== *)
(** * Strings *)
(* ================================================================== *)

Local Open Scope string_scope.

Definition code (c : ascii) : N := N_of_ascii c.

Definition is_digit (c : ascii) : bool :=
  ((48 <=? code c) && (code c <=? 57))%N.

(** White space of JavaScript in the ASCII range: TAB, LF, VT, FF, CR
    and SPACE ([\s], [trim] and the prefix skipped by [parseFloat]). *)
Definition is_space (c : ascii) : bool :=
  ((9 <=? code c) && (code c <=? 13) || (code c =? 32))%N.

Definition lower_char (c : ascii) : ascii :=
  if ((65 <=? code c) && (code c <=? 90))%N
  then ascii_of_N (code c + 32) else c.

Definition upper_char (c : ascii) : ascii :=
  if ((97 <=? code c) && (code c <=? 122))%N
  then ascii_of_N (code c - 32) else c.

Fixpoint map_string (f : ascii -> ascii) (s : string) : string :=
  match s with
  | EmptyString => EmptyString
  | String c r => String (f c) (map_string f r)
  end.

(** [s.toLowerCase()]. *)
Definition toLowerCase (s : string) : string := map_string lower_char s.

(** [span p s]: the longest prefix of [s] whose characters satisfy [p],
    and the rest. *)
Fixpoint span (p : ascii -> bool) (s : string) : string * string :=
  match s with
  | EmptyString => (EmptyString, EmptyString)
  | String c r =>
      if p c then let '(a, b) := span p r in (String c a, b)
      else (EmptyString, s)
  end.

Fixpoint skip_space (s : string) : string :=
  match s with
  | String c r => if is_space c then skip_space r else s
  | EmptyString => EmptyString
  end.

Fixpoint all_space (s : string) : bool :=
  match s with
  | EmptyString => true
  | String c r => is_space c && all_space r
  end.

Fixpoint drop_trailing_space (s : string) : string :=
  match s with
  | EmptyString => EmptyString
  | String c r => if all_space s then EmptyString
                  else String c (drop_trailing_space r)
  end.

(** [s.trim()]. *)
Definition trim (s : string) : string := drop_trailing_space (skip_space s).

(** [s.startsWith(p)]. *)
Fixpoint starts_with (p s : string) : bool :=
  match p, s with
  | EmptyString, _ => true
  | String a p', String b s' => Ascii.eqb a b && starts_with p' s'
  | String _ _, EmptyString => false
  end.

(** [s.includes(t)]: [t] occurs in [s] as a substring. *)
Fixpoint includes (s t : string) : bool :=
  starts_with t s ||
  match s with
  | EmptyString => false
  | String _ r => includes r t
  end.

(** [l.join(sep)] on a list of strings. *)
Fixpoint join (sep : string) (l : list string) : string :=
  match l with
  | [] => EmptyString
  | [x] => x
  | x :: r => x ++ sep ++ join sep r
  end.

Fixpoint digits_value (acc : Z) (s : string) : Z :=
  match s with
  | EmptyString => acc
  | String c r => digits_value (10 * acc + Z.of_N (code c - 48)) r
  end.

Definition string_of_Z (z : Z) : string :=
  NilEmpty.string_of_uint (N.to_uint (Z.to_N z)).

Fixpoint repeat_char (c : ascii) (n : nat) : string :=
  match n with
  | O => EmptyString
  | S k => String c (repeat_char c k)
  end.

Fixpoint take (n : nat) (s : string) : string :=
  match n, s with
  | S k, String c r => String c (take k r)
  | _, _ => EmptyString
  end.

Fixpoint drop (n : nat) (s : string) : string :=
  match n, s with
  | S k, String _ r => drop k r
  | _, _ => s
  end.

(* ================================================================== *)
(** * Numbers and strings *)
(* ================================================================== *)

(** An optional sign: the sign read and the rest. *)
Definition read_sign (s : string) : bool * string :=
  match s with
  | String "+" r => (false, r)
  | String "-" r => (true, r)
  | _ => (false, s)
  end.

(** [ExponentPart] of a decimal literal, when one is there: [e] or [E],
    an optional sign and at least one digit.  Gives the exponent and the
    rest; a malformed exponent is not part of the literal. *)
Definition read_exponent (s : string) : Z * string :=
  match s with
  | String c r =>
      if Ascii.eqb c "e" || Ascii.eqb c "E" then
        let '(neg, r1) := read_sign r in
        let '(ds, r2) := span is_digit r1 in
        match ds with
        | EmptyString => (0, s)
        | _ => (if neg then - digits_value 0 ds else digits_value 0 ds, r2)
        end
      else (0, s)
  | EmptyString => (0, s)
  end.

(** The longest prefix of [s] that is a [StrDecimalLiteral]: its value
    and the rest, or [None] when no prefix is one. *)
Definition read_decimal (s : string) : option (number * string) :=
  let '(neg, s1) := read_sign s in
  if starts_with "Infinity" s1 then Some (S754_infinity neg, drop 8 s1)
  else
    let '(ip, r1) := span is_digit s1 in
    let '(fp, r2) :=
      match r1 with
      | String "." t => span is_digit t
      | _ => (EmptyString, r1)
      end in
    match ip ++ fp with
    | EmptyString => None
    | ds =>
        let '(ex, r3) := read_exponent r2 in
        Some (of_decimal neg (digits_value 0 ds) (ex - Z.of_nat (length fp)),
              r3)
    end.

(** [parseFloat(s)] on a string. *)
Definition parseFloat (s : string) : number :=
  match read_decimal (skip_space s) with
  | Some (x, _) => x
  | None => NaN
  end.

(** [Number(s)] on a string holding a decimal literal (the non-decimal
    literals [0x..], [0o..], [0b..] are not modelled: [Number] is only
    applied to the result of [toFixed]). *)
Definition Number_of_string (s : string) : number :=
  match trim s with
  | EmptyString => num_zero
  | t => match read_decimal t with
         | Some (x, EmptyString) => x
         | _ => NaN
         end
  end.

(** The exact value [num / den] of the positive number [m * 2^e]. *)
Definition exact_value (m : positive) (e : Z) : Z * Z :=
  if (0 <=? e)%Z then (Zpos m * 2 ^ e, 1)%Z else (Zpos m, 2 ^ (- e))%Z.

(** [num / den < 10^n]. *)
Definition below_pow10 (num den n : Z) : bool :=
  if (0 <=? n)%Z then (num <? 10 ^ n * den)%Z
  else (num * 10 ^ (- n) <? den)%Z.

(** The least [n] from [n0] on with [num / den < 10^n]. *)
Fixpoint decimal_exponent (fuel : nat) (num den n0 : Z) : Z :=
  match fuel with
  | O => n0
  | S f => if below_pow10 num den n0 then n0
           else decimal_exponent f num den (n0 + 1)
  end.

(** [num / den] in units of [10^(n-k)]: the integer part, the rest and
    the divisor. *)
Definition scaled (num den n k : Z) : Z * Z * Z :=
  let '(a, b) :=
    if (0 <=? n - k)%Z then (num, den * 10 ^ (n - k))%Z
    else (num * 10 ^ (k - n), den)%Z in
  ((a / b)%Z, (a mod b)%Z, b).

(** A [k]-digit decimal that reads back as [x], the one nearest to [x]
    when two do. *)
Definition pick_digits (x : number) (num den n k : Z) : option Z :=
  let '(lo, r, b) := scaled num den n k in
  let reads_back s := same_number (of_decimal false s (n - k)) x in
  match reads_back lo, reads_back (lo + 1)%Z with
  | true, true =>
      Some match (2 * r ?= b)%Z with
           | Lt => lo
           | Gt => (lo + 1)%Z
           | Eq => if Z.even lo then lo else (lo + 1)%Z
           end
  | true, false => Some lo
  | false, true => Some (lo + 1)%Z
  | false, false => None
  end.

(** The shortest decimal that reads back as [x], and its length. *)
Fixpoint shortest_digits (fuel : nat) (x : number) (num den n k : Z)
  : Z * Z :=
  match fuel with
  | O => (fst (fst (scaled num den n k)), k)
  | S f =>
      match pick_digits x num den n k with
      | Some s => (s, k)
      | None => shortest_digits f x num den n (k + 1)
      end
  end.

(** [Number::toString(x)], radix 10: the text of a number in a template
    literal. *)
Definition Number_toString (x : number) : string :=
  match x with
  | S754_nan => "NaN"
  | S754_zero _ => "0"
  | S754_infinity s => if s then "-Infinity" else "Infinity"
  | S754_finite sg m e =>
      let '(num, den) := exact_value m e in
      let n0 :=
        decimal_exponent 8 num den
          ((Z.log2 num - Z.log2 den) * 30103 / 100000 - 1)%Z in
      let '(s0, k0) :=
        shortest_digits 21 (S754_finite false m e) num den n0 1 in
      let '(s, k, n) :=
        if (s0 =? 10 ^ k0)%Z then (1, 1, n0 + 1)%Z else (s0, k0, n0) in
      let ds := string_of_Z s in
      let body :=
        if ((k <=? n) && (n <=? 21))%Z then
          ds ++ repeat_char "0" (Z.to_nat (n - k))
        else if ((0 <? n) && (n <=? 21))%Z then
          take (Z.to_nat n) ds ++ "." ++ drop (Z.to_nat n) ds
        else if ((-6 <? n) && (n <=? 0))%Z then
          "0." ++ repeat_char "0" (Z.to_nat (- n)) ++ ds
        else
          (if (k =? 1)%Z then ds else take 1 ds ++ "." ++ drop 1 ds)
          ++ "e" ++ (if (n - 1 <? 0)%Z then "-" else "+")
          ++ string_of_Z (Z.abs (n - 1)) in
      if sg then "-" ++ body else body
  end.

(** [x.toFixed(2)]: the nearest multiple of [1/100], the larger one at a
    tie, written with two decimals; a number from [10^21] on is written
    by [Number::toString]. *)
Definition toFixed2 (x : number) : string :=
  match x with
  | S754_zero _ => "0.00"
  | S754_finite sg m e =>
      if num_le (of_decimal false 1 21) (SFabs x) then Number_toString x
      else
        let '(num, den) := exact_value m e in
        let ds := string_of_Z ((200 * num + den) / (2 * den)) in
        let ds := repeat_char "0" (3 - length ds) ++ ds in
        (if sg then "-" else "")
        ++ take (length ds - 2) ds ++ "." ++ drop (length ds - 2) ds
  | _ => Number_toString x
  end.

(* ================================================================== *)
(** * Rows and datasets *)
(* ================================================================== *)

(** A cell of a parsed sheet. *)
Inductive value : Set :=
| VUndefined
| VNull
| VBool (b : bool)
| VString (s : string)
| VNumber (x : number).

(** A row: its own properties, in [Object.keys] order. *)
Definition row : Set := list (string * value).

Definition Object_keys (r : row) : list string := map fst r.

(** [row[key]]. *)
Fixpoint get (r : row) (key : string) : value :=
  match r with
  | [] => VUndefined
  | (k, v) :: rest => if String.eqb k key then v else get rest key
  end.

(** [String(v)], the conversion [parseFloat] applies to its argument. *)
Definition ToString (v : value) : string :=
  match v with
  | VUndefined => "undefined"
  | VNull => "null"
  | VBool true => "true"
  | VBool false => "false"
  | VString s => s
  | VNumber x => Number_toString x
  end.

(** [typeof raw === 'number' ? raw : parseFloat(raw)]. *)
Definition to_number (raw : value) : number :=
  match raw with
  | VNumber x => x
  | _ => parseFloat (ToString raw)
  end.

(** [raw === '' || raw == null]. *)
Definition is_blank (raw : value) : bool :=
  match raw with
  | VString EmptyString | VUndefined | VNull => true
  | _ => false
  end.

(** [!s] on a string or [null]: the empty string and [null] are falsy. *)
Definition falsy (s : option string) : bool :=
  match s with
  | None | Some EmptyString => true
  | Some _ => false
  end.

(** [x || null] on the result of [Array.prototype.find]. *)
Definition or_null (s : option string) : option string :=
  if falsy s then None else s.

(** [l.filter(Boolean)] and [l.filter((v) => v !== null)] on a list whose
    elements are objects, finite numbers or [null]. *)
Fixpoint drop_null {A : Type} (l : list (option A)) : list A :=
  match l with
  | [] => []
  | Some a :: r => a :: drop_null r
  | None :: r => drop_null r
  end.

(** [l.findIndex(p)], [None] standing for [-1]. *)
Fixpoint findIndex {A : Type} (p : A -> bool) (l : list A) : option nat :=
  match l with
  | [] => None
  | a :: r => if p a then Some O else option_map S (findIndex p r)
  end.

(** [l.includes(k)] on a list of strings. *)
Definition list_includes (l : list string) (k : string) : bool :=
  existsb (String.eqb k) l.

(** [/(t1|t2|...)/.test(s)] for literal alternatives. *)
Definition test_any (tokens : list string) (s : string) : bool :=
  existsb (includes s) tokens.

(* ================================================================== *)
(** * Field classifier *)
(* ================================================================== *)

Definition detectTextFields (rows : list row) : list string :=
  match rows with
  | [] => []
  | sample :: _ =>
      filter
        (fun key =>
           match get sample key with
           | VString s => negb (String.eqb (trim s) "")
           | _ => false
           end)
        (Object_keys sample)
  end.

Definition detectNumericFields (rows : list row) : list string :=
  match rows with
  | [] => []
  | sample :: _ =>
      filter (fun key => Number_isFinite (to_number (get sample key)))
        (Object_keys sample)
  end.

(* ================================================================== *)
(** * Text normalizer *)
(* ================================================================== *)

Definition is_lower (c : ascii) : bool :=
  ((97 <=? code c) && (code c <=? 122))%N.

Definition is_upper (c : ascii) : bool :=
  ((65 <=? code c) && (code c <=? 90))%N.

(** The class [\w]. *)
Definition is_word (c : ascii) : bool :=
  is_lower c || is_upper c || is_digit c || Ascii.eqb c "_".

(** [.replaceAll('_', ' ')]. *)
Definition underscores_to_spaces (s : string) : string :=
  map_string (fun c => if Ascii.eqb c "_" then " "%char else c) s.

(** [.replace(/([a-z])([A-Z])/g, '$1 $2')]. *)
Fixpoint split_camel (s : string) : string :=
  match s with
  | EmptyString => EmptyString
  | String a r =>
      match r with
      | String b _ =>
          if is_lower a && is_upper b
          then String a (String " " (split_camel r))
          else String a (split_camel r)
      | EmptyString => String a EmptyString
      end
  end.

(** [.replace(/\s+/g, ' ')]. *)
Fixpoint collapse_space (s : string) : string :=
  match s with
  | EmptyString => EmptyString
  | String a r =>
      if is_space a then
        match r with
        | String b _ =>
            if is_space b then collapse_space r
            else String " " (collapse_space r)
        | EmptyString => String " " EmptyString
        end
      else String a (collapse_space r)
  end.

(** [.replace(/\b\w/g, (c) => c.toUpperCase())]; [prev_word] tells whether
    the character before [s] is a word character. *)
Fixpoint capitalize_words (prev_word : bool) (s : string) : string :=
  match s with
  | EmptyString => EmptyString
  | String a r =>
      String (if is_word a && negb prev_word then upper_char a else a)
             (capitalize_words (is_word a) r)
  end.

Definition prettyKey (key : string) : string :=
  trim (capitalize_words false
          (collapse_space (split_camel (underscores_to_spaces key)))).

(* ================================================================== *)
(** * Subject extractor *)
(* ================================================================== *)

Record FieldDescriptor : Set := {
  key : string;
  label : string;
  credit : option number
}.

Definition id_like : list string :=
  ["roll"; "reg"; "registration"; "enrol"; "enrollment"; "id"].

Definition aggregate_like : list string :=
  ["total"; "aggregate"; "overall"; "gpa"; "cgpa"; "sgpa"; "percentage";
   "percent"; "score"].

(** The loop over the rows of one column: [None] when it returns [null]
    at a value that is not numeric, else the final [hasNumeric]. *)
Fixpoint scan_column (rows : list row) (k : string) (hasNumeric : bool)
  : option bool :=
  match rows with
  | [] => Some hasNumeric
  | r :: rest =>
      let raw := get r k in
      if is_blank raw then scan_column rest k hasNumeric
      else if Number_isFinite (to_number raw) then scan_column rest k true
      else None
  end.

(** A match of [\d+(\.\d+)?] at the start of [s]: the text matched and the
    rest. *)
Definition read_number_token (s : string) : option (string * string) :=
  let '(ip, r1) := span is_digit s in
  match ip with
  | EmptyString => None
  | _ =>
      match r1 with
      | String "." t =>
          let '(fp, r2) := span is_digit t in
          match fp with
          | EmptyString => Some (ip, r1)
          | _ => Some (ip ++ "." ++ fp, r2)
          end
      | _ => Some (ip, r1)
      end
  end.

(** Group 1 of the first match of [/\((\d+(\.\d+)?)\)/] in [s]. *)
Fixpoint paren_match (s : string) : option string :=
  match s with
  | EmptyString => None
  | String c r =>
      let here :=
        if Ascii.eqb c "(" then
          match read_number_token r with
          | Some (tok, String ")" _) => Some tok
          | _ => None
          end
        else None in
      match here with
      | Some tok => Some tok
      | None => paren_match r
      end
  end.

(** Group 1 of the first match of [/(\d+(\.\d+)?)\s*$/] in [s]. *)
Fixpoint trailing_match (s : string) : option string :=
  match s with
  | EmptyString => None
  | String _ r =>
      let here :=
        match read_number_token s with
        | Some (tok, rest) => if all_space rest then Some tok else None
        | None => None
        end in
      match here with
      | Some tok => Some tok
      | None => trailing_match r
      end
  end.

Definition parse_credit (k : string) : option number :=
  match paren_match k with
  | Some tok => Some (parseFloat tok)
  | None =>
      match trailing_match k with
      | Some tok => Some (parseFloat tok)
      | None => None
      end
  end.

(** The callback of [keys.map] in [extractSubjectFields]. *)
Definition subject_of (rows : list row) (textSet : list string)
  (k : string) : option FieldDescriptor :=
  let lower := toLowerCase k in
  if list_includes textSet lower
     || test_any id_like lower
     || test_any aggregate_like lower
  then None
  else
    match scan_column rows k false with
    | None => None
    | Some false => None
    | Some true =>
        Some {| key := k; label := prettyKey k; credit := parse_credit k |}
    end.

Definition extractSubjectFields (rows : list row) (textFields : list string)
  : list FieldDescriptor :=
  match rows with
  | [] => []
  | first :: _ =>
      let keys := Object_keys first in
      let textSet := map toLowerCase textFields in
      drop_null (map (subject_of rows textSet) keys)
  end.

(* ================================================================== *)
(** * Distinguished fields *)
(* ================================================================== *)

Definition id_candidates : list string :=
  ["roll"; "reg"; "registration"; "enrol"; "enrollment"; "admission"; "id"].

(** The [useMemo] body of [idField], as a function of its dependencies
    [rows] and [textFields]. *)
Definition idField (rows : list row) (textFields : list string)
  : option string :=
  let keys := match rows with sample :: _ => Object_keys sample | [] => [] end in
  let orderedKeys :=
    (textFields
     ++ filter (fun k => negb (list_includes textFields k)) keys)%list in
  let lowerKeys := map toLowerCase orderedKeys in
  let matchedCandidate :=
    find (fun cand => existsb (fun k => includes k cand) lowerKeys)
      id_candidates in
  if falsy matchedCandidate then None
  else
    match matchedCandidate with
    | Some cand =>
        or_null (find (fun k => includes (toLowerCase k) cand) orderedKeys)
    | None => None
    end.

Definition preferred : list string :=
  ["cg"; "cgpa"; "gpa"; "total"; "aggregate"; "overall"; "sgpa";
   "percentage"; "percent"; "score"].

(** The [useMemo] body of [primaryNumericField], as a function of its
    dependencies [numericFields] and [subjectFields]. *)
Definition primaryNumericField (numericFields : list string)
  (subjectFields : list FieldDescriptor) : option string :=
  match numericFields with
  | [] => None
  | first :: _ =>
      let lower := map toLowerCase numericFields in
      match findIndex (fun f => existsb (fun p => includes f p) preferred)
              lower with
      | Some idx => nth_error numericFields idx
      | None =>
          match subjectFields with
          | s :: _ => Some (key s)
          | [] => Some first
          end
      end
  end.

(** The values the component [App] computes from the loaded rows. *)
Definition App_textFields (rows : list row) : list string :=
  detectTextFields rows.

Definition App_numericFields (rows : list row) : list string :=
  detectNumericFields rows.

Definition App_subjectFields (rows : list row) : list FieldDescriptor :=
  extractSubjectFields rows (App_textFields rows).

Definition App_idField (rows : list row) : option string :=
  idField rows (App_textFields rows).

Definition App_primaryNumericField (rows : list row) : option string :=
  primaryNumericField (App_numericFields rows) (App_subjectFields rows).

(* ================================================================== *)
(** * Aggregator *)
(* ================================================================== *)

(** [rows.map(row => finite number or null).filter(v => v !== null)]. *)
Definition finite_values (rows : list row) (field : string) : list number :=
  drop_null
    (map (fun r =>
            let num := to_number (get r field) in
            if Number_isFinite num then Some num else None)
       rows).

Record SummaryStats : Set := {
  totalStudents : nat;
  avgScore : option number;
  maxScore : option number;
  minScore : option number
}.

Definition of_nat (n : nat) : number := of_Z (Z.of_nat n).

(** The [useMemo] body of [summary], as a function of its dependencies
    [rows] and [primaryNumericField]. *)
Definition summary (rows : list row) (primaryNumericField : option string)
  : SummaryStats :=
  let total := List.length rows in
  let nothing :=
    {| totalStudents := total; avgScore := None;
       maxScore := None; minScore := None |} in
  if Nat.eqb total 0 || falsy primaryNumericField then nothing
  else
    match primaryNumericField with
    | None => nothing
    | Some field =>
        let numericValues := finite_values rows field in
        match numericValues with
        | [] => nothing
        | _ =>
            let sum := fold_left num_add numericValues num_zero in
            {| totalStudents := total;
               avgScore := Some (num_div sum (of_nat (List.length numericValues)));
               maxScore := Some (Math_max numericValues);
               minScore := Some (Math_min numericValues) |}
        end
    end.

(** How a call ends: with a value, or with an exception thrown. *)
Inductive error : Set := TypeError | RangeError.

Inductive completion (A : Type) : Type :=
| Normal (a : A)
| Throw (e : error).

Arguments Normal {A} a.
Arguments Throw {A} e.

Record HistogramBin : Set := {
  range : string;
  count : number
}.

Definition of_N (n : N) : number := of_Z (Z.of_N n).

(** The callback of [Array.from] in [buildHistogramData]: the bin of
    index [i]. *)
Definition make_bin (min max step bins : number) (i : N) : HistogramBin :=
  let start := num_add min (num_mul (of_N i) step) in
  let last :=
    if num_eq (of_N i) (num_sub bins num_one) then max
    else num_add min (num_mul (num_add (of_N i) num_one) step) in
  {| range :=
       Number_toString (Math_round start) ++ " – "
       ++ Number_toString (Math_round last);
     count := num_zero |}.

(** [Array.from({ length: n }, f)]: a length above [2^32 - 1] is a
    [RangeError]. *)
Definition Array_from {A : Type} (n : N) (f : N -> A)
  : completion (list A) :=
  if (4294967295 <? n)%N then Throw RangeError
  else Normal (map (fun i => f (N.of_nat i)) (seq 0 (N.to_nat n))).

(** The index computed for the value [v], after both clamps. *)
Definition bin_index (min max bins v : number) : number :=
  let idx :=
    Math_floor
      (num_mul (num_div (num_sub v min) (num_sub max min)) bins) in
  let idx := if num_le bins idx then num_sub bins num_one else idx in
  let idx := if num_lt idx num_zero then num_zero else idx in
  idx.

Fixpoint update_nth {A : Type} (n : nat) (f : A -> A) (l : list A)
  : list A :=
  match n, l with
  | O, a :: r => f a :: r
  | S k, a :: r => a :: update_nth k f r
  | _, [] => []
  end.

Definition bump_count (b : HistogramBin) : HistogramBin :=
  {| range := range b; count := num_add (count b) num_one |}.

(** [data[idx].count += 1]: [data[idx]] is [undefined] unless [idx] is an
    index below the length, and reading [count] of [undefined] is a
    [TypeError]. *)
Definition increment (data : list HistogramBin) (idx : number)
  : completion (list HistogramBin) :=
  match array_index idx with
  | Some i =>
      match nth_error data (N.to_nat i) with
      | Some _ => Normal (update_nth (N.to_nat i) bump_count data)
      | None => Throw TypeError
      end
  | None => Throw TypeError
  end.

(** [values.forEach(v => ...)] over the bins. *)
Fixpoint count_values (min max bins : number) (values : list number)
  (data : list HistogramBin) : completion (list HistogramBin) :=
  match values with
  | [] => Normal data
  | v :: rest =>
      match increment data (bin_index min max bins v) with
      | Normal data' => count_values min max bins rest data'
      | Throw e => Throw e
      end
  end.

(** [buildHistogramData(rows, field, bins)] for a bin count that is a
    non-negative integer. *)
Definition buildHistogramData (rows : list row) (field : string) (bins : N)
  : completion (list HistogramBin) :=
  match rows with
  | [] => Normal []
  | _ =>
      if falsy (Some field) then Normal []
      else
        let values := finite_values rows field in
        match values with
        | [] => Normal []
        | _ =>
            let min := Math_min values in
            let max := Math_max values in
            if negb (Number_isFinite min) || negb (Number_isFinite max)
               || num_eq min max
            then Normal []
            else
              let step := num_div (num_sub max min) (of_N bins) in
              match Array_from bins (make_bin min max step (of_N bins)) with
              | Throw e => Throw e
              | Normal data => count_values min max (of_N bins) values data
              end
        end
  end.

(** The default of the third parameter: [bins = 8]. *)
Definition default_bins : N := 8.

(** An object whose properties hold numbers, in insertion order: a bin of
    [buildGpaCountData]. *)
Definition object : Set := list (string * number).

Fixpoint prop (o : object) (k : string) : option number :=
  match o with
  | [] => None
  | (k', x) :: r => if String.eqb k' k then Some x else prop r k
  end.

Fixpoint set_prop (o : object) (k : string) (x : number) : object :=
  match o with
  | [] => [(k, x)]
  | (k', y) :: r =>
      if String.eqb k' k then (k', x) :: r else (k', y) :: set_prop r k x
  end.

(** [bin[metricKey] = (bin[metricKey] || 0) + 1]: [undefined], zero and NaN
    are falsy.  The bin is read as the properties it holds itself: this is
    the assignment of the code for a metric key that is not the name of a
    member of [Object.prototype] (for such a name the bin first reads the
    inherited member, and the counter becomes a string). *)
Definition bump (bin : object) (metricKey : string) : object :=
  let current :=
    match prop bin metricKey with
    | Some x => if is_zero x || is_nan x then num_zero else x
    | None => num_zero
    end in
  set_prop bin metricKey (num_add current num_one).

(** The [Map] from bin keys to bins, in insertion order.  A bin is shared
    between the map and the variable [bin]: updating it updates the
    entry. *)
Definition bin_map : Set := list (string * object).

Fixpoint map_get (m : bin_map) (k : string) : option object :=
  match m with
  | [] => None
  | (k', o) :: r => if String.eqb k' k then Some o else map_get r k
  end.

Fixpoint map_update (m : bin_map) (k : string) (f : object -> object)
  : bin_map :=
  match m with
  | [] => []
  | (k', o) :: r =>
      if String.eqb k' k then (k', f o) :: r else (k', o) :: map_update r k f
  end.

(** The body of the inner [rows.forEach] for one metric and one row. *)
Definition record_row (metricKey : string) (bins : bin_map) (r : row)
  : bin_map :=
  let num := to_number (get r metricKey) in
  if negb (Number_isFinite num) then bins
  else
    let rounded := Number_of_string (toFixed2 num) in
    let binKey := Number_toString rounded in
    match map_get bins binKey with
    | Some _ => map_update bins binKey (fun bin => bump bin metricKey)
    | None => (bins ++ [(binKey, bump [("gpa", rounded)] metricKey)])%list
    end.

(** [a.gpa]; a missing property reads as [undefined], NaN in a
    subtraction. *)
Definition gpa (o : object) : number :=
  match prop o "gpa" with Some x => x | None => NaN end.

(** [.sort((a, b) => a.gpa - b.gpa)]: the stable sort, [a] before [b] when
    the comparator is negative. *)
Fixpoint insert_by_gpa (a : object) (l : list object) : list object :=
  match l with
  | [] => [a]
  | b :: r =>
      if num_lt (num_sub (gpa a) (gpa b)) num_zero then a :: l
      else b :: insert_by_gpa a r
  end.

Definition sort_by_gpa (l : list object) : list object :=
  fold_left (fun acc a => insert_by_gpa a acc) l [].

Definition buildGpaCountData (rows : list row) (metrics : list string)
  : list object :=
  match rows, metrics with
  | [], _ | _, [] => []
  | _, _ =>
      let bins :=
        fold_left
          (fun bins metricKey => fold_left (record_row metricKey) rows bins)
          metrics [] in
      sort_by_gpa (map snd bins)
  end.

(* ================================================================== *)
(** * Vocabulary of the statements *)
(* ================================================================== *)

(** The lowercase form of the field name [k] contains the token [tok]. *)
Definition matches_token (tok k : string) : bool :=
  includes (toLowerCase k) tok.

(** The lowercase form of [k] contains one of the preferred tokens. *)
Definition has_preferred (k : string) : bool :=
  existsb (fun p => matches_token p k) preferred.

(** The search order of the identifier field: the text fields, then the
    other field names of the first row. *)
Definition search_order (rows : list row) (textFields : list string)
  : list string :=
  (textFields
   ++ filter (fun k => negb (list_includes textFields k))
        (match rows with sample :: _ => Object_keys sample | [] => [] end))%list.

(** The selection of the primary numeric field in the words of the
    specification: the first numeric field with a preferred token, else
    the first subject key, else the first numeric field, else none. *)
Definition spec_primaryNumericField (numericFields : list string)
  (subjectFields : list FieldDescriptor) : option string :=
  match find has_preferred numericFields with
  | Some f => Some f
  | None =>
      match subjectFields with
      | s :: _ => Some (key s)
      | [] =>
          match numericFields with
          | f :: _ => Some f
          | [] => None
          end
      end
  end.

(** The strings of digits. *)
Fixpoint all_digits (s : string) : bool :=
  match s with
  | EmptyString => true
  | String c r => is_digit c && all_digits r
  end.

(** The texts matched by [\d+(\.\d+)?]: digits, or digits, a point and
    digits. *)
Definition number_text (tok : string) : Prop :=
  exists ip, ip <> "" /\ all_digits ip = true
    /\ (tok = ip
        \/ exists fp, fp <> "" /\ all_digits fp = true /\ tok = ip ++ "." ++ fp).

(** [k] has a number in parentheses; [k] ends with a number and white
    space. *)
Definition has_paren_number (k : string) : Prop :=
  exists pre tok post, number_text tok /\ k = pre ++ "(" ++ tok ++ ")" ++ post.

Definition has_trailing_number (k : string) : Prop :=
  exists pre tok ws,
    number_text tok /\ all_space ws = true /\ k = pre ++ tok ++ ws.

(** The non-negative numbers: zero of either sign, the positive finite
    numbers and plus infinity. *)
Definition nonnegative (x : number) : bool := num_le num_zero x.

(** Example datasets. *)
Definition rows_C1 : list row :=
  [ [("Math", VString "")]; [("Math", VString "80")] ].

Definition rows_C2 : list row := [ [("x", VNumber (of_Z 5))] ].

Definition rows_C4 : list row :=
  [ [("Name", VString "A"); ("Roll", VString "1"); ("Math", VString "80")];
    [("Name", VString "B"); ("Roll", VString "2"); ("Math", VString "N/A")] ].

Definition rows_C5a : list row :=
  [ [("Physics (3.0) Lab 2", VNumber (of_Z 80))] ].

Definition rows_C5b : list row := [ [("Chemistry 3", VNumber (of_Z 70))] ].

Definition rows_C6 : list row := [ [("Math (0)", VNumber (of_Z 80))] ].

Definition rows_C7 : list row := [ [("gpa", VNumber (parseFloat "3.5"))] ].

Definition rows_C10 : list row := [ [("GPA", VString "3.5")] ].

(** The end-to-end scenario of the specification. *)
Definition rows_scenario : list row :=
  [ [("Name", VString "Alice"); ("Reg", VString "2024001");
     ("CGPA", VNumber (parseFloat "3.67"));
     ("Physics_1", VNumber (of_Z 78)); ("Physics_1_Credit", VString "(3)")];
    [("Name", VString "Bob"); ("Reg", VString "2024002");
     ("CGPA", VNumber (parseFloat "3.67"));
     ("Physics_1", VNumber (of_Z 65))] ].

(* ================================================================== *)
(** * Vocabulary of the proofs *)
(* ================================================================== *)

(** The value [v] is counted in the bin of index [j]. *)
Definition assigned_to (min max bins : number) (j : N) (v : number) : bool :=
  match array_index (bin_index min max bins v) with
  | Some i => N.eqb i j
  | None => false
  end.

(** The rows of a dataset whose range [max - min] is not finite. *)
Definition rows_overflow : list row :=
  [ [("x", VNumber (parseFloat "1e308"))];
    [("x", VNumber (parseFloat "-1e308"))] ].

(** The sum of a list of counts. *)
Definition sum_N (l : list N) : N := fold_right N.add 0%N l.

(** A dataset with three values of one field. *)
Definition rows_hist : list row :=
  [ [("m", VNumber (of_Z 65))]; [("m", VNumber (of_Z 78))];
    [("m", VNumber (of_Z 70))] ].

(** The mantissa of 53 digits of a positive integer below [2^53]. *)
Definition mantissa (p : positive) : positive :=
  Z.to_pos (Zpos p * 2 ^ (53 - Zpos (digits2_pos p))).

(** The place of a number that is not NaN in the order: its class
    (infinities, negative, zero, positive), then exponent and mantissa. *)
Definition rank (x : number) : Z * Z * Z :=
  match x with
  | S754_nan => (0, 0, 0)
  | S754_zero _ => (0, 0, 0)
  | S754_infinity true => (-2, 0, 0)
  | S754_infinity false => (2, 0, 0)
  | S754_finite true m e => (-1, - e, - Zpos m)
  | S754_finite false m e => (1, e, Zpos m)
  end.

Definition lex_lt (a b : Z * Z * Z) : Prop :=
  let '(a1, a2, a3) := a in
  let '(b1, b2, b3) := b in
  a1 < b1 \/ (a1 = b1 /\ (a2 < b2 \/ (a2 = b2 /\ a3 < b3))).

Definition lex_le (a b : Z * Z * Z) : Prop := lex_lt a b \/ a = b.

Definition all_finite (l : list number) : Prop :=
  forall v, In v l -> Number_isFinite v = true.

(* ================================================================== *)
(** * The other values computed by the component *)
(* ================================================================== *)

(** [a || b] on strings or [undefined]. *)
Definition js_or (a b : option string) : option string :=
  if falsy a then b else a.

Definition metricLabel (k : string) : string :=
  let lower := toLowerCase k in
  if String.eqb lower "cg" || String.eqb lower "cgpa"
     || includes lower " cg" || includes lower "cgpa"
  then "CGPA"
  else prettyKey k.

Definition text_candidates : list string := ["name"; "student"; "candidate"].

(** The [useMemo] body of [primaryTextField], as a function of its
    dependency [textFields]. *)
Definition primaryTextField (textFields : list string) : option string :=
  let joined := toLowerCase (join " " textFields) in
  let found := find (fun c => includes joined c) text_candidates in
  if falsy found then or_null (hd_error textFields)
  else
    match found with
    | Some c =>
        or_null
          (js_or (find (fun f => includes (toLowerCase f) c) textFields)
             (hd_error textFields))
    | None => None
    end.

(** [primaryNumericField || subjectFields[0]?.key || null]. *)
Definition defaultMetricKey (primaryNumericField : option string)
  (subjectFields : list FieldDescriptor) : option string :=
  or_null (js_or primaryNumericField (option_map key (hd_error subjectFields))).

Definition chartMetricKeys (activeMetricKeys : list string)
  (defaultMetricKey : option string) : list string :=
  match activeMetricKeys with
  | _ :: _ => activeMetricKeys
  | [] =>
      match defaultMetricKey with
      | Some k => if falsy defaultMetricKey then [] else [k]
      | None => []
      end
  end.

(** [chartMetricKeys[0] || null]. *)
Definition filterMetricKey (chartMetricKeys : list string) : option string :=
  or_null (hd_error chartMetricKeys).

Record MetricOption : Set := {
  option_key : string;
  option_label : string
}.

(** [isIdLike] of [metricOptions]. *)
Definition isIdLike (k : string) : bool := test_any id_like (toLowerCase k).

(** The callback of [subjectFields.forEach] in [metricOptions], on the
    array [options] and the set [seen]. *)
Definition add_subject_option (state : list MetricOption * list string)
  (s : FieldDescriptor) : list MetricOption * list string :=
  let '(options, seen) := state in
  if negb (list_includes seen (key s)) && negb (isIdLike (key s)) then
    ((options ++ [{| option_key := key s; option_label := label s |}])%list,
     (seen ++ [key s])%list)
  else state.

(** The [useMemo] body of [metricOptions]. *)
Definition metricOptions (primaryNumericField : option string)
  (subjectFields : list FieldDescriptor) : list MetricOption :=
  let start :=
    match primaryNumericField with
    | Some k =>
        if negb (falsy primaryNumericField) && negb (isIdLike k) then
          ([{| option_key := k; option_label := metricLabel k |}], [k])
        else ([], [])
    | None => ([], [])
    end in
  fst (fold_left add_subject_option subjectFields start).

(** The updater passed to [setActiveMetricKeys] when the option [k] is
    clicked. *)
Definition toggle_metric (k : string) (current : list string) : list string :=
  if list_includes current k
  then filter (fun x => negb (String.eqb x k)) current
  else (current ++ [k])%list.

(** The test of the first filter of [filteredRows]. *)
Definition has_metric (k : string) (r : row) : bool :=
  let raw := get r k in
  if is_blank raw then false else Number_isFinite (to_number raw).

(** The test of the second filter of [filteredRows]. *)
Definition matches_search (q : string) (r : row) : bool :=
  existsb (fun v => includes (toLowerCase (ToString v)) q) (map snd r).

(** The [useMemo] body of [filteredRows]. *)
Definition filteredRows (rows : list row) (search : string)
  (onlyWithMetric : bool) (filterMetricKey : option string) : list row :=
  let baseRows :=
    match filterMetricKey with
    | Some k =>
        if onlyWithMetric && negb (falsy filterMetricKey)
        then filter (has_metric k) rows
        else rows
    | None => rows
    end in
  if falsy (Some (trim search)) then baseRows
  else filter (matches_search (toLowerCase search)) baseRows.

(** The inner [rows.forEach] of [subjectMaxMap]: the largest finite value
    of the column above 0, or 0. *)
Definition column_max (rows : list row) (k : string) : number :=
  fold_left
    (fun max r =>
       let num := to_number (get r k) in
       if Number_isFinite num && num_lt max num then num else max)
    rows num_zero.

(** The [useMemo] body of [subjectMaxMap]. *)
Definition subjectMaxMap (rows : list row)
  (subjectFields : list FieldDescriptor) : object :=
  fold_left
    (fun map s =>
       let max := column_max rows (key s) in
       if num_lt num_zero max then set_prop map (key s) max else map)
    subjectFields [].

Record OverviewEntry : Set := {
  subject : string;
  score : number
}.

(** The [useMemo] body of [studentOverviewData]; [selectedRow] is a row or
    [null]. *)
Definition studentOverviewData (selectedRow : option row)
  (subjectFields : list FieldDescriptor) : list OverviewEntry :=
  match selectedRow, subjectFields with
  | None, _ | _, [] => []
  | Some selected, _ =>
      drop_null
        (map (fun s =>
                let num := to_number (get selected (key s)) in
                if Number_isFinite num
                then Some {| subject := label s; score := num |}
                else None)
           subjectFields)
  end.

(** [Math.max(a, b)] and [Math.min(a, b)]. *)
Definition max2 (a b : number) : number := Math_max [a; b].
Definition min2 (a b : number) : number := Math_min [a; b].

(** A number as a condition: zero and NaN are falsy. *)
Definition truthy_number (x : number) : bool := negb (is_zero x || is_nan x).

(** The names of the members of [Object.prototype], which every plain
    object inherits. *)
Definition Object_prototype_members : list string :=
  ["constructor"; "__defineGetter__"; "__defineSetter__"; "hasOwnProperty";
   "__lookupGetter__"; "__lookupSetter__"; "isPrototypeOf";
   "propertyIsEnumerable"; "toString"; "valueOf"; "__proto__";
   "toLocaleString"].

(** What [o[k]] reads in a plain object [o] filled by assignments of
    numbers: the number assigned, a member inherited from
    [Object.prototype] (a function, or the prototype itself for
    [__proto__]), or [undefined]. *)
Inductive property : Set :=
| Own (x : number)
| Inherited
| Undefined.

(** [o[k]].  An assignment to [__proto__] stores nothing, so this name
    always reads the prototype. *)
Definition read_property (o : object) (k : string) : property :=
  if String.eqb k "__proto__" then Inherited
  else
    match prop o k with
    | Some x => Own x
    | None =>
        if list_includes Object_prototype_members k then Inherited
        else Undefined
    end.

(** The width of the bar of a subject card, as a fraction: [normalized]
    for the value [raw] of the selected row and [maxForSubject], what
    [subjectMaxMap[subject.key]] reads ([None] when the card is not
    drawn).  An inherited member is truthy, and as a divisor it is NaN. *)
Definition normalized (raw : value) (maxForSubject : property)
  : option number :=
  if is_blank raw then None
  else
    let num := to_number raw in
    let isNumeric := Number_isFinite num in
    Some
      match maxForSubject with
      | Own m =>
          if isNumeric && truthy_number m
          then max2 num_zero (min2 num_one (num_div num m))
          else of_decimal false 75 (-2)
      | Inherited =>
          if isNumeric
          then max2 num_zero (min2 num_one (num_div num NaN))
          else of_decimal false 75 (-2)
      | Undefined => of_decimal false 75 (-2)
      end.

Definition targetReg : string := "2024331082".

(** The test of [rows.find] in the effect that selects the first row
    shown. *)
Definition is_target (idField : string) (r : row) : bool :=
  match get r idField with
  | VUndefined | VNull => false
  | v => String.eqb (toLowerCase (trim (ToString v))) (toLowerCase targetReg)
  end.

(** The effect on [selectedRow]: the state after it ran. *)
Definition select_initial (rows : list row) (selectedRow : option row)
  (idField : option string) : option row :=
  match rows, selectedRow with
  | [], _ | _, Some _ => selectedRow
  | first :: _, None =>
      let initial :=
        match idField with
        | Some k => if falsy idField then None else find (is_target k) rows
        | None => None
        end in
      match initial with
      | Some r => Some r
      | None => Some first
      end
  end.

(** The values of the component for the loaded rows. *)
Definition App_primaryTextField (rows : list row) : option string :=
  primaryTextField (App_textFields rows).

Definition App_defaultMetricKey (rows : list row) : option string :=
  defaultMetricKey (App_primaryNumericField rows) (App_subjectFields rows).

Definition App_metricOptions (rows : list row) : list MetricOption :=
  metricOptions (App_primaryNumericField rows) (App_subjectFields rows).

(* ================================================================== *)
(** * Vocabulary of the further statements *)
(* ================================================================== *)

(** The field names of the first row. *)
Definition columns (rows : list row) : list string :=
  match rows with
  | sample :: _ => Object_keys sample
  | [] => []
  end.

(** No character of [c] is a space. *)
Fixpoint space_free (c : string) : bool :=
  match c with
  | EmptyString => true
  | String a r => negb (Ascii.eqb a " "%char) && space_free r
  end.

(** The test a row passes to be listed, in one predicate. *)
Definition shown (search : string) (onlyWithMetric : bool)
  (filterMetricKey : option string) (r : row) : bool :=
  (negb onlyWithMetric
   || match filterMetricKey with
      | Some k => falsy filterMetricKey || has_metric k r
      | None => true
      end)
  && (String.eqb (trim search) "" || matches_search (toLowerCase search) r).

(** The bucket of a row for a metric: the finite value rounded to two
    decimals, or none when the cell holds no finite number. *)
Definition bucket (metricKey : string) (r : row) : option number :=
  let num := to_number (get r metricKey) in
  if Number_isFinite num then Some (Number_of_string (toFixed2 num)) else None.

(** The row falls, for the metric, in the bucket printed as [binKey]. *)
Definition in_bucket (binKey metricKey : string) (r : row) : bool :=
  match bucket metricKey r with
  | Some rounded => String.eqb (Number_toString rounded) binKey
  | None => false
  end.

(** A counter of a bin: absent until the first count. *)
Definition counter (n : nat) : option number :=
  match n with
  | O => None
  | S _ => Some (of_nat n)
  end.

(** The pairs of a metric and a row in the order the two nested loops of
    [buildGpaCountData] visit them. *)
Definition events (rows : list row) (metrics : list string)
  : list (string * row) :=
  flat_map (fun m => map (pair m) rows) metrics.

Definition record_event (bins : bin_map) (e : string * row) : bin_map :=
  record_row (fst e) bins (snd e).

(** How many of the events are counts for the metric [m] in the bucket
    printed as [binKey]. *)
Definition hits (binKey m : string) (past : list (string * row)) : nat :=
  List.length
    (filter (fun e => String.eqb (fst e) m && in_bucket binKey (fst e) (snd e))
       past).

(** What holds of the bins after the events [past]: the keys are
    distinct; the bin of a key prints its bucket value as the key, the
    bucket value is the bucket of a past event, and its counter of each
    metric is the number of past events of the metric in the bucket; a key
    has a bin exactly when a past event falls in it. *)
Definition bins_after (past : list (string * row)) (bins : bin_map) : Prop :=
  NoDup (map fst bins)
  /\ (forall k o, map_get bins k = Some o ->
        Number_toString (gpa o) = k
        /\ (exists e, In e past /\ bucket (fst e) (snd e) = Some (gpa o))
        /\ forall m, m <> "gpa" -> prop o m = counter (hits k m past))
  /\ (forall k, map_get bins k = None ->
        forall e, In e past -> in_bucket k (fst e) (snd e) = false)
  /\ (forall e x, In e past -> bucket (fst e) (snd e) = Some x ->
        map_get bins (Number_toString x) <> None).









(** A sheet whose only column is named like a member of
    [Object.prototype] and holds no mark above zero. *)
Definition rows_inherited : list row := [ [("toString", VNumber num_zero)] ].

(** The active metrics after the clicks [clicks] on metric buttons, from
    the initial state in which none is active. *)
Definition activeMetricKeys_after (clicks : list string) : list string :=
  fold_left (fun current k => toggle_metric k current) clicks [].

Fixpoint no_underscore (s : string) : bool :=
  match s with
  | EmptyString => true
  | String a r => negb (Ascii.eqb a "_") && no_underscore r
  end.

Definition starts_without_space (s : string) : bool :=
  match s with
  | EmptyString => true
  | String a _ => negb (is_space a)
  end.

(** Every white-space character of [s] is a space, and the character
    after it is not white space; [at_end] tells whether the end of the
    string may follow one. *)
Fixpoint spaced (at_end : bool) (s : string) : bool :=
  match s with
  | EmptyString => true
  | String a r =>
      (if is_space a
       then Ascii.eqb a " " && match r with
                               | String b _ => negb (is_space b)
                               | EmptyString => at_end
                               end
       else true)
      && spaced at_end r
  end.

(** No word of [s] starts with a lowercase letter; [prev_word] tells
    whether the character before [s] is a word character. *)
Fixpoint capitalized (prev_word : bool) (s : string) : bool :=
  match s with
  | EmptyString => true
  | String a r =>
      (if is_word a && negb prev_word then negb (is_lower a) else true)
      && capitalized (is_word a) r
  end.

(* ================================================================== *)
(** * Lists and strings *)
(* ================================================================== *)

Local Open Scope Z_scope.

(** Powers of two are opaque to linear arithmetic. *)
Ltac hide_pow :=
  repeat match goal with
    | |- context [Z.pow 2 ?e] =>
        let a := fresh "pw" in set (a := Z.pow 2 e) in *; clearbody a
    | H : context [Z.pow 2 ?e] |- _ =>
        let a := fresh "pw" in set (a := Z.pow 2 e) in *; clearbody a
    end.

Lemma in_drop_null {A B : Type} (f : A -> option B) (l : list A) (b : B) :
  In b (drop_null (map f l)) <-> exists a, In a l /\ f a = Some b.
Proof.
  induction l as [|x l IH]; simpl.
  - split; [tauto | intros (a & [] & _)].
  - destruct (f x) as [y|] eqn:E; simpl; rewrite IH; split.
    + intros [->|(a & Ha & Hf)]; eauto.
    + intros (a & [->|Ha] & Hf); [left; congruence | eauto].
    + intros (a & Ha & Hf); eauto.
    + intros (a & [->|Ha] & Hf); [congruence | eauto].
Qed.

Lemma list_includes_In (l : list string) (k : string) :
  list_includes l k = true <-> In k l.
Proof.
  unfold list_includes. rewrite existsb_exists. split.
  - intros (x & Hx & E). apply String.eqb_eq in E. now subst.
  - intros H. exists k. split; [assumption | apply String.eqb_refl].
Qed.

(** What [find] returns is the first element that passes the test. *)
Lemma find_first {A : Type} (p : A -> bool) (l : list A) (x : A) :
  find p l = Some x <->
  exists before after,
    l = (before ++ x :: after)%list /\ p x = true /\
    forall y, In y before -> p y = false.
Proof.
  induction l as [|a l IH]; simpl.
  - split; [discriminate |].
    intros (b & c & E & _). now destruct b.
  - destruct (p a) eqn:Pa.
    + split.
      * intros [= ->]. exists [], l. simpl. tauto.
      * intros ([|b before] & after & E & Px & Hb); simpl in E.
        -- congruence.
        -- injection E as -> _. rewrite (Hb b) in Pa; [discriminate | now left].
    + rewrite IH. split.
      * intros (before & after & -> & Px & Hb).
        exists (a :: before), after. simpl. repeat split; trivial.
        intros y [<-|Hy]; auto.
      * intros ([|b before] & after & E & Px & Hb); simpl in E.
        -- injection E as -> _. congruence.
        -- injection E as -> ->. exists before, after.
           repeat split; trivial. intros y Hy. apply Hb. now right.
Qed.

Lemma find_none_iff {A : Type} (p : A -> bool) (l : list A) :
  find p l = None <-> forall y, In y l -> p y = false.
Proof.
  split.
  - intros H y Hy. exact (find_none p l H y Hy).
  - intros H. destruct (find p l) as [x|] eqn:E; trivial.
    apply find_some in E. destruct E as [Hin Px].
    rewrite (H x Hin) in Px. discriminate.
Qed.

(** [findIndex] over the mapped list, then indexing the list itself, is
    [find] with the composed test. *)
Lemma findIndex_nth {A B : Type} (f : A -> B) (p : B -> bool) (l : list A) :
  match findIndex p (map f l) with
  | Some i => exists a, nth_error l i = Some a
                        /\ find (fun a => p (f a)) l = Some a
  | None => find (fun a => p (f a)) l = None
  end.
Proof.
  induction l as [|a l IH]; simpl; trivial.
  destruct (p (f a)); simpl; [now exists a|].
  destruct (findIndex p (map f l)); simpl; trivial.
Qed.

Lemma starts_with_nonempty (t s : string) :
  starts_with t s = true -> t <> "" -> s <> "".
Proof. destruct t, s; simpl; congruence. Qed.

Lemma includes_nonempty (s t : string) :
  includes s t = true -> t <> "" -> s <> "".
Proof.
  intros H Ht ->. simpl in H. rewrite orb_false_r in H.
  now apply (starts_with_nonempty t "").
Qed.

(* ================================================================== *)
(** * Subject extractor: which columns survive *)
(* ================================================================== *)

(** A descriptor comes from a key that passed every test of the
    callback. *)
Lemma subject_of_Some (rows : list row) (textSet : list string)
  (k : string) (d : FieldDescriptor) :
  subject_of rows textSet k = Some d ->
  list_includes textSet (toLowerCase k) = false /\
  test_any id_like (toLowerCase k) = false /\
  test_any aggregate_like (toLowerCase k) = false /\
  scan_column rows k false = Some true /\
  d = {| key := k; label := prettyKey k; credit := parse_credit k |}.
Proof.
  unfold subject_of.
  destruct (list_includes textSet (toLowerCase k)); cbn [orb]; [discriminate |].
  destruct (test_any id_like (toLowerCase k)); cbn [orb]; [discriminate |].
  destruct (test_any aggregate_like (toLowerCase k)); cbn [orb]; [discriminate |].
  destruct (scan_column rows k false) as [[|]|]; try discriminate.
  intros [= <-]. repeat split.
Qed.

Lemma in_extractSubjectFields (rows : list row) (textFields : list string)
  (d : FieldDescriptor) :
  In d (extractSubjectFields rows textFields) ->
  subject_of rows (map toLowerCase textFields) (key d) = Some d.
Proof.
  unfold extractSubjectFields. destruct rows as [|first rest]; [intros []|].
  rewrite in_drop_null. intros (k & _ & Hk).
  destruct (subject_of_Some _ _ _ _ Hk) as (_ & _ & _ & _ & ->). exact Hk.
Qed.

(** One value that is neither blank nor numeric ends the scan with
    [null], whatever was seen before. *)
Lemma scan_column_bad (rows : list row) (k : string) (r : row) :
  In r rows ->
  is_blank (get r k) = false ->
  Number_isFinite (to_number (get r k)) = false ->
  forall seen, scan_column rows k seen = None.
Proof.
  intros Hin Hb Hf. induction rows as [|a rows IH]; [destruct Hin|].
  intros seen. simpl.
  destruct Hin as [->|Hin].
  - now rewrite Hb, Hf.
  - destruct (is_blank (get a k)); [now apply IH|].
    destruct (Number_isFinite (to_number (get a k))); [now apply IH | reflexivity].
Qed.

(** [hasNumeric] is only set by a row that holds a finite number. *)
Lemma scan_column_true (rows : list row) (k : string) :
  scan_column rows k false = Some true ->
  exists r, In r rows /\ is_blank (get r k) = false /\
            Number_isFinite (to_number (get r k)) = true.
Proof.
  induction rows as [|a rows IH]; simpl; [discriminate|].
  destruct (is_blank (get a k)) eqn:Hb.
  - intros H. destruct (IH H) as (r & Hr & H1 & H2). exists r. auto.
  - destruct (Number_isFinite (to_number (get a k))) eqn:Hf; [|discriminate].
    intros _. exists a. auto.
Qed.

(** C4: a column with one value that is neither blank nor numeric, or with
    no numeric value at all, gives no subject descriptor; so does [Math]
    in the two-row example, although it is numeric in the first row. *)
Theorem C4_subject_rejection :
  (forall (rows : list row) (textFields : list string) (k : string),
      (exists r, In r rows /\ is_blank (get r k) = false /\
                 Number_isFinite (to_number (get r k)) = false)
      \/ (forall r, In r rows ->
                    is_blank (get r k) = true
                    \/ Number_isFinite (to_number (get r k)) = false) ->
      ~ In k (map key (extractSubjectFields rows textFields)))
  /\ In "Math" (detectNumericFields rows_C4)
  /\ extractSubjectFields rows_C4 (detectTextFields rows_C4) = []
  /\ extractSubjectFields rows_C4 [] = [].
Proof.
  split; [|repeat split; vm_compute; auto].
  intros rows textFields k H Hin.
  apply in_map_iff in Hin. destruct Hin as (d & <- & Hd).
  apply in_extractSubjectFields in Hd.
  apply subject_of_Some in Hd. destruct Hd as (_ & _ & _ & Hscan & _).
  destruct H as [(r & Hr & Hb & Hf) | Hall].
  - rewrite (scan_column_bad rows (key d) r Hr Hb Hf) in Hscan. discriminate.
  - apply scan_column_true in Hscan. destruct Hscan as (r & Hr & Hb & Hf).
    destruct (Hall r Hr); congruence.
Qed.

Lemma C4_subject_rejection_witness :
  ~ In "Math" (map key (extractSubjectFields rows_C4 [])).
Proof.
  apply (proj1 C4_subject_rejection). left.
  exists [("Name", VString "B"); ("Roll", VString "2"); ("Math", VString "N/A")].
  split; [right; left; reflexivity | split; reflexivity].
Defined.

(** C10: a field can be a text field and a numeric field at once, as
    [GPA] with the first-row value ["3.5"]; and a text field never gives a
    subject descriptor, whatever its values. *)
Theorem C10_text_fields :
  (get (hd [] rows_C10) "GPA" = VString "3.5"
   /\ In "GPA" (detectTextFields rows_C10)
   /\ In "GPA" (detectNumericFields rows_C10))
  /\ forall (rows : list row) (k : string),
       In k (detectTextFields rows) ->
       ~ In k (map key (extractSubjectFields rows (detectTextFields rows))).
Proof.
  split; [repeat split; vm_compute; auto|].
  intros rows k Hk Hin.
  apply in_map_iff in Hin. destruct Hin as (d & <- & Hd).
  apply in_extractSubjectFields in Hd.
  apply subject_of_Some in Hd. destruct Hd as (Hts & _).
  assert (list_includes (map toLowerCase (detectTextFields rows))
            (toLowerCase (key d)) = true) as E.
  { apply list_includes_In. now apply in_map. }
  congruence.
Qed.

Lemma C10_text_fields_witness :
  ~ In "GPA" (map key (extractSubjectFields rows_C10 (detectTextFields rows_C10))).
Proof.
  apply (proj2 C10_text_fields). vm_compute. auto.
Defined.

(* ================================================================== *)
(** * Identifier field *)
(* ================================================================== *)

Lemma id_candidates_nonempty (c : string) : In c id_candidates -> c <> "".
Proof.
  unfold id_candidates. simpl.
  intros H; repeat (destruct H as [<-|H]; [discriminate|]); destruct H.
Qed.

Lemma toLowerCase_nonempty (k : string) : toLowerCase k <> "" -> k <> "".
Proof. now destruct k. Qed.

(** A candidate passes the test of [candidates.find] exactly when it
    matches a field name of the search order. *)
Lemma candidate_test (order : list string) (cand : string) :
  existsb (fun k => includes k cand) (map toLowerCase order) = true <->
  exists k, In k order /\ matches_token cand k = true.
Proof.
  rewrite existsb_exists. split.
  - intros (l & Hl & Hinc). apply in_map_iff in Hl.
    destruct Hl as (k & <- & Hk). now exists k.
  - intros (k & Hk & Hm). exists (toLowerCase k). split; [now apply in_map | exact Hm].
Qed.

Lemma candidate_test_false (order : list string) (cand : string) :
  (forall k, In k order -> matches_token cand k = false) ->
  existsb (fun k => includes k cand) (map toLowerCase order) = false.
Proof.
  intros H. apply not_true_is_false. intros E.
  apply candidate_test in E. destruct E as (k & Hk & Hm).
  rewrite (H k Hk) in Hm. discriminate.
Qed.

(** C9: the candidate tokens are tried in the order roll, reg,
    registration, enrol, enrollment, admission, id against the search
    order (text fields, then the other first-row names); the identifier
    field is the first name of the search order that contains the first
    token matching any name, and there is none when no token matches. *)
Theorem C9_idField (rows : list row) (textFields : list string) :
  id_candidates =
    ["roll"; "reg"; "registration"; "enrol"; "enrollment"; "admission"; "id"]
  /\ (forall pre cand post,
         id_candidates = (pre ++ cand :: post)%list ->
         (exists k, In k (search_order rows textFields)
                    /\ matches_token cand k = true) ->
         (forall c k, In c pre -> In k (search_order rows textFields) ->
                      matches_token c k = false) ->
         exists before k after,
           search_order rows textFields = (before ++ k :: after)%list
           /\ matches_token cand k = true
           /\ (forall k', In k' before -> matches_token cand k' = false)
           /\ idField rows textFields = Some k)
  /\ ((forall c k, In c id_candidates -> In k (search_order rows textFields) ->
                   matches_token c k = false) ->
      idField rows textFields = None).
Proof.
  split; [reflexivity|]. split.
  - intros pre cand post Hsplit Hsome Hpre.
    assert (find (fun c => existsb (fun k => includes k c)
                             (map toLowerCase (search_order rows textFields)))
              id_candidates = Some cand) as Hfind.
    { apply find_first. exists pre, post. split; [exact Hsplit|]. split.
      - now apply candidate_test.
      - intros c Hc. apply candidate_test_false. intros k Hk. now apply Hpre. }
    assert (cand <> "") as Hne.
    { apply id_candidates_nonempty. rewrite Hsplit. apply in_elt. }
    destruct (find (fun k => matches_token cand k) (search_order rows textFields))
      as [k|] eqn:Hk.
    + pose proof Hk as Hk'. apply find_first in Hk'.
      destruct Hk' as (before & after & Ho & Hm & Hb).
      exists before, k, after. repeat split; trivial.
      unfold idField. fold (search_order rows textFields). cbv zeta.
      rewrite Hfind.
      assert (falsy (Some cand) = false) as -> by (destruct cand; [easy|reflexivity]).
      unfold matches_token in Hk. rewrite Hk.
      unfold or_null.
      assert (falsy (Some k) = false) as ->; [|reflexivity].
      assert (k <> "") as Hk0.
      { apply toLowerCase_nonempty. eapply includes_nonempty; eauto. }
      destruct k; [easy|reflexivity].
    + destruct Hsome as (k & Hin & Hm).
      rewrite find_none_iff in Hk. rewrite (Hk k Hin) in Hm. discriminate.
  - intros Hnone. unfold idField. fold (search_order rows textFields). cbv zeta.
    assert (find (fun c => existsb (fun k => includes k c)
                             (map toLowerCase (search_order rows textFields)))
              id_candidates = None) as ->; [|reflexivity].
    apply find_none_iff. intros c Hc. apply candidate_test_false.
    intros k Hk. now apply Hnone.
Qed.

Lemma C9_idField_witness : idField rows_scenario (detectTextFields rows_scenario) = Some "Reg".
Proof.
  destruct (proj1 (proj2 (C9_idField rows_scenario (detectTextFields rows_scenario)))
              ["roll"] "reg"
              ["registration"; "enrol"; "enrollment"; "admission"; "id"])
    as (before & k & after & Ho & Hm & Hb & Hid).
  - reflexivity.
  - exists "Reg". split; [vm_compute; auto | reflexivity].
  - intros c k [<-|[]] Hk. vm_compute in Hk.
    repeat (destruct Hk as [<-|Hk]; [reflexivity|]). destruct Hk.
  - rewrite Hid. f_equal.
    vm_compute in Ho.
    destruct before as [|b0 before]; simpl in Ho.
    + now injection Ho as <- _.
    + injection Ho as <- Ho.
      specialize (Hb "Name" (or_introl eq_refl)) as Hn.
      destruct before as [|b1 before]; simpl in Ho.
      * now injection Ho as <- _.
      * injection Ho as <- Ho.
        specialize (Hb "Reg" (or_intror (or_introl eq_refl))). discriminate.
Defined.

(* ================================================================== *)
(** * Primary numeric field *)
(* ================================================================== *)

(** The index found among the lowercase names is the index of the first
    numeric field that has a preferred token. *)
Lemma preferred_index (numericFields : list string) :
  match findIndex (fun f => existsb (fun p => includes f p) preferred)
          (map toLowerCase numericFields) with
  | Some i => exists a, nth_error numericFields i = Some a
                        /\ find has_preferred numericFields = Some a
  | None => find has_preferred numericFields = None
  end.
Proof. exact (findIndex_nth toLowerCase _ numericFields). Qed.

(** C1 (as the code has it): with no numeric field the selection is none,
    also when subject fields exist; otherwise it is the first numeric
    field whose lowercase name contains a preferred token, else the first
    subject key, else the first numeric field. *)
Theorem C1_primaryNumericField (numericFields : list string)
  (subjectFields : list FieldDescriptor) :
  preferred =
    ["cg"; "cgpa"; "gpa"; "total"; "aggregate"; "overall"; "sgpa";
     "percentage"; "percent"; "score"]
  /\ (numericFields = [] ->
      primaryNumericField numericFields subjectFields = None)
  /\ (forall before f after,
         numericFields = (before ++ f :: after)%list ->
         has_preferred f = true ->
         (forall g, In g before -> has_preferred g = false) ->
         primaryNumericField numericFields subjectFields = Some f)
  /\ (forall f rest,
         numericFields = f :: rest ->
         (forall g, In g numericFields -> has_preferred g = false) ->
         primaryNumericField numericFields subjectFields =
           match subjectFields with
           | s :: _ => Some (key s)
           | [] => Some f
           end).
Proof.
  split; [reflexivity|]. split; [now intros ->|].
  pose proof (preferred_index numericFields) as Hidx.
  split.
  - intros before f after Hsplit Hf Hbefore.
    assert (find has_preferred numericFields = Some f) as Hfind.
    { apply find_first. now exists before, after. }
    unfold primaryNumericField. destruct numericFields as [|g rest].
    + now destruct before.
    + cbv zeta.
      destruct (findIndex _ (map toLowerCase (g :: rest))) as [i|].
      * destruct Hidx as (a & -> & Ha). congruence.
      * congruence.
  - intros f rest -> Hnone.
    assert (find has_preferred (f :: rest) = None) as Hfind
        by now apply find_none_iff.
    unfold primaryNumericField. cbv zeta.
    destruct (findIndex _ (map toLowerCase (f :: rest))) as [i|].
    + destruct Hidx as (a & _ & Ha). congruence.
    + reflexivity.
Qed.

Lemma C1_primaryNumericField_witness :
  primaryNumericField (App_numericFields rows_scenario)
    (App_subjectFields rows_scenario) = Some "CGPA".
Proof.
  apply (proj1 (proj2 (proj2 (C1_primaryNumericField _ _))) ["Reg"] "CGPA" ["Physics_1"]).
  - reflexivity.
  - reflexivity.
  - intros g [<-|[]]. reflexivity.
Defined.

(** C1, counterexample: in the dataset [{Math: ""}, {Math: "80"}] no field
    is numeric in the first row, [Math] is a subject field, and the
    selection is none, where the specification has the first subject key. *)
Lemma C1_counterexample :
  App_numericFields rows_C1 = []
  /\ map key (App_subjectFields rows_C1) = ["Math"]
  /\ App_primaryNumericField rows_C1 = None
  /\ spec_primaryNumericField (App_numericFields rows_C1)
       (App_subjectFields rows_C1) = Some "Math"
  /\ App_primaryNumericField rows_C1
     <> spec_primaryNumericField (App_numericFields rows_C1)
          (App_subjectFields rows_C1).
Proof. repeat split; try reflexivity. discriminate. Qed.

(* ================================================================== *)
(** * The two patterns of a credit *)
(* ================================================================== *)

Lemma append_assoc (a b c : string) : (a ++ b) ++ c = a ++ b ++ c.
Proof. induction a as [|x a IH]; cbn [append]; [reflexivity | now rewrite IH]. Qed.

Lemma span_digits (s a b : string) :
  span is_digit s = (a, b) -> s = a ++ b /\ all_digits a = true.
Proof.
  revert a b. induction s as [|c s IH]; intros a b; cbn [span].
  - intros [= <- <-]. now split.
  - destruct (is_digit c) eqn:E.
    + destruct (span is_digit s) as [a' b']. intros [= <- <-].
      destruct (IH a' b' eq_refl) as [-> Ha].
      split; [reflexivity|]. cbn [all_digits]. now rewrite E.
    + intros [= <- <-]. now split.
Qed.

(** The digits of [a], when what follows does not start with a digit. *)
Lemma span_digits_stop (a b : string) :
  all_digits a = true ->
  match b with String c _ => is_digit c = false | EmptyString => True end ->
  span is_digit (a ++ b) = (a, b).
Proof.
  intros Ha Hb. induction a as [|c a IH]; cbn [append].
  - destruct b as [|c b]; cbn [span]; [reflexivity|]. now rewrite Hb.
  - cbn [all_digits] in Ha. apply andb_prop in Ha. destruct Ha as [Hc Ha].
    cbn [span]. rewrite Hc, (IH Ha). reflexivity.
Qed.

Lemma read_number_token_sound (s tok rest : string) :
  read_number_token s = Some (tok, rest) ->
  s = tok ++ rest /\ number_text tok.
Proof.
  unfold read_number_token.
  destruct (span is_digit s) as [ip r1] eqn:E.
  apply span_digits in E. destruct E as [-> Hip].
  destruct ip as [|c ip]; [discriminate|].
  assert (number_text (String c ip)) as Hnum.
  { exists (String c ip). repeat split; [discriminate | exact Hip | now left]. }
  destruct r1 as [|c1 t]; [intros [= <- <-]; now split|].
  destruct c1 as [[] [] [] [] [] [] [] []];
    try (intros [= <- <-]; now split).
  destruct (span is_digit t) as [fp r2] eqn:E.
  apply span_digits in E. destruct E as [-> Hfp].
  destruct fp as [|f fp]; intros [= <- <-].
  - now split.
  - split.
    + symmetry. exact (append_assoc (String c ip) ("." ++ String f fp) r2).
    + exists (String c ip). repeat split; [discriminate | exact Hip |].
      right. exists (String f fp). repeat split; [discriminate | exact Hfp].
Qed.

(** A number text is read back whole when what follows starts neither
    with a digit nor with a point. *)
Lemma read_number_token_complete (tok rest : string) :
  number_text tok ->
  match rest with
  | String c _ => is_digit c = false /\ c <> "."%char
  | EmptyString => True
  end ->
  read_number_token (tok ++ rest) = Some (tok, rest).
Proof.
  intros (ip & Hne & Hip & Htok) Hrest.
  assert (match rest with
          | String c _ => is_digit c = false
          | EmptyString => True
          end) as Hrest' by (destruct rest; tauto).
  unfold read_number_token.
  destruct Htok as [-> | (fp & Hfne & Hfp & ->)].
  - rewrite (span_digits_stop ip rest Hip Hrest').
    destruct ip as [|c ip]; [congruence|].
    destruct rest as [|c1 rest]; [reflexivity|].
    destruct Hrest as [_ Hdot].
    destruct c1 as [[] [] [] [] [] [] [] []]; try reflexivity. congruence.
  - rewrite (append_assoc ip ("." ++ fp) rest).
    rewrite (span_digits_stop ip (("." ++ fp) ++ rest) Hip) by reflexivity.
    destruct ip as [|c ip]; [congruence|].
    cbn [append]. rewrite (span_digits_stop fp rest Hfp Hrest').
    destruct fp as [|f fp]; [congruence|]. reflexivity.
Qed.

Lemma paren_match_sound (k tok : string) :
  paren_match k = Some tok ->
  number_text tok /\ exists pre post, k = pre ++ "(" ++ tok ++ ")" ++ post.
Proof.
  induction k as [|a k IH]; cbn [paren_match]; [discriminate|].
  assert (paren_match k = Some tok ->
          number_text tok
          /\ exists pre post, String a k = pre ++ "(" ++ tok ++ ")" ++ post)
    as Hrec.
  { intros H. destruct (IH H) as (Hn & pre & post & ->).
    split; [exact Hn|]. now exists (String a pre), post. }
  destruct (Ascii.eqb a "(") eqn:Ea; [|exact Hrec].
  apply Ascii.eqb_eq in Ea. subst a.
  destruct (read_number_token k) as [[t rest]|] eqn:E; [|exact Hrec].
  destruct rest as [|c rest]; [exact Hrec|].
  destruct c as [[] [] [] [] [] [] [] []]; try exact Hrec.
  intros [= <-]. apply read_number_token_sound in E. destruct E as [-> Hn].
  split; [exact Hn|]. now exists "", rest.
Qed.

Lemma paren_match_complete (k : string) :
  has_paren_number k -> paren_match k <> None.
Proof.
  intros (pre & tok & post & Hn & ->).
  induction pre as [|a pre IH]; cbn [append paren_match].
  - change (Ascii.eqb "(" "(") with true. cbv iota.
    change (String ")" post) with (")" ++ post).
    rewrite (read_number_token_complete tok (")" ++ post) Hn)
      by (split; [reflexivity | discriminate]).
    discriminate.
  - destruct (if Ascii.eqb a "(" then _ else None); [discriminate | exact IH].
Qed.

Lemma trailing_match_sound (k tok : string) :
  trailing_match k = Some tok ->
  number_text tok
  /\ exists pre ws, all_space ws = true /\ k = pre ++ tok ++ ws.
Proof.
  induction k as [|a k IH]; cbn [trailing_match]; [discriminate|].
  assert (trailing_match k = Some tok ->
          number_text tok
          /\ exists pre ws, all_space ws = true /\ String a k = pre ++ tok ++ ws)
    as Hrec.
  { intros H. destruct (IH H) as (Hn & pre & ws & Hws & ->).
    split; [exact Hn|]. now exists (String a pre), ws. }
  destruct (read_number_token (String a k)) as [[t rest]|] eqn:E; [|exact Hrec].
  destruct (all_space rest) eqn:Hws; [|exact Hrec].
  intros [= <-]. apply read_number_token_sound in E. destruct E as [E Hn].
  split; [exact Hn|]. exists "", rest. now split.
Qed.

Lemma all_space_head (ws : string) :
  all_space ws = true ->
  match ws with
  | String c _ => is_digit c = false /\ c <> "."%char
  | EmptyString => True
  end.
Proof.
  destruct ws as [|c ws]; [trivial|]. cbn [all_space]. intros H.
  apply andb_prop in H. destruct H as [H _].
  destruct c as [[] [] [] [] [] [] [] []]; try discriminate; now split.
Qed.

Lemma number_text_nonempty (tok : string) : number_text tok -> tok <> "".
Proof.
  intros (ip & Hne & _ & [-> | (fp & _ & _ & ->)]); [exact Hne|].
  destruct ip; [congruence | discriminate].
Qed.

Lemma trailing_match_complete (k : string) :
  has_trailing_number k -> trailing_match k <> None.
Proof.
  intros (pre & tok & ws & Hn & Hws & ->).
  induction pre as [|a pre IH].
  - cbn [append]. pose proof (number_text_nonempty tok Hn) as Hne.
    pose proof (read_number_token_complete tok ws Hn (all_space_head ws Hws)) as E.
    destruct (tok ++ ws) as [|c r] eqn:Ek.
    + destruct tok; [congruence | discriminate].
    + cbn [trailing_match]. rewrite E, Hws. discriminate.
  - cbn [append trailing_match].
    destruct (match read_number_token (String a (pre ++ tok ++ ws)) with
              | Some (t, rest) => if all_space rest then Some t else None
              | None => None
              end); [discriminate | exact IH].
Qed.

Lemma has_paren_number_match (k : string) :
  has_paren_number k <-> exists tok, paren_match k = Some tok.
Proof.
  split.
  - intros H. apply paren_match_complete in H.
    destruct (paren_match k) as [tok|]; [now exists tok | congruence].
  - intros (tok & H). apply paren_match_sound in H.
    destruct H as (Hn & pre & post & ->). now exists pre, tok, post.
Qed.

Lemma has_trailing_number_match (k : string) :
  has_trailing_number k <-> exists tok, trailing_match k = Some tok.
Proof.
  split.
  - intros H. apply trailing_match_complete in H.
    destruct (trailing_match k) as [tok|]; [now exists tok | congruence].
  - intros (tok & H). apply trailing_match_sound in H.
    destruct H as (Hn & pre & ws & Hws & ->). now exists pre, tok, ws.
Qed.

(** C5: the credit of a subject descriptor is read from a number in
    parentheses in its header when there is one, else from a number that
    ends the header (white space apart) when there is one, else it is
    none; the matched texts are such numbers of the header;
    ["Physics (3.0) Lab 2"] has credit 3 although it ends in 2, and
    ["Chemistry 3"] has credit 3. *)
Theorem C5_credit_precedence :
  (forall (rows : list row) (textFields : list string) (d : FieldDescriptor),
      In d (extractSubjectFields rows textFields) ->
      (has_paren_number (key d) ->
       exists tok, paren_match (key d) = Some tok
                   /\ credit d = Some (parseFloat tok))
      /\ (~ has_paren_number (key d) -> has_trailing_number (key d) ->
          exists tok, trailing_match (key d) = Some tok
                      /\ credit d = Some (parseFloat tok))
      /\ (~ has_paren_number (key d) -> ~ has_trailing_number (key d) ->
          credit d = None))
  /\ (forall k tok,
         paren_match k = Some tok ->
         number_text tok
         /\ exists pre post, k = pre ++ "(" ++ tok ++ ")" ++ post)
  /\ (forall k tok,
         trailing_match k = Some tok ->
         number_text tok
         /\ exists pre ws, all_space ws = true /\ k = pre ++ tok ++ ws)
  /\ (paren_match "Physics (3.0) Lab 2" = Some "3.0"
      /\ trailing_match "Physics (3.0) Lab 2" = Some "2"
      /\ map (fun d => (key d, credit d)) (App_subjectFields rows_C5a)
         = [("Physics (3.0) Lab 2", Some (of_Z 3))])
  /\ (paren_match "Chemistry 3" = None
      /\ trailing_match "Chemistry 3" = Some "3"
      /\ map (fun d => (key d, credit d)) (App_subjectFields rows_C5b)
         = [("Chemistry 3", Some (of_Z 3))]).
Proof.
  split; [|split; [exact paren_match_sound|
           split; [exact trailing_match_sound|
                   repeat split; vm_compute; reflexivity]]].
  intros rows textFields d Hd.
  apply in_extractSubjectFields in Hd. apply subject_of_Some in Hd.
  destruct Hd as (_ & _ & _ & _ & Hd).
  assert (credit d = parse_credit (key d)) as -> by (rewrite Hd; reflexivity).
  unfold parse_credit.
  rewrite (has_paren_number_match (key d)), (has_trailing_number_match (key d)).
  destruct (paren_match (key d)) as [tok|].
  - split; [intros _; now exists tok|].
    split; intros H; exfalso; apply H; now exists tok.
  - split; [intros (tok & H); discriminate|].
    destruct (trailing_match (key d)) as [tok|].
    + split; [intros _ _; now exists tok|].
      intros _ H. exfalso. apply H. now exists tok.
    + split; [intros _ (tok & H); discriminate | reflexivity].
Qed.

Lemma C5_credit_precedence_witness :
  exists tok,
    paren_match "Physics (3.0) Lab 2" = Some tok
    /\ credit {| key := "Physics (3.0) Lab 2"; label := "Physics (3.0) Lab 2";
                 credit := Some (of_Z 3) |}
       = Some (parseFloat tok).
Proof.
  apply (proj1 (proj1 C5_credit_precedence rows_C5a []
                  {| key := "Physics (3.0) Lab 2";
                     label := "Physics (3.0) Lab 2";
                     credit := Some (of_Z 3) |}
                  (or_introl eq_refl))).
  exists "Physics ", "3.0", " Lab 2". split; [|reflexivity].
  exists "3". split; [discriminate|]. split; [reflexivity|].
  right. exists "0". repeat split. discriminate.
Defined.

(* ================================================================== *)
(** * Grouped counts *)
(* ================================================================== *)

Lemma prop_set_prop (o : object) (k : string) (x : number) :
  prop (set_prop o k x) k = Some x.
Proof.
  induction o as [|[k' y] o IH]; cbn [set_prop prop].
  - now rewrite String.eqb_refl.
  - destruct (String.eqb k' k) eqn:E; cbn [prop]; now rewrite E.
Qed.

Lemma prop_set_prop_other (o : object) (k k' : string) (x : number) :
  k <> k' -> prop (set_prop o k x) k' = prop o k'.
Proof.
  intros Hne. induction o as [|[k0 y] o IH]; cbn [set_prop prop].
  - apply String.eqb_neq in Hne. now rewrite Hne.
  - destruct (String.eqb k0 k) eqn:E; cbn [prop].
    + apply String.eqb_eq in E. subst k0.
      apply String.eqb_neq in Hne. now rewrite Hne.
    + now rewrite IH.
Qed.

(** C7, at the failing input.  The counter of a metric is a property of
    the bin named by the metric key, next to the bucket value in the
    property [gpa]: counting for another key leaves the bucket value as it
    is, counting for the key ["gpa"] adds 1 to the bucket value itself.
    For a sheet with the column ["gpa"] that column is the default metric,
    and one row with the value 3.5 gives the single row [{gpa: 4.5}], with
    neither the bucket value 3.5 nor a count of 1; with the key ["CGPA"]
    of the scenario of the specification the row is
    [{gpa: 3.67, CGPA: 2}]. *)
Theorem C7_gpa_metric_overwrites_bucket :
  (forall (bin : object) (metricKey : string),
      metricKey <> "gpa" -> gpa (bump bin metricKey) = gpa bin)
  /\ (forall (bin : object) (x : number),
         prop bin "gpa" = Some x -> is_zero x = false -> is_nan x = false ->
         gpa (bump bin "gpa") = num_add x num_one)
  /\ App_primaryNumericField rows_C7 = Some "gpa"
  /\ buildGpaCountData rows_C7 ["gpa"] = [ [("gpa", parseFloat "4.5")] ]
  /\ buildGpaCountData rows_scenario ["CGPA"]
     = [ [("gpa", parseFloat "3.67"); ("CGPA", of_Z 2)] ].
Proof.
  split; [|split; [|repeat split; vm_compute; reflexivity]].
  - intros bin metricKey Hne. unfold gpa, bump.
    now rewrite prop_set_prop_other.
  - intros bin x Hx Hz Hn. unfold gpa, bump.
    now rewrite prop_set_prop, Hx, Hz, Hn.
Qed.

Lemma C7_gpa_metric_overwrites_bucket_witness :
  gpa (bump [("gpa", parseFloat "3.5")] "gpa") = parseFloat "4.5".
Proof.
  rewrite (proj1 (proj2 C7_gpa_metric_overwrites_bucket)
             [("gpa", parseFloat "3.5")] (parseFloat "3.5"));
    reflexivity.
Defined.

(* ================================================================== *)
(** * Histogram: the degenerate domain *)
(* ================================================================== *)

(** C2, counterexample: a single finite value gives no bin at all, so the
    counts sum to 0 while one finite value was found. *)
Lemma C2_counterexample :
  finite_values rows_C2 "x" = [of_Z 5]
  /\ buildHistogramData rows_C2 "x" default_bins = Normal []
  /\ forall cs : list N,
       map count [] = map of_N cs ->
       sum_N cs <> N.of_nat (List.length (finite_values rows_C2 "x")).
Proof.
  split; [reflexivity|]. split; [reflexivity|].
  intros [|c cs] H; [discriminate | discriminate H].
Qed.


(* ================================================================== *)
(** * Binary64 arithmetic on integers *)
(* ================================================================== *)

Lemma fexp_binary64 (x : Z) : fexp prec emax x = Z.max (x - 53) (-1074).
Proof. reflexivity. Qed.

(** The number of binary digits of a positive integer. *)
Lemma digits_bounds (p : positive) :
  2 ^ (Zpos (digits2_pos p) - 1) <= Zpos p < 2 ^ Zpos (digits2_pos p).
Proof.
  induction p as [p IH|p IH|]; cbn [digits2_pos]; [| |simpl; lia].
  - rewrite Pos2Z.inj_succ, (Pos2Z.inj_xI p).
    replace (Z.succ (Zpos (digits2_pos p)) - 1) with (Z.succ (Zpos (digits2_pos p) - 1)) by lia.
    rewrite !Z.pow_succ_r by lia. hide_pow. lia.
  - rewrite Pos2Z.inj_succ, (Pos2Z.inj_xO p).
    replace (Z.succ (Zpos (digits2_pos p)) - 1) with (Z.succ (Zpos (digits2_pos p) - 1)) by lia.
    rewrite !Z.pow_succ_r by lia. hide_pow. lia.
Qed.

Lemma digits_unique (p : positive) (d : Z) :
  2 ^ (d - 1) <= Zpos p < 2 ^ d -> Zpos (digits2_pos p) = d.
Proof.
  intros [Hlo Hhi]. pose proof (digits_bounds p) as [Blo Bhi].
  assert (0 < d) as Hd.
  { destruct (Z_lt_le_dec 0 d); trivial.
    destruct (Z.eq_dec d 0) as [->|]; [simpl in Hhi; lia|].
    rewrite Z.pow_neg_r in Hhi by lia. lia. }
  assert (d - 1 < Zpos (digits2_pos p)).
  { apply (Z.pow_lt_mono_r_iff 2); lia. }
  assert (Zpos (digits2_pos p) - 1 < d).
  { apply (Z.pow_lt_mono_r_iff 2); lia. }
  lia.
Qed.

Lemma digits_scaled (p : positive) (k : Z) :
  0 <= k -> Zdigits2 (Zpos p * 2 ^ k) = Zpos (digits2_pos p) + k.
Proof.
  intros Hk. pose proof (digits_bounds p) as [Blo Bhi].
  assert (0 < 2 ^ k) by (apply Z.pow_pos_nonneg; lia).
  destruct (Zpos p * 2 ^ k) as [|q|q] eqn:E; try lia.
  cbn [Zdigits2]. apply digits_unique. rewrite <- E.
  replace (Zpos (digits2_pos p) + k - 1) with (Zpos (digits2_pos p) - 1 + k) by lia.
  rewrite !Z.pow_add_r by lia. split; nia.
Qed.

(** Iterating [n] times, for the iterator of [SpecFloat]. *)
Lemma iter_pos_nat {A : Type} (f : A -> A) (p : positive) (x : A) :
  iter_pos f p x = Nat.iter (Pos.to_nat p) f x.
Proof.
  revert x. induction p as [p IH|p IH|]; intros x; cbn [iter_pos].
  - rewrite !IH, Pos2Nat.inj_xI.
    change (S (2 * Pos.to_nat p)) with (S (Pos.to_nat p + (Pos.to_nat p + 0)))%nat.
    rewrite Nat.add_0_r, Nat.iter_succ_r, Nat.iter_add. reflexivity.
  - rewrite !IH, Pos2Nat.inj_xO.
    change (2 * Pos.to_nat p)%nat with (Pos.to_nat p + (Pos.to_nat p + 0))%nat.
    rewrite Nat.add_0_r, Nat.iter_add. reflexivity.
  - reflexivity.
Qed.

Lemma pos_iter_nat {A : Type} (f : A -> A) (p : positive) (x : A) :
  Pos.iter f x p = Nat.iter (Pos.to_nat p) f x.
Proof.
  rewrite Pos2Nat.inj_iter. induction (Pos.to_nat p); simpl; congruence.
Qed.

Lemma iter_xO (n : nat) (m : positive) :
  Zpos (Nat.iter n xO m) = Zpos m * 2 ^ Z.of_nat n.
Proof.
  induction n as [|n IH]; [simpl; lia|].
  cbn [Nat.iter nat_rect]. rewrite (Pos2Z.inj_xO (nat_rect _ m (fun _ => xO) n)).
  change (nat_rect _ m (fun _ => xO) n) with (Nat.iter n xO m). rewrite IH.
  rewrite Nat2Z.inj_succ, Z.pow_succ_r by lia. ring.
Qed.

(** Shifting out [n] zero bits is exact. *)
Lemma shr_zero_bits (n : nat) (m : positive) :
  Nat.iter n shr_1
    {| shr_m := Zpos (Nat.iter n xO m); shr_r := false; shr_s := false |}
  = {| shr_m := Zpos m; shr_r := false; shr_s := false |}.
Proof.
  induction n as [|n IH]; [reflexivity|].
  rewrite Nat.iter_succ_r. exact IH.
Qed.

Lemma shr_exact (m : positive) (e k : Z) :
  0 <= k ->
  shr {| shr_m := Zpos m * 2 ^ k; shr_r := false; shr_s := false |} (e - k) k
  = ({| shr_m := Zpos m; shr_r := false; shr_s := false |}, e).
Proof.
  intros Hk. unfold shr. destruct k as [|q|q]; try lia.
  - rewrite Z.mul_1_r, Z.sub_0_r. reflexivity.
  - f_equal; [|lia].
    rewrite iter_pos_nat.
    replace (Zpos m * 2 ^ Zpos q) with (Zpos (Nat.iter (Pos.to_nat q) xO m)).
    + apply shr_zero_bits.
    + rewrite iter_xO, positive_nat_Z. reflexivity.
Qed.

(** Rounding a mantissa of 53 digits followed by [k] zero bits is exact. *)
Lemma round_exact (s : bool) (m : positive) (e k : Z) :
  Zpos (digits2_pos m) = 53 -> -1074 <= e <= 971 -> 0 <= k ->
  binary_round_aux prec emax s (Zpos m * 2 ^ k) (e - k) loc_Exact
  = S754_finite s m e.
Proof.
  intros Hd He Hk.
  assert (forall j, 0 <= j ->
            shr_fexp prec emax (Zpos m * 2 ^ j) (e - j) loc_Exact
            = ({| shr_m := Zpos m; shr_r := false; shr_s := false |}, e)) as Hshr.
  { intros j Hj. unfold shr_fexp. rewrite digits_scaled, fexp_binary64, Hd by lia.
    replace (Z.max (53 + j + (e - j) - 53) (-1074) - (e - j)) with j by lia.
    now apply shr_exact. }
  unfold binary_round_aux. rewrite Hshr by lia.
  cbn [shr_m loc_of_shr_record round_nearest_even].
  specialize (Hshr 0). rewrite Z.mul_1_r, Z.sub_0_r in Hshr.
  rewrite Hshr by lia. cbn [shr_m].
  replace (e <=? emax - prec) with true; [reflexivity|].
  symmetry. apply Z.leb_le. unfold emax, prec. lia.
Qed.

Lemma mantissa_spec (p : positive) :
  Zpos (digits2_pos p) <= 53 ->
  Zpos (mantissa p) = Zpos p * 2 ^ (53 - Zpos (digits2_pos p))
  /\ Zpos (digits2_pos (mantissa p)) = 53.
Proof.
  intros Hd. unfold mantissa.
  assert (0 < 2 ^ (53 - Zpos (digits2_pos p))) by (apply Z.pow_pos_nonneg; lia).
  assert (0 < Zpos p * 2 ^ (53 - Zpos (digits2_pos p))) as Hpos by lia.
  rewrite Z2Pos.id by exact Hpos. split; [reflexivity|].
  pose proof (digits_scaled p (53 - Zpos (digits2_pos p))) as D.
  destruct (Zpos p * 2 ^ (53 - Zpos (digits2_pos p))) as [|q|q] eqn:E; try lia.
  cbn [Zdigits2] in D. cbn [Z.to_pos]. rewrite D; lia.
Qed.

(** An integer with the mantissa scaled by [2^j] normalizes to the number
    of the integer. *)
Lemma normalize_scaled (s : bool) (p : positive) (j : Z) :
  Zpos (digits2_pos p) <= 53 -> 0 <= j ->
  binary_round prec emax s (Z.to_pos (Zpos p * 2 ^ j)) (- j)
  = S754_finite s (mantissa p) (Zpos (digits2_pos p) - 53).
Proof.
  intros Hd Hj.
  destruct (mantissa_spec p Hd) as [Hm Hdm].
  pose proof (Pos2Z.is_pos (digits2_pos p)) as Hd0.
  assert (0 < 2 ^ j) by (apply Z.pow_pos_nonneg; lia).
  assert (0 < Zpos p * 2 ^ j) as Hpos by lia.
  pose proof (digits_scaled p j Hj) as D.
  unfold binary_round, shl_align.
  destruct (Zpos p * 2 ^ j) as [|q|q] eqn:E; try lia.
  cbn [Zdigits2] in D. cbn [Z.to_pos].
  rewrite fexp_binary64, D.
  replace (Z.max (Zpos (digits2_pos p) + j + - j - 53) (-1074))
    with (Zpos (digits2_pos p) - 53) by lia.
  destruct (Zpos (digits2_pos p) - 53 - - j) as [|t|t] eqn:Et.
  - replace (Zpos q) with (Zpos (mantissa p) * 2 ^ 0).
    + replace (- j) with (Zpos (digits2_pos p) - 53 - 0) by lia.
      apply round_exact; lia.
    + rewrite Hm, <- E. replace (53 - Zpos (digits2_pos p)) with j by lia. ring.
  - replace (Zpos q) with (Zpos (mantissa p) * 2 ^ Zpos t).
    + replace (- j) with (Zpos (digits2_pos p) - 53 - Zpos t) by lia.
      apply round_exact; lia.
    + rewrite Hm, <- E, <- Z.mul_assoc, <- Z.pow_add_r by lia.
      do 2 f_equal. lia.
  - rewrite pos_iter_nat.
    replace (Zpos (Nat.iter (Pos.to_nat t) xO q)) with (Zpos (mantissa p) * 2 ^ 0).
    + replace (Zpos (digits2_pos p) - 53) with (Zpos (digits2_pos p) - 53 - 0) at 1 by lia.
      apply round_exact; lia.
    + rewrite iter_xO, positive_nat_Z, Hm, Z.mul_1_r, <- E, <- Z.mul_assoc,
        <- Z.pow_add_r by lia.
      do 2 f_equal. lia.
Qed.

(** The number of a positive integer below [2^53]. *)
Lemma of_Z_pos (p : positive) :
  Zpos (digits2_pos p) <= 53 ->
  of_Z (Zpos p) = S754_finite false (mantissa p) (Zpos (digits2_pos p) - 53).
Proof.
  intros Hd. unfold of_Z, binary_normalize.
  rewrite <- (normalize_scaled false p 0) by lia.
  rewrite Z.mul_1_r. reflexivity.
Qed.

Lemma digits_le (p : positive) (k : Z) :
  0 <= k -> Zpos p < 2 ^ k -> Zpos (digits2_pos p) <= k.
Proof.
  intros Hk Hp. pose proof (digits_bounds p) as [Blo _].
  assert (Zpos (digits2_pos p) - 1 < k); [|lia].
  apply (Z.pow_lt_mono_r_iff 2); lia.
Qed.

Lemma num_one_eq : num_one = S754_finite false 4503599627370496 (-52).
Proof. reflexivity. Qed.


Section Integers.

(** A positive integer [p] below [2^53], written with [d] digits. *)
Variable p : positive.
Hypothesis Hp : Zpos p < 2 ^ 53.

Let d : Z := Zpos (digits2_pos p).

Lemma digits_53 : 1 <= d <= 53.
Proof.
  unfold d. split; [lia|]. apply digits_le; [lia | exact Hp].
Qed.

Lemma of_Z_finite :
  of_Z (Zpos p) = S754_finite false (mantissa p) (d - 53).
Proof. apply of_Z_pos. apply digits_53. Qed.

Lemma mantissa_value : Zpos (mantissa p) = Zpos p * 2 ^ (53 - d).
Proof. apply mantissa_spec. apply digits_53. Qed.




(** The mantissa aligned to the exponent of 1. *)
Lemma align_52 :
  Zpos (fst (shl_align (mantissa p) (d - 53) (-52))) = Zpos p * 2 ^ 52.
Proof.
  pose proof digits_53 as Hd. unfold shl_align.
  destruct (-52 - (d - 53)) as [|t|t] eqn:E; cbn [fst].
  - rewrite mantissa_value. do 2 f_equal. lia.
  - lia.
  - rewrite pos_iter_nat, iter_xO, positive_nat_Z, mantissa_value,
      <- Z.mul_assoc, <- Z.pow_add_r by lia.
    do 2 f_equal. lia.
Qed.


End Integers.

(** An integer below [2^53] written in units of [2^-52]. *)
Lemma normalize_52 (z : Z) :
  0 <= z < 2 ^ 53 ->
  binary_normalize prec emax (z * 2 ^ 52) (-52) false = of_Z z.
Proof.
  intros Hz. destruct z as [|p|p]; [reflexivity | | lia].
  rewrite of_Z_finite by lia.
  rewrite <- (normalize_scaled false p 52) by (try apply digits_53; lia).
  unfold binary_normalize.
  assert (0 < Zpos p * 2 ^ 52) as Hpos by lia.
  destruct (Zpos p * 2 ^ 52) as [|q|q]; try lia. reflexivity.
Qed.

(** [n + 1] and [n - 1] are exact on the integers below [2^53]. *)
Lemma add_one (z : Z) :
  0 <= z -> z + 1 < 2 ^ 53 -> num_add (of_Z z) num_one = of_Z (z + 1).
Proof.
  intros H0 H1. destruct z as [|p|p]; [reflexivity | | lia].
  rewrite <- (normalize_52 (Zpos p + 1)) by lia.
  rewrite of_Z_finite, num_one_eq by lia. unfold num_add, SFadd.
  pose proof (digits_53 p ltac:(lia)) as Hd.
  replace (Z.min (Zpos (digits2_pos p) - 53) (-52)) with (-52) by lia.
  cbn [cond_Zopp]. rewrite align_52 by lia.
  f_equal. change (Zpos (fst (shl_align 4503599627370496 (-52) (-52))))
    with (2 ^ 52). ring.
Qed.


(** The numbers of natural numbers below [2^53]. *)
Lemma of_N_finite (n : N) :
  (n < 2 ^ 53)%N -> Number_isFinite (of_N n) = true.
Proof.
  intros Hn. unfold of_N. destruct n as [|p]; [reflexivity|].
  cbn [Z.of_N]. rewrite of_Z_finite; [reflexivity|]. lia.
Qed.



Lemma of_N_succ (n : N) :
  (n + 1 < 2 ^ 53)%N -> num_add (of_N n) num_one = of_N (n + 1).
Proof.
  intros Hn. unfold of_N. rewrite N2Z.inj_add. apply add_one; lia.
Qed.


(* ================================================================== *)
(** * The order of the numbers *)
(* ================================================================== *)

Lemma compare_rank (x y : number) :
  is_nan x = false -> is_nan y = false ->
  match SFcompare x y with
  | Some Lt => lex_lt (rank x) (rank y)
  | Some Eq => rank x = rank y
  | Some Gt => lex_lt (rank y) (rank x)
  | None => False
  end.
Proof.
  destruct x as [sx|sx| |sx mx ex], y as [sy|sy| |sy my ey];
    try discriminate; intros _ _; cbn [SFcompare rank];
    try (destruct sx); try (destruct sy); cbn [lex_lt]; try lia; trivial.
  - change (Pos.compare_cont Eq mx my) with (Pos.compare mx my).
    destruct (Z.compare_spec ex ey), (Pos.compare_spec mx my);
      cbn [CompOpp lex_lt]; try lia. congruence.
  - change (Pos.compare_cont Eq mx my) with (Pos.compare mx my).
    destruct (Z.compare_spec ex ey), (Pos.compare_spec mx my);
      cbn [CompOpp lex_lt]; try lia. congruence.
Qed.

Lemma lex_lt_irrefl (a : Z * Z * Z) : ~ lex_lt a a.
Proof. destruct a as [[a1 a2] a3]. cbn. lia. Qed.

Lemma lex_lt_trans (a b c : Z * Z * Z) : lex_lt a b -> lex_lt b c -> lex_lt a c.
Proof.
  destruct a as [[a1 a2] a3], b as [[b1 b2] b3], c as [[c1 c2] c3]. cbn. lia.
Qed.

Lemma lex_le_trans (a b c : Z * Z * Z) : lex_le a b -> lex_le b c -> lex_le a c.
Proof.
  intros [H1| ->] [H2| ->]; unfold lex_le; eauto using lex_lt_trans.
Qed.

Lemma lex_lt_asym (a b : Z * Z * Z) : lex_lt a b -> ~ lex_lt b a.
Proof. intros H1 H2. exact (lex_lt_irrefl a (lex_lt_trans _ _ _ H1 H2)). Qed.

Lemma num_le_rank (x y : number) :
  is_nan x = false -> is_nan y = false ->
  (num_le x y = true <-> lex_le (rank x) (rank y)).
Proof.
  intros Hx Hy. pose proof (compare_rank x y Hx Hy) as H.
  pose proof (lex_lt_irrefl (rank x)) as Hirr.
  pose proof (lex_lt_asym (rank x) (rank y)) as Hasym.
  unfold num_le, SFleb, lex_le.
  destruct (SFcompare x y) as [[| |]|]; try tauto.
  - split; [discriminate|]. intros [H1|H1]; [tauto|].
    rewrite H1 in H. now apply lex_lt_irrefl in H.
Qed.

Lemma num_lt_rank (x y : number) :
  is_nan x = false -> is_nan y = false ->
  (num_lt x y = true <-> lex_lt (rank x) (rank y)).
Proof.
  intros Hx Hy. pose proof (compare_rank x y Hx Hy) as H.
  pose proof (lex_lt_irrefl (rank x)) as Hirr.
  pose proof (lex_lt_asym (rank x) (rank y)) as Hasym.
  unfold num_lt, SFltb.
  destruct (SFcompare x y) as [[| |]|]; try tauto.
  - split; [discriminate|]. rewrite H. intros C. now apply lex_lt_irrefl in C.
  - split; [discriminate|]. tauto.
Qed.

Lemma num_le_trans (x y z : number) :
  is_nan x = false -> is_nan y = false -> is_nan z = false ->
  num_le x y = true -> num_le y z = true -> num_le x z = true.
Proof.
  intros Hx Hy Hz. rewrite !num_le_rank by assumption. apply lex_le_trans.
Qed.

Lemma num_lt_le (x y : number) : num_lt x y = true -> num_le x y = true.
Proof.
  unfold num_lt, num_le, SFltb, SFleb. now destruct (SFcompare x y) as [[| |]|].
Qed.

(** The order is total away from NaN. *)
Lemma num_not_lt_le (x y : number) :
  is_nan x = false -> is_nan y = false ->
  num_lt x y = false -> num_le y x = true.
Proof.
  intros Hx Hy H. apply num_le_rank; trivial.
  pose proof (compare_rank x y Hx Hy) as C.
  unfold num_lt, SFltb in H. unfold lex_le.
  destruct (SFcompare x y) as [[| |]|]; try discriminate; auto. destruct C.
Qed.

Lemma finite_not_nan (x : number) : Number_isFinite x = true -> is_nan x = false.
Proof. now destruct x. Qed.

Lemma num_le_refl (x : number) : is_nan x = false -> num_le x x = true.
Proof. intros H. apply num_le_rank; trivial. now right. Qed.

(* ================================================================== *)
(** * [Math.max] and [Math.min] *)
(* ================================================================== *)

Lemma max_step_cases (h x : number) :
  is_nan h = false -> is_nan x = false ->
  (max_step h x = h \/ max_step h x = x)
  /\ num_le h (max_step h x) = true /\ num_le x (max_step h x) = true.
Proof.
  intros Hh Hx. unfold max_step. rewrite Hh, Hx. cbn [orb].
  assert ((if num_lt h x then x else h) = h \/ (if num_lt h x then x else h) = x)
    as Hc by (destruct (num_lt h x); auto).
  assert (num_le h (if num_lt h x then x else h) = true
          /\ num_le x (if num_lt h x then x else h) = true) as Ho.
  { destruct (num_lt h x) eqn:E.
    - split; [now apply num_lt_le | now apply num_le_refl].
    - split; [now apply num_le_refl | now apply num_not_lt_le]. }
  destruct h as [[|]| | |]; try (split; assumption);
    destruct x as [[|]| | |]; try (split; assumption).
  split; auto.
Qed.

Lemma min_step_cases (l x : number) :
  is_nan l = false -> is_nan x = false ->
  (min_step l x = l \/ min_step l x = x)
  /\ num_le (min_step l x) l = true /\ num_le (min_step l x) x = true.
Proof.
  intros Hl Hx. unfold min_step. rewrite Hl, Hx. cbn [orb].
  assert ((if num_lt x l then x else l) = l \/ (if num_lt x l then x else l) = x)
    as Hc by (destruct (num_lt x l); auto).
  assert (num_le (if num_lt x l then x else l) l = true
          /\ num_le (if num_lt x l then x else l) x = true) as Ho.
  { destruct (num_lt x l) eqn:E.
    - split; [now apply num_lt_le | now apply num_le_refl].
    - split; [now apply num_le_refl | now apply num_not_lt_le]. }
  destruct l as [[|]| | |]; try (split; assumption);
    destruct x as [[|]| | |]; try (split; assumption).
  split; auto.
Qed.





Lemma finite_values_finite (rows : list row) (field : string) :
  all_finite (finite_values rows field).
Proof.
  intros v Hv. unfold finite_values in Hv. apply in_drop_null in Hv.
  destruct Hv as (r & _ & Hr).
  destruct (Number_isFinite (to_number (get r field))) eqn:E; congruence.
Qed.

(* ================================================================== *)
(** * Histogram *)
(* ================================================================== *)

Lemma update_nth_length {A : Type} (n : nat) (f : A -> A) (l : list A) :
  List.length (update_nth n f l) = List.length l.
Proof.
  revert n. induction l as [|a l IH]; intros [|n]; simpl; auto.
Qed.

Lemma map_update_nth {A B : Type} (g : A -> B) (f : A -> A) (f' : B -> B)
  (n : nat) (l : list A) :
  (forall a, In a l -> g (f a) = f' (g a)) ->
  map g (update_nth n f l) = update_nth n f' (map g l).
Proof.
  revert n. induction l as [|a l IH]; intros [|n] H; simpl; trivial.
  - f_equal. apply H. now left.
  - f_equal. apply IH. intros b Hb. apply H. now right.
Qed.

Lemma drop_null_length {A : Type} (l : list (option A)) :
  (List.length (drop_null l) <= List.length l)%nat.
Proof. induction l as [|[a|] l IH]; simpl; lia. Qed.

Lemma finite_values_length (rows : list row) (field : string) :
  (List.length (finite_values rows field) <= List.length rows)%nat.
Proof.
  unfold finite_values.
  etransitivity; [apply drop_null_length|]. now rewrite length_map.
Qed.

(** An increment that does not throw went to a bin of the list. *)
Lemma increment_inv (data data' : list HistogramBin) (idx : number) :
  increment data idx = Normal data' ->
  exists i, array_index idx = Some i
            /\ (N.to_nat i < List.length data)%nat
            /\ data' = update_nth (N.to_nat i) bump_count data.
Proof.
  unfold increment. destruct (array_index idx) as [i|]; [|discriminate].
  destruct (nth_error data (N.to_nat i)) eqn:E; [|discriminate].
  intros [= <-]. exists i. repeat split.
  apply nth_error_Some. congruence.
Qed.

Lemma count_values_inv (mn mx B : number) (values : list number) :
  forall data data',
    count_values mn mx B values data = Normal data' ->
    List.length data' = List.length data
    /\ forall v, In v values ->
         exists i, array_index (bin_index mn mx B v) = Some i
                   /\ (N.to_nat i < List.length data)%nat.
Proof.
  induction values as [|v values IH]; intros data data' H; cbn [count_values] in H.
  - injection H as <-. split; [reflexivity | intros v []].
  - destruct (increment data (bin_index mn mx B v)) as [data1|] eqn:E; [|discriminate].
    apply increment_inv in E. destruct E as (i & Hi & Hlt & ->).
    apply IH in H. rewrite update_nth_length in H. destruct H as [Hlen Hall].
    split; [exact Hlen|]. intros w [<-|Hw]; [now exists i | now apply Hall].
Qed.

Lemma Array_from_inv {A : Type} (n : N) (f : N -> A) (l : list A) :
  Array_from n f = Normal l ->
  (n <= 4294967295)%N /\ List.length l = N.to_nat n
  /\ l = map (fun i => f (N.of_nat i)) (seq 0 (N.to_nat n)).
Proof.
  unfold Array_from. destruct (4294967295 <? n)%N eqn:E; [discriminate|].
  apply N.ltb_ge in E. intros [= <-]. repeat split; trivial.
  now rewrite length_map, length_seq.
Qed.

(** What a call that returns bins went through. *)
Lemma buildHistogramData_inv (rows : list row) (field : string) (bins : N)
  (data : list HistogramBin) :
  buildHistogramData rows field bins = Normal data -> data <> [] ->
  let values := finite_values rows field in
  let mn := Math_min values in
  let mx := Math_max values in
  values <> []
  /\ exists data0,
       Array_from bins
         (make_bin mn mx (num_div (num_sub mx mn) (of_N bins)) (of_N bins))
       = Normal data0
       /\ count_values mn mx (of_N bins) values data0 = Normal data.
Proof.
  intros H Hne. cbv zeta. unfold buildHistogramData in H.
  destruct rows as [|r rows]; [injection H as <-; congruence|].
  destruct (falsy (Some field)); [injection H as <-; congruence|].
  destruct (finite_values (r :: rows) field) as [|v values] eqn:Ev;
    [injection H as <-; congruence|].
  cbv zeta in H.
  destruct (negb (Number_isFinite (Math_min (v :: values)))
            || negb (Number_isFinite (Math_max (v :: values)))
            || num_eq (Math_min (v :: values)) (Math_max (v :: values)));
    [injection H as <-; congruence|].
  destruct (Array_from bins _) as [data0|] eqn:Ea; [|discriminate].
  split; [discriminate|]. now exists data0.
Qed.

Lemma sum_N_update (n : nat) (cs : list N) :
  (n < List.length cs)%nat ->
  sum_N (update_nth n N.succ cs) = (sum_N cs + 1)%N.
Proof.
  revert n. induction cs as [|c cs IH]; intros [|n] H; simpl in *; try lia.
  rewrite IH by lia. lia.
Qed.

Lemma sum_N_bound (c : N) (cs : list N) : In c cs -> (c <= sum_N cs)%N.
Proof.
  induction cs as [|a cs IH]; simpl; [intros []|].
  intros [->|H]; [lia|]. specialize (IH H). lia.
Qed.

Lemma nth_error_update_nth {A : Type} (n j : nat) (f : A -> A) (l : list A) :
  nth_error (update_nth n f l) j
  = if Nat.eqb n j then option_map f (nth_error l j) else nth_error l j.
Proof.
  revert n j. induction l as [|a l IH]; intros [|n] [|j]; cbn; trivial;
    try (now destruct (Nat.eqb n j)); try apply IH.
Qed.

(** The counts are numbers of naturals; each value counted adds one to
    their sum and to the count of the bin it is assigned to, as long as
    the sum stays below [2^53]. *)
Lemma count_values_counts (mn mx B : number) (values : list number) :
  forall data data' cs,
    map count data = map of_N cs ->
    (sum_N cs + N.of_nat (List.length values) < 2 ^ 53)%N ->
    count_values mn mx B values data = Normal data' ->
    exists cs', map count data' = map of_N cs'
                /\ sum_N cs' = (sum_N cs + N.of_nat (List.length values))%N
                /\ forall j c,
                     nth_error cs j = Some c ->
                     nth_error cs' j
                     = Some (c + N.of_nat
                                   (List.length
                                      (filter (assigned_to mn mx B (N.of_nat j))
                                         values)))%N.
Proof.
  induction values as [|v values IH]; intros data data' cs Hcs Hb H;
    cbn [count_values] in H.
  - injection H as <-. exists cs. split; [exact Hcs|].
    split; [simpl; lia|]. intros j c Hj. cbn. now rewrite N.add_0_r.
  - destruct (increment data (bin_index mn mx B v)) as [data1|] eqn:E; [|discriminate].
    apply increment_inv in E. destruct E as (i & Hi & Hlt & ->).
    assert (List.length cs = List.length data) as Hlen.
    { rewrite <- (length_map of_N cs), <- Hcs. apply length_map. }
    cbn [List.length] in Hb. rewrite Nat2N.inj_succ in Hb.
    destruct (IH (update_nth (N.to_nat i) bump_count data) data'
                (update_nth (N.to_nat i) N.succ cs)) as (cs' & H1 & H2 & H3); trivial.
    + rewrite (map_update_nth count bump_count (fun x => num_add x num_one))
        by reflexivity.
      rewrite Hcs. symmetry. apply map_update_nth. intros c Hc.
      rewrite <- N.add_1_r. symmetry. apply of_N_succ.
      pose proof (sum_N_bound c cs Hc). lia.
    + rewrite sum_N_update by lia. lia.
    + exists cs'. split; [exact H1|]. split.
      * rewrite H2, sum_N_update by lia. cbn [List.length]. lia.
      * intros j c Hj. cbn [filter]. unfold assigned_to at 1. rewrite Hi.
        specialize (H3 j). rewrite nth_error_update_nth, Hj in H3.
        destruct (N.eqb i (N.of_nat j)) eqn:Eij.
        -- apply N.eqb_eq in Eij. subst i. rewrite Nat2N.id, Nat.eqb_refl in H3.
           rewrite (H3 _ eq_refl). cbn [List.length]. f_equal. lia.
        -- apply N.eqb_neq in Eij.
           assert (Nat.eqb (N.to_nat i) j = false) as Enat.
           { apply Nat.eqb_neq. intros <-. apply Eij. now rewrite N2Nat.id. }
           rewrite Enat in H3. exact (H3 _ eq_refl).
Qed.

Lemma fresh_bins_counts (mn mx step B : number) (l : list nat) :
  map count (map (fun i => make_bin mn mx step B (N.of_nat i)) l)
  = map of_N (map (fun _ => 0%N) l)
  /\ sum_N (map (fun _ => 0%N) l) = 0%N.
Proof.
  induction l as [|a l [IH1 IH2]]; [split; reflexivity|].
  split; [|exact IH2]. cbn [map]. f_equal. exact IH1.
Qed.

(** C2 (as the code has it): when the histogram returns bins, their
    counts are natural numbers whose sum is the number of finite values of
    the field; with the default of 8 bins or any other bin count, for a
    dataset of fewer than [2^53] rows (the counters are numbers, exact in
    that range). *)
Theorem C2_histogram_total (rows : list row) (field : string) (bins : N)
  (data : list HistogramBin) :
  (N.of_nat (List.length rows) < 2 ^ 53)%N ->
  buildHistogramData rows field bins = Normal data ->
  data <> [] ->
  exists cs : list N,
    map count data = map of_N cs
    /\ sum_N cs = N.of_nat (List.length (finite_values rows field)).
Proof.
  intros Hrows H Hne.
  destruct (buildHistogramData_inv rows field bins data H Hne)
    as (_ & data0 & Ha & Hc).
  apply Array_from_inv in Ha. destruct Ha as (_ & _ & ->).
  destruct (fresh_bins_counts
              (Math_min (finite_values rows field))
              (Math_max (finite_values rows field))
              (num_div (num_sub (Math_max (finite_values rows field))
                          (Math_min (finite_values rows field))) (of_N bins))
              (of_N bins) (seq 0 (N.to_nat bins))) as [Hz Hs].
  assert (sum_N (map (fun _ => 0%N) (seq 0 (N.to_nat bins)))
          + N.of_nat (List.length (finite_values rows field)) < 2 ^ 53)%N
    as Hbound.
  { rewrite Hs. pose proof (finite_values_length rows field). lia. }
  destruct (count_values_counts _ _ _ _ _ _ _ Hz Hbound Hc)
    as (cs & H1 & H2 & _).
  exists cs. split; [exact H1|]. rewrite H2, Hs. lia.
Qed.

(** X19: each bin counts the values that are assigned to it. *)
Lemma histogram_bin_counts (rows : list row) (field : string) (bins : N)
  (data : list HistogramBin) (j : nat) (b : HistogramBin) :
  (N.of_nat (List.length rows) < 2 ^ 53)%N ->
  buildHistogramData rows field bins = Normal data ->
  nth_error data j = Some b ->
  let values := finite_values rows field in
  count b
  = of_N (N.of_nat
            (List.length
               (filter (assigned_to (Math_min values) (Math_max values)
                          (of_N bins) (N.of_nat j))
                  values))).
Proof.
  intros Hrows H Hj values.
  assert (data <> []) as Hne by (intros ->; now destruct j).
  destruct (buildHistogramData_inv rows field bins data H Hne)
    as (_ & data0 & Ha & Hc).
  apply Array_from_inv in Ha. destruct Ha as (_ & _ & ->).
  destruct (fresh_bins_counts
              (Math_min values) (Math_max values)
              (num_div (num_sub (Math_max values) (Math_min values)) (of_N bins))
              (of_N bins) (seq 0 (N.to_nat bins))) as [Hz Hs].
  assert (sum_N (map (fun _ => 0%N) (seq 0 (N.to_nat bins)))
          + N.of_nat (List.length values) < 2 ^ 53)%N as Hbound.
  { rewrite Hs. pose proof (finite_values_length rows field).
    fold values in H0. lia. }
  destruct (count_values_counts _ _ _ _ _ _ _ Hz Hbound Hc)
    as (cs & H1 & _ & H3).
  assert (nth_error (map count data) j = Some (count b)) as Hb
      by (now apply map_nth_error).
  rewrite H1 in Hb.
  assert (List.length data
          = List.length (map (fun _ => 0%N) (seq 0 (N.to_nat bins)))) as Hlen.
  { apply count_values_inv in Hc. destruct Hc as [Hc _].
    now rewrite Hc, !length_map. }
  destruct (nth_error (map (fun _ => 0%N) (seq 0 (N.to_nat bins))) j)
    as [c|] eqn:Ec.
  - assert (c = 0%N) as ->.
    { apply nth_error_In in Ec. apply in_map_iff in Ec.
      now destruct Ec as (x & <- & _). }
    rewrite (map_nth_error of_N j cs (H3 j 0%N Ec)) in Hb.
    injection Hb as <-. reflexivity.
  - apply nth_error_None in Ec. rewrite <- Hlen in Ec.
    assert (j < List.length data)%nat by (apply nth_error_Some; congruence).
    lia.
Qed.

(** When the range [max - min] overflows, the index of the maximum is
    NaN and the call throws. *)
Example histogram_overflow :
  buildHistogramData rows_overflow "x" default_bins = Throw TypeError.
Proof. vm_compute. reflexivity. Qed.

Lemma C2_histogram_total_witness :
  exists cs : list N,
    map count
      (match buildHistogramData rows_hist "m" default_bins with
       | Normal data => data
       | Throw _ => []
       end) = map of_N cs
    /\ sum_N cs = 3%N.
Proof.
  destruct (buildHistogramData rows_hist "m" default_bins) as [data|e] eqn:E;
    [|vm_compute in E; discriminate].
  apply (C2_histogram_total rows_hist "m" default_bins data).
  - vm_compute. reflexivity.
  - exact E.
  - vm_compute in E. injection E as <-. discriminate.
Defined.



(* ================================================================== *)
(** * The sign of a credit *)
(* ================================================================== *)

Lemma shr_1_nonneg (mrs : shr_record) : 0 <= shr_m mrs -> 0 <= shr_m (shr_1 mrs).
Proof.
  destruct mrs as [m r s]. cbn [shr_m]. intros H.
  destruct m as [|[p|p|]|p]; cbn; lia.
Qed.

Lemma shr_nonneg (mrs : shr_record) (e n : Z) :
  0 <= shr_m mrs -> 0 <= shr_m (fst (shr mrs e n)).
Proof.
  intros H. unfold shr. destruct n as [|p|p]; cbn [fst]; trivial.
  rewrite iter_pos_nat. induction (Pos.to_nat p) as [|k IH]; [exact H|].
  cbn [Nat.iter nat_rect]. now apply shr_1_nonneg.
Qed.

Lemma shr_fexp_nonneg (m e : Z) (l : location) :
  0 <= m -> 0 <= shr_m (fst (shr_fexp prec emax m e l)).
Proof.
  intros H. unfold shr_fexp. apply shr_nonneg.
  now destruct l as [|[| |]].
Qed.

(** Rounding a mantissa that is not negative, with the sign [false], gives
    zero, a positive number or plus infinity. *)
Lemma round_aux_nonneg (m e : Z) (l : location) :
  0 <= m -> nonnegative (binary_round_aux prec emax false m e l) = true.
Proof.
  intros H. unfold binary_round_aux.
  pose proof (shr_fexp_nonneg m e l H) as H1.
  destruct (shr_fexp prec emax m e l) as [mrs' e']. cbn [fst] in H1.
  assert (0 <= round_nearest_even (shr_m mrs') (loc_of_shr_record mrs')) as H2.
  { unfold round_nearest_even.
    destruct (loc_of_shr_record mrs') as [|[| |]]; try lia.
    destruct (Z.even (shr_m mrs')); lia. }
  pose proof (shr_fexp_nonneg _ e' loc_Exact H2) as H3.
  destruct (shr_fexp prec emax _ e' loc_Exact) as [mrs'' e'']. cbn [fst] in H3.
  destruct (shr_m mrs'') as [|q|q]; [reflexivity | | lia].
  now destruct (e'' <=? emax - prec).
Qed.

Lemma of_decimal_nonneg (m e : Z) :
  0 <= m -> nonnegative (of_decimal false m e) = true.
Proof.
  intros H. unfold of_decimal. destruct m as [|p|p]; [reflexivity | | lia].
  destruct (0 <=? e).
  - destruct (310 <? e); [reflexivity|].
    unfold binary_round.
    destruct (shl_align _ 0 _) as [mz ez]. now apply round_aux_nonneg.
  - destruct (Z.log2 (Zpos p) / 3 + 1 + e <? -330); [reflexivity|].
    assert (0 <= fst (fst (SFdiv_core_binary prec emax (Zpos p) 0 (10 ^ (- e)) 0)))
      as Hq.
    { unfold SFdiv_core_binary. cbv zeta.
      set (m' := match _ with Z0 => Zpos p | Zpos _ => _ | Zneg _ => 0 end).
      assert (0 <= m') as Hm'.
      { unfold m'. destruct (0 - 0 - _) as [|t|t]; try lia.
        apply Z.shiftl_nonneg. lia. }
      destruct (Z.div_eucl m' (10 ^ (- e))) as [q r] eqn:E. cbn [fst].
      assert (q = m' / 10 ^ (- e)) as -> by (unfold Z.div; now rewrite E).
      destruct (Z_lt_le_dec 0 (10 ^ (- e))) as [Hpos|Hneg].
      - apply Z.div_pos; lia.
      - assert (10 ^ (- e) = 0) as ->.
        { pose proof (Z.pow_nonneg 10 (- e)). lia. }
        now rewrite Z.div_0_r. }
    destruct (SFdiv_core_binary prec emax (Zpos p) 0 (10 ^ (- e)) 0) as [[q ez] l].
    cbn [fst] in Hq. now apply round_aux_nonneg.
Qed.

Lemma digits_value_nonneg (s : string) (acc : Z) :
  0 <= acc -> 0 <= digits_value acc s.
Proof.
  revert acc. induction s as [|c s IH]; intros acc H; cbn [digits_value]; trivial.
  apply IH. lia.
Qed.

Lemma span_head (p : ascii -> bool) (s a b : string) (c : ascii) :
  span p s = (String c a, b) -> p c = true.
Proof.
  destruct s as [|c' s]; cbn [span]; [discriminate|].
  destruct (p c') eqn:E; [|discriminate].
  destruct (span p s). now intros [= <- _ _].
Qed.

Lemma digit_facts (c : ascii) :
  is_digit c = true ->
  is_space c = false /\ Ascii.eqb c "+" = false /\ Ascii.eqb c "-" = false
  /\ Ascii.eqb c "I" = false.
Proof.
  destruct c as [[] [] [] [] [] [] [] []]; try discriminate; now repeat split.
Qed.

(** [parseFloat] of a text that starts with a digit is not negative and
    not NaN. *)
Lemma parseFloat_digit (c : ascii) (r : string) :
  is_digit c = true -> nonnegative (parseFloat (String c r)) = true.
Proof.
  intros Hc. destruct (digit_facts c Hc) as (Hsp & Hplus & Hminus & HI).
  unfold parseFloat. cbn [skip_space]. rewrite Hsp.
  unfold read_decimal.
  assert (read_sign (String c r) = (false, String c r)) as ->.
  { unfold read_sign.
    destruct c as [[] [] [] [] [] [] [] []]; try discriminate; reflexivity. }
  assert (starts_with "Infinity" (String c r) = false) as ->.
  { cbn [starts_with]. rewrite Ascii.eqb_sym, HI. reflexivity. }
  cbn [span]. rewrite Hc. destruct (span is_digit r) as [a b].
  destruct (match b with
            | String "." t => span is_digit t
            | _ => (EmptyString, b)
            end) as [fp r2].
  cbn [append]. destruct (read_exponent r2) as [ex r3].
  apply of_decimal_nonneg. apply digits_value_nonneg. lia.
Qed.

Lemma read_number_token_digit (s tok rest : string) :
  read_number_token s = Some (tok, rest) ->
  exists c r, tok = String c r /\ is_digit c = true.
Proof.
  unfold read_number_token.
  destruct (span is_digit s) as [ip r1] eqn:E.
  destruct ip as [|c ip]; [discriminate|].
  apply span_head in E.
  destruct r1 as [|c1 t]; [intros [= <- _]; eauto|].
  destruct c1 as [[] [] [] [] [] [] [] []];
    try (intros [= <- _]; eauto; fail).
  destruct (span is_digit t) as [fp r2]. destruct fp; intros [= <- _]; eauto.
Qed.

Lemma paren_match_digit (s tok : string) :
  paren_match s = Some tok -> exists c r, tok = String c r /\ is_digit c = true.
Proof.
  induction s as [|a s IH]; cbn [paren_match]; [discriminate|].
  destruct (Ascii.eqb a "("); [|exact IH].
  destruct (read_number_token s) as [[t rest]|] eqn:E; [|exact IH].
  destruct rest as [|c rest]; [exact IH|].
  destruct c as [[] [] [] [] [] [] [] []]; try exact IH.
  intros [= <-]. now apply read_number_token_digit in E.
Qed.

Lemma trailing_match_digit (s tok : string) :
  trailing_match s = Some tok -> exists c r, tok = String c r /\ is_digit c = true.
Proof.
  induction s as [|a s IH]; cbn [trailing_match]; [discriminate|].
  destruct (read_number_token (String a s)) as [[t rest]|] eqn:E; [|exact IH].
  destruct (all_space rest); [|exact IH].
  intros [= <-]. now apply read_number_token_digit in E.
Qed.

Lemma parse_credit_nonneg (k : string) (c : number) :
  parse_credit k = Some c -> nonnegative c = true.
Proof.
  unfold parse_credit.
  destruct (paren_match k) as [tok|] eqn:E1.
  - intros [= <-]. apply paren_match_digit in E1.
    destruct E1 as (a & r & -> & Ha). now apply parseFloat_digit.
  - destruct (trailing_match k) as [tok|] eqn:E2; [|discriminate].
    intros [= <-]. apply trailing_match_digit in E2.
    destruct E2 as (a & r & -> & Ha). now apply parseFloat_digit.
Qed.

(** C6 (as the code has it): a credit that is not none is a number that
    is not negative and not NaN; it can be zero. *)
Theorem C6_credit_nonnegative (rows : list row) (textFields : list string)
  (d : FieldDescriptor) (c : number) :
  In d (extractSubjectFields rows textFields) ->
  credit d = Some c ->
  nonnegative c = true.
Proof.
  intros Hd Hc. apply in_extractSubjectFields in Hd.
  apply subject_of_Some in Hd. destruct Hd as (_ & _ & _ & _ & Hd).
  rewrite Hd in Hc. cbn [credit] in Hc.
  now apply (parse_credit_nonneg (key d)).
Qed.

Lemma C6_credit_nonnegative_witness : nonnegative (of_Z 3) = true.
Proof.
  apply (C6_credit_nonnegative rows_C5a []
           {| key := "Physics (3.0) Lab 2";
              label := "Physics (3.0) Lab 2";
              credit := Some (of_Z 3) |}).
  - vm_compute. left. reflexivity.
  - reflexivity.
Defined.

(** C6, counterexample: the header ["Math (0)"] gives the credit 0, which
    is not greater than 0. *)
Lemma C6_counterexample :
  map (fun d => (key d, credit d)) (App_subjectFields rows_C6)
  = [("Math (0)", Some num_zero)]
  /\ num_lt num_zero num_zero = false
  /\ ~ (forall d c, In d (App_subjectFields rows_C6) ->
                    credit d = Some c -> num_lt num_zero c = true).
Proof.
  split; [vm_compute; reflexivity|]. split; [reflexivity|].
  intros H.
  specialize (H {| key := "Math (0)"; label := "Math (0)";
                   credit := Some num_zero |} num_zero).
  assert (num_lt num_zero num_zero = true) as C; [|discriminate C].
  apply H; [vm_compute; now left | reflexivity].
Qed.

(* ================================================================== *)
(** * The scenario of the specification *)
(* ================================================================== *)

Example scenario_fields :
  App_idField rows_scenario = Some "Reg"
  /\ App_primaryNumericField rows_scenario = Some "CGPA"
  /\ map key (App_subjectFields rows_scenario) = ["Physics_1"]
  /\ summary rows_scenario (App_primaryNumericField rows_scenario)
     = {| totalStudents := 2;
          avgScore := Some (parseFloat "3.67");
          maxScore := Some (parseFloat "3.67");
          minScore := Some (parseFloat "3.67") |}.
Proof. repeat split; vm_compute; reflexivity. Qed.

(* ================================================================== *)
(** * Subject extractor: the columns that survive *)
(* ================================================================== *)

Lemma scan_column_Some_true (rows : list row) (k : string) (seen : bool) :
  scan_column rows k seen = Some true <->
  (forall r, In r rows ->
     is_blank (get r k) = true \/ Number_isFinite (to_number (get r k)) = true)
  /\ (seen = true
      \/ exists r, In r rows /\ is_blank (get r k) = false
                   /\ Number_isFinite (to_number (get r k)) = true).
Proof.
  revert seen. induction rows as [|a rows IH]; intros seen; cbn [scan_column].
  - split.
    + intros [= ->]. split; [intros r []|now left].
    + intros [_ [->|(r & [] & _)]]. reflexivity.
  - destruct (is_blank (get a k)) eqn:Hb.
    + rewrite IH. split.
      * intros [Hall Hex]. split.
        -- intros r [<-|Hr]; [now left | now apply Hall].
        -- destruct Hex as [->|(r & Hr & H1 & H2)]; [now left|].
           right. exists r. repeat split; trivial. now right.
      * intros [Hall Hex]. split.
        -- intros r Hr. apply Hall. now right.
        -- destruct Hex as [->|(r & [<-|Hr] & H1 & H2)]; [now left|congruence|].
           right. now exists r.
    + destruct (Number_isFinite (to_number (get a k))) eqn:Hf.
      * rewrite IH. split.
        -- intros [Hall _]. split.
           ++ intros r [<-|Hr]; [now right | now apply Hall].
           ++ right. exists a. repeat split; trivial. now left.
        -- intros [Hall _]. split; [|now left].
           intros r Hr. apply Hall. now right.
      * split; [discriminate|]. intros [Hall _].
        destruct (Hall a (or_introl eq_refl)); congruence.
Qed.

Lemma subject_of_complete (rows : list row) (textSet : list string)
  (k : string) :
  list_includes textSet (toLowerCase k) = false ->
  test_any id_like (toLowerCase k) = false ->
  test_any aggregate_like (toLowerCase k) = false ->
  scan_column rows k false = Some true ->
  subject_of rows textSet k
  = Some {| key := k; label := prettyKey k; credit := parse_credit k |}.
Proof.
  intros H1 H2 H3 H4. unfold subject_of. now rewrite H1, H2, H3, H4.
Qed.

(** What holds of the key of a subject field. *)
Lemma subject_key_facts (rows : list row) (textFields : list string)
  (k : string) :
  In k (map key (extractSubjectFields rows textFields)) ->
  In k (columns rows)
  /\ ~ In (toLowerCase k) (map toLowerCase textFields)
  /\ test_any id_like (toLowerCase k) = false
  /\ test_any aggregate_like (toLowerCase k) = false
  /\ (forall r, In r rows ->
        is_blank (get r k) = true
        \/ Number_isFinite (to_number (get r k)) = true)
  /\ (exists r, In r rows /\ is_blank (get r k) = false
                /\ Number_isFinite (to_number (get r k)) = true).
Proof.
  rewrite in_map_iff. intros (d & <- & Hd).
  assert (In (key d) (columns rows)) as Hcol.
  { unfold extractSubjectFields in Hd. destruct rows as [|first rest]; [destruct Hd|].
    apply in_drop_null in Hd. destruct Hd as (k' & Hk' & Hs).
    apply subject_of_Some in Hs. destruct Hs as (_ & _ & _ & _ & ->). exact Hk'. }
  apply in_extractSubjectFields in Hd. apply subject_of_Some in Hd.
  destruct Hd as (H1 & H2 & H3 & H4 & _).
  apply scan_column_Some_true in H4. destruct H4 as [Hall [Hex|Hex]]; [discriminate|].
  repeat split; trivial.
  intros Hin. apply list_includes_In in Hin. congruence.
Qed.

(** X1: the subject fields are exactly the columns of the first row that are
    not text fields (by lowercase name), have no identifier or aggregate
    token in their lowercase name, hold a finite number wherever they are
    not blank, and are not blank everywhere. *)
Theorem subject_keys_characterized (rows : list row)
  (textFields : list string) (k : string) :
  In k (map key (extractSubjectFields rows textFields)) <->
  In k (columns rows)
  /\ ~ In (toLowerCase k) (map toLowerCase textFields)
  /\ test_any id_like (toLowerCase k) = false
  /\ test_any aggregate_like (toLowerCase k) = false
  /\ (forall r, In r rows ->
        is_blank (get r k) = true
        \/ Number_isFinite (to_number (get r k)) = true)
  /\ (exists r, In r rows /\ is_blank (get r k) = false
                /\ Number_isFinite (to_number (get r k)) = true).
Proof.
  split; [apply subject_key_facts|].
  intros (Hcol & Htext & Hid & Hagg & Hall & Hex).
  apply in_map_iff.
  exists {| key := k; label := prettyKey k; credit := parse_credit k |}.
  split; [reflexivity|].
  unfold extractSubjectFields. destruct rows as [|first rest]; [destruct Hcol|].
  apply in_drop_null. exists k. split; [exact Hcol|].
  apply subject_of_complete; trivial.
  - apply not_true_is_false. intros E. apply list_includes_In in E. tauto.
  - apply scan_column_Some_true. split; [exact Hall | now right].
Qed.

Lemma subject_keys_characterized_witness :
  In "Physics_1"
    (map key (extractSubjectFields rows_scenario (detectTextFields rows_scenario))).
Proof.
  apply (proj2 (subject_keys_characterized rows_scenario
                  (detectTextFields rows_scenario) "Physics_1")).
  split; [vm_compute; tauto|].
  split; [vm_compute; intros [H|[H|[H|[]]]]; discriminate H|].
  split; [reflexivity|]. split; [reflexivity|]. split.
  - intros r [<-|[<-|[]]]; right; reflexivity.
  - eexists. split; [left; reflexivity|]. split; reflexivity.
Defined.

Lemma detectTextFields_columns (rows : list row) (k : string) :
  In k (detectTextFields rows) -> In k (columns rows).
Proof.
  destruct rows as [|sample rest]; [intros []|]. cbn [columns detectTextFields].
  intros H. now apply filter_In in H.
Qed.

Lemma detectNumericFields_columns (rows : list row) (k : string) :
  In k (detectNumericFields rows) -> In k (columns rows).
Proof.
  destruct rows as [|sample rest]; [intros []|]. cbn [columns detectNumericFields].
  intros H. now apply filter_In in H.
Qed.

(** X2: a subject field that is not blank in the first row is also a numeric
    field. *)
Theorem subject_with_first_value_is_numeric (rows : list row)
  (textFields : list string) (first : row) (rest : list row) (k : string) :
  rows = first :: rest ->
  In k (map key (extractSubjectFields rows textFields)) ->
  is_blank (get first k) = false ->
  In k (detectNumericFields rows).
Proof.
  intros -> Hk Hb. apply subject_key_facts in Hk.
  destruct Hk as (Hcol & _ & _ & _ & Hall & _).
  unfold detectNumericFields. apply filter_In. split; [exact Hcol|].
  destruct (Hall first (or_introl eq_refl)); congruence.
Qed.

Lemma subject_with_first_value_is_numeric_witness :
  In "Physics_1" (detectNumericFields rows_scenario).
Proof.
  eapply (subject_with_first_value_is_numeric rows_scenario
            (detectTextFields rows_scenario)).
  - reflexivity.
  - vm_compute. left. reflexivity.
  - reflexivity.
Defined.

(* ================================================================== *)
(** * Primary text field *)
(* ================================================================== *)

Lemma toLowerCase_append (x y : string) :
  toLowerCase (x ++ y) = toLowerCase x ++ toLowerCase y.
Proof.
  unfold toLowerCase. induction x as [|a x IH]; simpl; [reflexivity|].
  now rewrite IH.
Qed.

Lemma starts_with_before_space (c x y : string) :
  space_free c = true ->
  starts_with c (x ++ String " " y) = starts_with c x.
Proof.
  revert c. induction x as [|b x IH]; intros c Hc.
  - destruct c as [|a c]; [reflexivity|]. simpl in *.
    apply andb_prop in Hc. destruct Hc as [Ha _].
    now destruct (Ascii.eqb a " "%char).
  - destruct c as [|a c]; [reflexivity|]. simpl in *.
    apply andb_prop in Hc. destruct Hc as [_ Hc]. now rewrite IH.
Qed.

(** A token without a space occurs in two strings joined by a space only
    when it occurs in one of them. *)
Lemma includes_across_space (c x y : string) :
  space_free c = true -> c <> "" ->
  includes (x ++ String " " y) c = includes x c || includes y c.
Proof.
  intros Hc Hne. induction x as [|b x IH].
  - change ("" ++ String " " y) with (String " " y).
    destruct c as [|a c]; [congruence|]. simpl in Hc.
    apply andb_prop in Hc. destruct Hc as [Ha _].
    cbn [includes starts_with].
    destruct (Ascii.eqb a " "%char); [discriminate|]. reflexivity.
  - change (String b x ++ String " " y) with (String b (x ++ String " " y)).
    cbn [includes]. rewrite IH.
    change (String b (x ++ String " " y)) with (String b x ++ String " " y).
    rewrite (starts_with_before_space c (String b x) y Hc).
    now rewrite !orb_assoc.
Qed.

Lemma includes_joined (c : string) (l : list string) :
  space_free c = true -> c <> "" ->
  includes (toLowerCase (join " " l)) c
  = existsb (fun f => includes (toLowerCase f) c) l.
Proof.
  intros Hc Hne. induction l as [|x l IH].
  - destruct c; [congruence|reflexivity].
  - destruct l as [|y l].
    + cbn [join existsb]. now rewrite orb_false_r.
    + change (join " " (x :: y :: l)) with (x ++ String " " (join " " (y :: l))).
      rewrite toLowerCase_append.
      change (toLowerCase (String " " (join " " (y :: l))))
        with (String " " (toLowerCase (join " " (y :: l)))).
      rewrite includes_across_space by assumption.
      rewrite IH. reflexivity.
Qed.

Lemma text_candidates_tokens (c : string) :
  In c text_candidates -> space_free c = true /\ c <> "".
Proof.
  unfold text_candidates. simpl.
  intros H; repeat (destruct H as [<-|H]; [now split|]); destruct H.
Qed.

Lemma existsb_matches (c : string) (l : list string) :
  existsb (fun f => includes (toLowerCase f) c) l = true <->
  exists k, In k l /\ matches_token c k = true.
Proof. apply existsb_exists. Qed.

Lemma find_ext_in {A : Type} (p q : A -> bool) (l : list A) :
  (forall x, In x l -> p x = q x) -> find p l = find q l.
Proof.
  induction l as [|a l IH]; intros H; simpl; [reflexivity|].
  rewrite (H a (or_introl eq_refl)). destruct (q a); [reflexivity|].
  apply IH. intros x Hx. apply H. now right.
Qed.

Lemma primaryTextField_found (textFields : list string) :
  find (fun c => includes (toLowerCase (join " " textFields)) c) text_candidates
  = find (fun c => existsb (fun f => includes (toLowerCase f) c) textFields)
      text_candidates.
Proof.
  apply find_ext_in. intros c Hc. apply text_candidates_tokens in Hc.
  now apply includes_joined.
Qed.

Lemma truthy_match (cand k : string) :
  cand <> "" -> matches_token cand k = true -> falsy (Some k) = false.
Proof.
  intros Hne Hm.
  assert (k <> "") as Hk.
  { apply toLowerCase_nonempty. eapply includes_nonempty; eauto. }
  destruct k; [easy|reflexivity].
Qed.

(** X3: the candidate tokens name, student, candidate are tried in this
    order; although the test is made on the names joined by spaces, a
    token matches only when one text field contains it (case-insensitive),
    and the primary text field is then the first text field containing
    the first matching token.  When no token matches it is the first text
    field, or none when that is missing or empty. *)
Theorem primaryTextField_selects (textFields : list string) :
  (forall pre cand post,
      text_candidates = (pre ++ cand :: post)%list ->
      (exists k, In k textFields /\ matches_token cand k = true) ->
      (forall c k, In c pre -> In k textFields -> matches_token c k = false) ->
      exists before k after,
        textFields = (before ++ k :: after)%list
        /\ matches_token cand k = true
        /\ (forall k', In k' before -> matches_token cand k' = false)
        /\ primaryTextField textFields = Some k)
  /\ ((forall c k, In c text_candidates -> In k textFields ->
                   matches_token c k = false) ->
      primaryTextField textFields = or_null (hd_error textFields)).
Proof.
  split.
  - intros pre cand post Hsplit Hsome Hpre.
    assert (find (fun c => existsb (fun f => includes (toLowerCase f) c) textFields)
              text_candidates = Some cand) as Hfind.
    { apply find_first. exists pre, post. split; [exact Hsplit|]. split.
      - now apply existsb_matches.
      - intros c Hc. apply not_true_is_false. intros E.
        apply existsb_matches in E. destruct E as (k & Hk & Hm).
        rewrite (Hpre c k Hc Hk) in Hm. discriminate. }
    assert (cand <> "") as Hne.
    { apply text_candidates_tokens. rewrite Hsplit. apply in_elt. }
    destruct (find (fun k => matches_token cand k) textFields) as [k|] eqn:Hk.
    + pose proof Hk as Hk'. apply find_first in Hk'.
      destruct Hk' as (before & after & Ho & Hm & Hb).
      exists before, k, after. repeat split; trivial.
      unfold primaryTextField. cbv zeta.
      rewrite primaryTextField_found, Hfind.
      assert (falsy (Some cand) = false) as -> by (destruct cand; [easy|reflexivity]).
      unfold matches_token in Hk. rewrite Hk.
      pose proof (truthy_match cand k Hne Hm) as Hf.
      unfold js_or. rewrite Hf. unfold or_null. now rewrite Hf.
    + destruct Hsome as (k & Hin & Hm).
      rewrite find_none_iff in Hk. rewrite (Hk k Hin) in Hm. discriminate.
  - intros Hnone. unfold primaryTextField. cbv zeta.
    rewrite primaryTextField_found.
    assert (find (fun c => existsb (fun f => includes (toLowerCase f) c) textFields)
              text_candidates = None) as ->; [|reflexivity].
    apply find_none_iff. intros c Hc. apply not_true_is_false. intros E.
    apply existsb_matches in E. destruct E as (k & Hk & Hm).
    rewrite (Hnone c k Hc Hk) in Hm. discriminate.
Qed.

Lemma primaryTextField_selects_witness :
  primaryTextField ["na"; "me"] = Some "na".
Proof.
  rewrite (proj2 (primaryTextField_selects ["na"; "me"])); [reflexivity|].
  intros c k Hc [<-|[<-|[]]];
    repeat (destruct Hc as [<-|Hc]; [reflexivity|]); destruct Hc.
Defined.

(* ================================================================== *)
(** * The selected fields are columns *)
(* ================================================================== *)

Lemma in_or_null (s : option string) (k : string) :
  or_null s = Some k -> s = Some k.
Proof. unfold or_null. destruct (falsy s); [discriminate|trivial]. Qed.

Lemma in_js_or (a b : option string) (k : string) :
  js_or a b = Some k -> a = Some k \/ b = Some k.
Proof. unfold js_or. destruct (falsy a); auto. Qed.

Lemma hd_error_In {A : Type} (l : list A) (x : A) :
  hd_error l = Some x -> In x l.
Proof. destruct l; simpl; [discriminate|]. intros [= ->]. now left. Qed.

Lemma idField_in_order (rows : list row) (textFields : list string) (k : string) :
  idField rows textFields = Some k -> In k (search_order rows textFields).
Proof.
  unfold idField. fold (search_order rows textFields). cbv zeta.
  destruct (falsy _); [discriminate|].
  destruct (find _ id_candidates) as [cand|]; [|discriminate].
  intros H. apply in_or_null in H. apply find_some in H. tauto.
Qed.

Lemma primaryTextField_in (textFields : list string) (k : string) :
  primaryTextField textFields = Some k -> In k textFields.
Proof.
  unfold primaryTextField. cbv zeta. destruct (falsy _).
  - intros H. apply in_or_null in H. now apply hd_error_In.
  - destruct (find _ text_candidates) as [c|]; [|discriminate].
    intros H. apply in_or_null, in_js_or in H. destruct H as [H|H].
    + apply find_some in H. tauto.
    + now apply hd_error_In.
Qed.

Lemma subject_key_column (rows : list row) (textFields : list string)
  (d : FieldDescriptor) :
  In d (extractSubjectFields rows textFields) -> In (key d) (columns rows).
Proof.
  intros Hd. unfold extractSubjectFields in Hd.
  destruct rows as [|first rest]; [destruct Hd|].
  apply in_drop_null in Hd. destruct Hd as (k' & Hk' & Hs).
  apply subject_of_Some in Hs. destruct Hs as (_ & _ & _ & _ & ->). exact Hk'.
Qed.

Lemma primaryNumericField_in (numericFields : list string)
  (subjectFields : list FieldDescriptor) (k : string) :
  primaryNumericField numericFields subjectFields = Some k ->
  In k numericFields \/ In k (map key subjectFields).
Proof.
  unfold primaryNumericField. destruct numericFields as [|first rest]; [discriminate|].
  cbv zeta. destruct (findIndex _ _) as [i|].
  - intros H. left. eapply nth_error_In; eauto.
  - destruct subjectFields as [|s r]; intros [= <-]; [left|right]; now left.
Qed.

Lemma App_primaryNumericField_column (rows : list row) (k : string) :
  App_primaryNumericField rows = Some k -> In k (columns rows).
Proof.
  intros H. apply primaryNumericField_in in H. destruct H as [H|H].
  - now apply detectNumericFields_columns.
  - apply in_map_iff in H. destruct H as (d & <- & Hd).
    eapply subject_key_column; eauto.
Qed.

Lemma App_defaultMetricKey_column (rows : list row) (k : string) :
  App_defaultMetricKey rows = Some k -> In k (columns rows).
Proof.
  intros H. unfold App_defaultMetricKey, defaultMetricKey in H.
  apply in_or_null, in_js_or in H.
  destruct H as [H|H]; [now apply App_primaryNumericField_column|].
  destruct (App_subjectFields rows) as [|s r] eqn:E; [discriminate|].
  injection H as <-. apply (subject_key_column rows (App_textFields rows)).
  unfold App_subjectFields in E. rewrite E. now left.
Qed.

(** X4: whatever identifier field, primary text field, primary numeric field
    or default metric the component derives from the rows is the name of
    a column of the first row. *)
Theorem selected_fields_are_columns (rows : list row) (k : string) :
  (App_idField rows = Some k -> In k (columns rows))
  /\ (App_primaryTextField rows = Some k -> In k (columns rows))
  /\ (App_primaryNumericField rows = Some k -> In k (columns rows))
  /\ (App_defaultMetricKey rows = Some k -> In k (columns rows)).
Proof.
  split; [|split; [|split]].
  - intros H. apply idField_in_order in H. unfold search_order in H.
    apply in_app_or in H. destruct H as [H|H].
    + now apply detectTextFields_columns.
    + apply filter_In in H. exact (proj1 H).
  - intros H. apply primaryTextField_in in H. now apply detectTextFields_columns.
  - apply App_primaryNumericField_column.
  - apply App_defaultMetricKey_column.
Qed.

Lemma selected_fields_are_columns_witness :
  In "Reg" (columns rows_scenario) /\ In "Name" (columns rows_scenario)
  /\ In "CGPA" (columns rows_scenario).
Proof.
  split; [|split].
  - apply (proj1 (selected_fields_are_columns rows_scenario "Reg")). reflexivity.
  - apply (proj1 (proj2 (selected_fields_are_columns rows_scenario "Name"))).
    reflexivity.
  - apply (proj1 (proj2 (proj2 (selected_fields_are_columns rows_scenario "CGPA")))).
    reflexivity.
Defined.

(* ================================================================== *)
(** * Default metric and charted metrics *)
(* ================================================================== *)

Lemma primaryNumericField_some (numericFields : list string)
  (subjectFields : list FieldDescriptor) :
  numericFields <> [] ->
  exists k, primaryNumericField numericFields subjectFields = Some k.
Proof.
  intros Hne. unfold primaryNumericField.
  destruct numericFields as [|first rest]; [congruence|]. cbv zeta.
  pose proof (findIndex_nth toLowerCase
                (fun f => existsb (fun p => includes f p) preferred)
                (first :: rest)) as H.
  destruct (findIndex _ _) as [i|].
  - destruct H as (a & Ha & _). now exists a.
  - destruct subjectFields; eauto.
Qed.

Lemma falsy_column (rows : list row) (k : string) :
  ~ In "" (columns rows) -> In k (columns rows) -> falsy (Some k) = false.
Proof. intros H Hk. destruct k; [tauto|reflexivity]. Qed.

(** X5: when no column of the first row has the empty name, there is no
    default metric exactly when there is neither a numeric field nor a
    subject field; and with no metric toggled the charts and the metric
    filter use the default metric. *)
Theorem default_metric_exists (rows : list row) :
  ~ In "" (columns rows) ->
  (App_defaultMetricKey rows = None <->
   App_numericFields rows = [] /\ App_subjectFields rows = [])
  /\ (forall k, App_defaultMetricKey rows = Some k ->
        chartMetricKeys [] (App_defaultMetricKey rows) = [k]
        /\ filterMetricKey (chartMetricKeys [] (App_defaultMetricKey rows))
           = Some k).
Proof.
  intros Hcol. split.
  - unfold App_defaultMetricKey, defaultMetricKey, App_primaryNumericField.
    split.
    + intros H.
      destruct (App_numericFields rows) as [|n0 nr] eqn:En.
      * split; [reflexivity|]. cbn in H.
        destruct (App_subjectFields rows) as [|s r] eqn:Es; [reflexivity|].
        cbn in H. unfold or_null in H.
        rewrite (falsy_column rows (key s)) in H; [discriminate|exact Hcol|].
        apply (subject_key_column rows (App_textFields rows)).
        unfold App_subjectFields in Es. rewrite Es. now left.
      * destruct (primaryNumericField_some (n0 :: nr) (App_subjectFields rows))
          as (k & Hk); [discriminate|].
        rewrite Hk in H.
        assert (falsy (Some k) = false) as Hf.
        { apply (falsy_column rows); [exact Hcol|].
          apply App_primaryNumericField_column.
          unfold App_primaryNumericField. now rewrite En. }
        unfold js_or in H. rewrite Hf in H. unfold or_null in H.
        rewrite Hf in H. discriminate.
    + intros [-> ->]. reflexivity.
  - intros k Hk. rewrite Hk.
    assert (falsy (Some k) = false) as Hf.
    { apply (falsy_column rows); [exact Hcol|].
      now apply App_defaultMetricKey_column. }
    unfold chartMetricKeys. rewrite Hf. unfold filterMetricKey, or_null.
    cbn [hd_error]. now rewrite Hf.
Qed.

Lemma default_metric_exists_witness :
  chartMetricKeys [] (App_defaultMetricKey rows_scenario) = ["CGPA"]
  /\ filterMetricKey (chartMetricKeys [] (App_defaultMetricKey rows_scenario))
     = Some "CGPA".
Proof.
  apply (fun H => proj2 (default_metric_exists rows_scenario H)).
  - vm_compute. intros [H|[H|[H|[H|[H|[]]]]]]; discriminate H.
  - reflexivity.
Defined.

(* ================================================================== *)
(** * Metric options *)
(* ================================================================== *)

Lemma add_subject_options (subjects : list FieldDescriptor)
  (options : list MetricOption) (seen : list string) :
  seen = map option_key options ->
  NoDup seen ->
  let result := fold_left add_subject_option subjects (options, seen) in
  snd result = map option_key (fst result)
  /\ NoDup (snd result)
  /\ (forall k, In k (snd result) <->
        In k seen \/ (In k (map key subjects) /\ isIdLike k = false)).
Proof.
  revert options seen. induction subjects as [|s subjects IH];
    intros options seen Hseen Hnd; cbv zeta; cbn [fold_left].
  - cbn. repeat split; trivial; [tauto|]. intros [H|[[] _]]. exact H.
  - change (add_subject_option (options, seen) s)
      with (if negb (list_includes seen (key s)) && negb (isIdLike (key s))
            then ((options ++ [{| option_key := key s; option_label := label s |}])%list,
                  (seen ++ [key s])%list)
            else (options, seen)).
    destruct (list_includes seen (key s)) eqn:Hin; cbn [negb andb].
    + destruct (IH options seen Hseen Hnd) as (H1 & H2 & H3).
      split; [exact H1|]. split; [exact H2|]. intros k. rewrite H3.
      cbn [map In]. apply list_includes_In in Hin. split; [tauto|].
      intros [H|[[<-|H] Hid]]; auto.
    + destruct (isIdLike (key s)) eqn:Hid; cbn [negb].
      * destruct (IH options seen Hseen Hnd) as (H1 & H2 & H3).
        split; [exact H1|]. split; [exact H2|]. intros k. rewrite H3.
        cbn [map In]. split; [tauto|].
        intros [H|[[<-|H] Hk]]; auto. congruence.
      * assert (~ In (key s) seen) as Hnot.
        { intros E. apply list_includes_In in E. congruence. }
        destruct (IH (options ++ [{| option_key := key s; option_label := label s |}])%list
                    (seen ++ [key s])%list) as (H1 & H2 & H3).
        -- rewrite map_app, Hseen. reflexivity.
        -- apply NoDup_app; [exact Hnd | repeat constructor; intros [] | ].
           intros x Hx [<-|[]]. tauto.
        -- split; [exact H1|]. split; [exact H2|]. intros k. rewrite H3.
           rewrite in_app_iff. cbn [map In]. split.
           ++ intros [[H|[<-|[]]]|[H Hk]]; auto.
           ++ intros [H|[[<-|H] Hk]]; auto.
Qed.

(** The state of the loop of [metricOptions] at its end. *)
Lemma metricOptions_state (primaryNumericField : option string)
  (subjectFields : list FieldDescriptor) :
  exists seen,
    seen = map option_key (metricOptions primaryNumericField subjectFields)
    /\ NoDup seen
    /\ forall k, In k seen <->
         isIdLike k = false
         /\ ((primaryNumericField = Some k /\ k <> "")
             \/ In k (map key subjectFields)).
Proof.
  unfold metricOptions.
  set (start := match primaryNumericField with
                | Some k => if negb (falsy primaryNumericField) && negb (isIdLike k)
                            then ([{| option_key := k; option_label := metricLabel k |}], [k])
                            else ([], [])
                | None => ([], [])
                end).
  assert (snd start = map option_key (fst start) /\ NoDup (snd start)
          /\ forall k, In k (snd start) <->
                       isIdLike k = false /\ primaryNumericField = Some k /\ k <> "")
    as (Hs1 & Hs2 & Hs3).
  { subst start. destruct primaryNumericField as [p|].
    - destruct (falsy (Some p)) eqn:Hf; cbn [negb andb].
      + split; [reflexivity|]. split; [constructor|]. intros k. split; [intros []|].
        intros (_ & E & Hne). injection E as ->. destruct k; [congruence|discriminate].
      + destruct (isIdLike p) eqn:Hid; cbn [negb fst snd map].
        * split; [reflexivity|]. split; [constructor|]. intros k. split; [intros []|].
          intros (Hk & E & _). injection E as ->. congruence.
        * split; [reflexivity|]. split; [constructor; [intros []|constructor]|].
          intros k. split.
          -- intros [<-|[]]. split; [exact Hid|]. split; [reflexivity|].
             intros ->. discriminate.
          -- intros (_ & E & _). injection E as ->. now left.
    - split; [reflexivity|]. split; [constructor|]. intros k. split; [intros []|].
      intros (_ & E & _). discriminate. }
  destruct start as [options seen]. cbn [fst snd] in *.
  destruct (add_subject_options subjectFields options seen Hs1 Hs2)
    as (H1 & H2 & H3).
  exists (snd (fold_left add_subject_option subjectFields (options, seen))).
  split; [exact H1|]. split; [exact H2|]. intros k. rewrite H3, Hs3. tauto.
Qed.

(** X6: the metric options have pairwise distinct keys; a name is offered
    exactly when it has no identifier token in its lowercase form and is
    the non-empty primary numeric field or the key of a subject field. *)
Theorem metricOptions_keys (primaryNumericField : option string)
  (subjectFields : list FieldDescriptor) :
  NoDup (map option_key (metricOptions primaryNumericField subjectFields))
  /\ forall k,
       In k (map option_key (metricOptions primaryNumericField subjectFields))
       <-> isIdLike k = false
           /\ ((primaryNumericField = Some k /\ k <> "")
               \/ In k (map key subjectFields)).
Proof.
  destruct (metricOptions_state primaryNumericField subjectFields)
    as (seen & Hseen & Hnd & Hin).
  rewrite <- Hseen. split; [exact Hnd|exact Hin].
Qed.

Lemma metricOptions_keys_witness :
  In "Physics_1"
    (map option_key (metricOptions (Some "CGPA") (App_subjectFields rows_scenario))).
Proof.
  apply (proj2 (metricOptions_keys (Some "CGPA") (App_subjectFields rows_scenario))).
  split; [reflexivity|]. right. vm_compute. now left.
Defined.

(** X7: every subject field the extractor finds is offered as a metric: the
    identifier test of the options never rejects one. *)
Theorem every_subject_is_offered (rows : list row) (k : string) :
  In k (map key (App_subjectFields rows)) ->
  In k (map option_key (App_metricOptions rows)).
Proof.
  intros Hk. unfold App_metricOptions.
  destruct (metricOptions_state (App_primaryNumericField rows)
              (App_subjectFields rows)) as (seen & Hseen & _ & Hin).
  rewrite <- Hseen. apply Hin. split; [|now right].
  apply subject_key_facts in Hk. unfold isIdLike. tauto.
Qed.

Lemma every_subject_is_offered_witness :
  In "Physics_1" (map option_key (App_metricOptions rows_scenario)).
Proof.
  apply (every_subject_is_offered rows_scenario). vm_compute. now left.
Defined.

(* ================================================================== *)
(** * Toggling a metric *)
(* ================================================================== *)

Lemma toggle_metric_In (k x : string) (current : list string) :
  In x (toggle_metric k current) <->
  (x = k /\ ~ In k current) \/ (x <> k /\ In x current).
Proof.
  unfold toggle_metric. destruct (list_includes current k) eqn:Hin.
  - apply list_includes_In in Hin. rewrite filter_In. split.
    + intros [Hx Hne]. right. split; [|exact Hx].
      intros ->. now rewrite String.eqb_refl in Hne.
    + intros [[_ H]|[Hne Hx]]; [tauto|]. split; [exact Hx|].
      apply negb_true_iff. now apply String.eqb_neq.
  - assert (~ In k current) as Hnot.
    { intros E. apply list_includes_In in E. congruence. }
    rewrite in_app_iff. cbn [In]. split.
    + intros [Hx|[<-|[]]]; [right|left]; split; trivial. intros ->. tauto.
    + intros [[-> _]|[_ Hx]]; auto.
Qed.

Lemma filter_all {A : Type} (p : A -> bool) (l : list A) :
  (forall x, In x l -> p x = true) -> filter p l = l.
Proof.
  induction l as [|a l IH]; intros H; simpl; [reflexivity|].
  rewrite (H a (or_introl eq_refl)). f_equal. apply IH. intros x Hx. apply H. now right.
Qed.

(** X8: toggling a metric flips its membership in the active list and leaves
    the other metrics as they are; a duplicate-free list stays
    duplicate-free; toggling a metric that was not active twice restores
    the list. *)
Theorem toggle_metric_flips (k : string) (current : list string) :
  (forall x, In x (toggle_metric k current) <->
             (x = k /\ ~ In k current) \/ (x <> k /\ In x current))
  /\ (NoDup current -> NoDup (toggle_metric k current))
  /\ (~ In k current -> toggle_metric k (toggle_metric k current) = current).
Proof.
  split; [intros x; apply toggle_metric_In|]. split.
  - intros Hnd. unfold toggle_metric. destruct (list_includes current k) eqn:Hin.
    + now apply NoDup_filter.
    + apply NoDup_app; [exact Hnd | repeat constructor; intros [] |].
      intros x Hx [<-|[]]. apply list_includes_In in Hx. congruence.
  - intros Hnot. unfold toggle_metric.
    assert (list_includes current k = false) as ->.
    { apply not_true_is_false. intros E. now apply list_includes_In in E. }
    assert (list_includes (current ++ [k])%list k = true) as ->.
    { apply list_includes_In. apply in_app_iff. right. now left. }
    rewrite filter_app. cbn [filter]. rewrite String.eqb_refl. cbn [negb].
    rewrite app_nil_r. apply filter_all. intros x Hx.
    apply negb_true_iff, String.eqb_neq. intros ->. tauto.
Qed.

Lemma toggle_metric_flips_witness :
  NoDup (toggle_metric "CGPA" ["Math"; "CGPA"])
  /\ toggle_metric "CGPA" (toggle_metric "CGPA" ["Math"]) = ["Math"].
Proof.
  split.
  - apply (proj1 (proj2 (toggle_metric_flips "CGPA" ["Math"; "CGPA"]))).
    repeat constructor; cbn; intros H; repeat (destruct H as [H|H]; [discriminate H|]);
      destruct H.
  - apply (proj2 (proj2 (toggle_metric_flips "CGPA" ["Math"]))).
    intros [H|[]]. discriminate H.
Defined.

(* ================================================================== *)
(** * Listed rows *)
(* ================================================================== *)

Lemma falsy_eqb (s : string) : falsy (Some s) = String.eqb s "".
Proof. now destruct s. Qed.

Lemma filter_twice {A : Type} (p q : A -> bool) (l : list A) :
  filter q (filter p l) = filter (fun x => p x && q x) l.
Proof.
  induction l as [|a l IH]; simpl; [reflexivity|].
  destruct (p a); simpl; [destruct (q a)|]; now rewrite IH.
Qed.

Lemma filter_true {A : Type} (l : list A) : filter (fun _ => true) l = l.
Proof. apply filter_all. reflexivity. Qed.

Lemma filter_ext_all {A : Type} (p q : A -> bool) (l : list A) :
  (forall x, p x = q x) -> filter p l = filter q l.
Proof. intros H. apply filter_ext_in. intros x _. apply H. Qed.

Lemma filteredRows_filter (rows : list row) (search : string)
  (onlyWithMetric : bool) (filterMetricKey : option string) :
  filteredRows rows search onlyWithMetric filterMetricKey
  = filter (shown search onlyWithMetric filterMetricKey) rows.
Proof.
  unfold filteredRows, shown. cbv zeta. rewrite falsy_eqb.
  destruct filterMetricKey as [k|].
  - destruct onlyWithMetric; cbn [andb negb orb].
    + destruct (falsy (Some k)); cbn [negb orb].
      * destruct (String.eqb (trim search) ""); cbn [orb andb].
        -- symmetry. apply filter_true.
        -- reflexivity.
      * destruct (String.eqb (trim search) ""); cbn [orb].
        -- apply filter_ext_all. intros x. now rewrite andb_true_r.
        -- apply filter_twice.
    + destruct (String.eqb (trim search) ""); cbn [orb andb].
      * symmetry. apply filter_true.
      * reflexivity.
  - rewrite orb_true_r.
    destruct (String.eqb (trim search) ""); cbn [orb andb].
    + symmetry. apply filter_true.
    + reflexivity.
Qed.

Lemma filter_idempotent {A : Type} (p : A -> bool) (l : list A) :
  filter p (filter p l) = filter p l.
Proof.
  rewrite filter_twice. apply filter_ext_all. intros x. now destruct (p x).
Qed.

(** X10: the listed rows are the rows that pass one test, in their order: the
    metric test (a non-blank finite value of the filter metric) when the
    toggle is on and a filter metric exists, and the search test (some
    cell's lowercase text contains the lowercase query) when the query is
    not blank.  Filtering the listed rows again changes nothing. *)
Theorem filteredRows_is_a_filter (rows : list row) (search : string)
  (onlyWithMetric : bool) (filterMetricKey : option string) :
  filteredRows rows search onlyWithMetric filterMetricKey
  = filter (shown search onlyWithMetric filterMetricKey) rows
  /\ filteredRows (filteredRows rows search onlyWithMetric filterMetricKey)
       search onlyWithMetric filterMetricKey
     = filteredRows rows search onlyWithMetric filterMetricKey.
Proof.
  split; [apply filteredRows_filter|].
  rewrite !filteredRows_filter. apply filter_idempotent.
Qed.

Lemma lower_char_space (c : ascii) : is_space (lower_char c) = is_space c.
Proof. destruct c as [[] [] [] [] [] [] [] []]; reflexivity. Qed.

Lemma lower_char_idempotent (c : ascii) :
  lower_char (lower_char c) = lower_char c.
Proof. destruct c as [[] [] [] [] [] [] [] []]; reflexivity. Qed.

Lemma toLowerCase_idempotent (s : string) :
  toLowerCase (toLowerCase s) = toLowerCase s.
Proof.
  unfold toLowerCase. induction s as [|c s IH]; simpl; [reflexivity|].
  now rewrite lower_char_idempotent, IH.
Qed.

Lemma all_space_toLowerCase (s : string) :
  all_space (toLowerCase s) = all_space s.
Proof.
  unfold toLowerCase. induction s as [|c s IH]; simpl; [reflexivity|].
  now rewrite lower_char_space, IH.
Qed.

Lemma all_space_skip_space (s : string) : all_space (skip_space s) = all_space s.
Proof.
  induction s as [|c s IH]; [reflexivity|]. cbn [skip_space].
  destruct (is_space c) eqn:E.
  - rewrite IH. cbn [all_space]. now rewrite E.
  - reflexivity.
Qed.

(** A search text trims to the empty string exactly when it is white
    space only. *)
Lemma trim_blank (s : string) : String.eqb (trim s) "" = all_space s.
Proof.
  unfold trim. rewrite <- (all_space_skip_space s).
  destruct (skip_space s) as [|c r]; [reflexivity|].
  cbn [drop_trailing_space]. now destruct (all_space (String c r)).
Qed.

(** X11: the search ignores the case of the query: two queries with the same
    lowercase form list the same rows. *)
Theorem search_ignores_query_case (rows : list row) (search search' : string)
  (onlyWithMetric : bool) (filterMetricKey : option string) :
  toLowerCase search = toLowerCase search' ->
  filteredRows rows search onlyWithMetric filterMetricKey
  = filteredRows rows search' onlyWithMetric filterMetricKey.
Proof.
  intros H. rewrite !filteredRows_filter. apply filter_ext_all. intros r.
  unfold shown. rewrite !trim_blank, H.
  rewrite <- (all_space_toLowerCase search), <- (all_space_toLowerCase search'), H.
  reflexivity.
Qed.

Lemma search_ignores_query_case_witness :
  filteredRows rows_scenario "ALICE" false None
  = filteredRows rows_scenario "alice" false None.
Proof. apply (search_ignores_query_case rows_scenario "ALICE" "alice"). reflexivity. Defined.

(* ================================================================== *)
(** * Division never invents NaN *)
(* ================================================================== *)

Lemma round_aux_not_nan (s : bool) (m e : Z) (l : location) :
  0 <= m -> is_nan (binary_round_aux prec emax s m e l) = false.
Proof.
  intros H. unfold binary_round_aux.
  pose proof (shr_fexp_nonneg m e l H) as H1.
  destruct (shr_fexp prec emax m e l) as [mrs' e']. cbn [fst] in H1.
  assert (0 <= round_nearest_even (shr_m mrs') (loc_of_shr_record mrs')) as H2.
  { unfold round_nearest_even.
    destruct (loc_of_shr_record mrs') as [|[| |]]; try lia.
    destruct (Z.even (shr_m mrs')); lia. }
  pose proof (shr_fexp_nonneg _ e' loc_Exact H2) as H3.
  destruct (shr_fexp prec emax _ e' loc_Exact) as [mrs'' e'']. cbn [fst] in H3.
  destruct (shr_m mrs'') as [|q|q]; [reflexivity | | lia].
  now destruct (e'' <=? emax - prec)%Z.
Qed.

Lemma div_core_nonneg (m1 e1 m2 e2 : Z) :
  0 <= m1 -> 0 < m2 ->
  0 <= fst (fst (SFdiv_core_binary prec emax m1 e1 m2 e2)).
Proof.
  intros H1 H2. unfold SFdiv_core_binary. cbv zeta.
  set (m' := match _ with Z0 => m1 | Zpos _ => _ | Zneg _ => 0 end).
  assert (0 <= m') as Hm'.
  { unfold m'. destruct (_ - _ - _) as [|t|t]; try lia.
    apply Z.shiftl_nonneg. lia. }
  destruct (Z.div_eucl m' m2) as [q r] eqn:E. cbn [fst].
  assert (q = m' / m2) as -> by (unfold Z.div; now rewrite E).
  apply Z.div_pos; lia.
Qed.

(** Dividing a finite number by a number that is neither zero nor NaN
    never gives NaN. *)
Lemma div_not_nan (a m : number) :
  Number_isFinite a = true -> is_zero m = false -> is_nan m = false ->
  is_nan (num_div a m) = false.
Proof.
  intros Ha Hz Hn. unfold num_div.
  destruct a as [sa| | |sa ma ea]; try discriminate;
    destruct m as [sm|sm| |sm mm em]; try discriminate; try reflexivity.
  cbn [SFdiv].
  pose proof (div_core_nonneg (Zpos ma) ea (Zpos mm) em) as Hq.
  destruct (SFdiv_core_binary prec emax (Zpos ma) ea (Zpos mm) em) as [[q ez] l].
  cbn [fst] in Hq. apply round_aux_not_nan. apply Hq; lia.
Qed.

(* ================================================================== *)
(** * Fill level of a subject card *)
(* ================================================================== *)

Lemma clamp_unit (y : number) :
  is_nan y = false ->
  num_le num_zero (max2 num_zero (min2 num_one y)) = true
  /\ num_le (max2 num_zero (min2 num_one y)) num_one = true.
Proof.
  intros Hy. unfold max2, min2, Math_max, Math_min. cbn [fold_left].
  change (min_step (S754_infinity false) num_one) with num_one.
  change (max_step (S754_infinity true) num_zero) with num_zero.
  destruct (min_step_cases num_one y eq_refl Hy) as (Hc & H1 & _).
  assert (is_nan (min_step num_one y) = false) as Hn.
  { destruct Hc as [-> | ->]; [reflexivity|exact Hy]. }
  destruct (max_step_cases num_zero (min_step num_one y) eq_refl Hn)
    as (Hc' & H0 & _).
  split; [exact H0|].
  destruct Hc' as [-> | ->]; [reflexivity|exact H1].
Qed.

(** X16: the fill level of a subject card, when the card is drawn, is a
    number between 0 and 1, except when the cell holds a finite number and
    the lookup of the column maximum finds a member inherited from
    [Object.prototype] instead of a number: then it is NaN.  The lookup
    finds an inherited member exactly for a column named like one that is
    [__proto__] or has no recorded maximum. *)
Theorem normalized_unit_or_nan (raw : value) (maxima : object) (k : string)
  (x : number) :
  normalized raw (read_property maxima k) = Some x ->
  (read_property maxima k = Inherited <->
   In k Object_prototype_members /\ (k = "__proto__" \/ prop maxima k = None))
  /\ (read_property maxima k <> Inherited
      \/ Number_isFinite (to_number raw) = false ->
      num_le num_zero x = true /\ num_le x num_one = true)
  /\ (read_property maxima k = Inherited ->
      Number_isFinite (to_number raw) = true -> is_nan x = true).
Proof.
  intros H. split; [|split].
  - unfold read_property. destruct (String.eqb k "__proto__") eqn:E.
    + apply String.eqb_eq in E. subst k. split; [intros _|reflexivity].
      split; [|now left]. unfold Object_prototype_members. cbn [In].
      do 10 right. now left.
    + apply String.eqb_neq in E. destruct (prop maxima k) as [m|].
      * split; [discriminate|]. intros (_ & [Hk|Hn]); [tauto|discriminate].
      * destruct (list_includes Object_prototype_members k) eqn:Hin.
        -- apply list_includes_In in Hin. tauto.
        -- split; [discriminate|]. intros (Hk & _).
           apply list_includes_In in Hk. congruence.
  - intros Hcase. unfold normalized in H.
    destruct (is_blank raw); [discriminate|]. cbv zeta in H.
    injection H as <-.
    destruct (read_property maxima k) as [m| |].
    + destruct (Number_isFinite (to_number raw)) eqn:Hf; cbn [andb];
        [|split; reflexivity].
      unfold truthy_number. destruct (is_zero m) eqn:Hz; cbn [orb negb];
        [split; reflexivity|].
      destruct (is_nan m) eqn:Hn; cbn [negb]; [split; reflexivity|].
      apply clamp_unit. now apply div_not_nan.
    + destruct Hcase as [Hcase| ->]; [congruence|]. split; reflexivity.
    + split; reflexivity.
  - intros Hi Hf. unfold normalized in H.
    destruct (is_blank raw); [discriminate|]. cbv zeta in H.
    rewrite Hi, Hf in H. injection H as <-.
    assert (num_div (to_number raw) NaN = NaN) as ->
        by (unfold num_div; now destruct (to_number raw)).
    reflexivity.
Qed.

Lemma normalized_unit_or_nan_witness :
  In "toString" (map key (App_subjectFields rows_inherited))
  /\ exists x,
       normalized (get (hd [] rows_inherited) "toString")
         (read_property
            (subjectMaxMap rows_inherited (App_subjectFields rows_inherited))
            "toString") = Some x
       /\ is_nan x = true.
Proof.
  split; [vm_compute; now left|].
  exists NaN. split; [reflexivity|].
  refine (proj2 (proj2 (normalized_unit_or_nan
            (get (hd [] rows_inherited) "toString")
            (subjectMaxMap rows_inherited (App_subjectFields rows_inherited))
            "toString" NaN _)) _ _); reflexivity.
Defined.


(** The running maximum of a column, from any start that is not NaN. *)
Lemma column_max_fold (rows : list row) (k : string) (init : number) :
  is_nan init = false ->
  let m := fold_left
             (fun max r =>
                let num := to_number (get r k) in
                if Number_isFinite num && num_lt max num then num else max)
             rows init in
  is_nan m = false
  /\ num_le init m = true
  /\ (m = init
      \/ exists r, In r rows /\ to_number (get r k) = m
                   /\ Number_isFinite m = true)
  /\ forall r, In r rows -> Number_isFinite (to_number (get r k)) = true ->
               num_le (to_number (get r k)) m = true.
Proof.
  revert init. induction rows as [|a rows IH]; intros init Hinit; cbv zeta;
    cbn [fold_left].
  - split; [exact Hinit|]. split; [now apply num_le_refl|].
    split; [now left|]. intros r [].
  - destruct (Number_isFinite (to_number (get a k))) eqn:Hf; cbn [andb].
    + pose proof (finite_not_nan _ Hf) as Hna.
      destruct (num_lt init (to_number (get a k))) eqn:Hlt.
      * pose proof (IH (to_number (get a k)) Hna) as HI. cbv zeta in HI.
        destruct HI as (H1 & H2 & H3 & H4).
        split; [exact H1|]. split.
        { apply (num_le_trans init (to_number (get a k))); trivial.
          now apply num_lt_le. }
        split.
        { right. destruct H3 as [-> | (r & Hr & Hv & Hfin)].
          - exists a. split; [now left|]. now split.
          - exists r. split; [now right|]. now split. }
        intros r [<-|Hr] Hfr; [exact H2 | now apply H4].
      * pose proof (IH init Hinit) as HI. cbv zeta in HI.
      destruct HI as (H1 & H2 & H3 & H4).
        split; [exact H1|]. split; [exact H2|]. split.
        { destruct H3 as [-> | (r & Hr & Hv & Hfin)]; [now left|].
          right. exists r. split; [now right|]. now split. }
        intros r [<-|Hr] Hfr; [|now apply H4].
        apply (num_le_trans (to_number (get a k)) init); trivial.
        now apply num_not_lt_le.
    + pose proof (IH init Hinit) as HI. cbv zeta in HI.
      destruct HI as (H1 & H2 & H3 & H4).
      split; [exact H1|]. split; [exact H2|]. split.
      { destruct H3 as [-> | (r & Hr & Hv & Hfin)]; [now left|].
        right. exists r. split; [now right|]. now split. }
      intros r [<-|Hr] Hfr; [congruence | now apply H4].
Qed.

Lemma column_max_spec (rows : list row) (k : string) :
  Number_isFinite (column_max rows k) = true
  /\ num_le num_zero (column_max rows k) = true
  /\ (num_lt num_zero (column_max rows k) = true ->
      exists r, In r rows /\ to_number (get r k) = column_max rows k)
  /\ forall r, In r rows -> Number_isFinite (to_number (get r k)) = true ->
               num_le (to_number (get r k)) (column_max rows k) = true.
Proof.
  pose proof (column_max_fold rows k num_zero eq_refl) as HI. cbv zeta in HI.
  fold (column_max rows k) in HI. destruct HI as (H1 & H2 & H3 & H4).
  split; [|split; [exact H2|split; [|exact H4]]].
  - destruct H3 as [-> | (r & _ & _ & Hf)]; [reflexivity|exact Hf].
  - intros Hpos. destruct H3 as [E | (r & Hr & Hv & _)]; [|now exists r].
    rewrite E in Hpos. discriminate.
Qed.

Lemma subjectMaxMap_fold (rows : list row) (subjects : list FieldDescriptor)
  (map0 : object) (k : string) :
  prop (fold_left
          (fun map s =>
             let max := column_max rows (key s) in
             if num_lt num_zero max then set_prop map (key s) max else map)
          subjects map0) k
  = if existsb (fun s => String.eqb (key s) k) subjects
       && num_lt num_zero (column_max rows k)
    then Some (column_max rows k) else prop map0 k.
Proof.
  revert map0. induction subjects as [|s subjects IH]; intros map0;
    cbn [fold_left existsb]; [reflexivity|].
  rewrite IH. cbv zeta.
  destruct (String.eqb (key s) k) eqn:E; cbn [orb].
  - apply String.eqb_eq in E. rewrite E.
    destruct (num_lt num_zero (column_max rows k)) eqn:Hpos.
    + now rewrite andb_true_r, prop_set_prop, Tauto.if_same.
    + now rewrite !andb_false_r.
  - apply String.eqb_neq in E.
    destruct (existsb _ subjects && _); [reflexivity|].
    destruct (num_lt num_zero (column_max rows (key s))); [|reflexivity].
    now apply prop_set_prop_other.
Qed.

Lemma subjectMaxMap_prop (rows : list row) (subjects : list FieldDescriptor)
  (k : string) :
  prop (subjectMaxMap rows subjects) k
  = if existsb (fun s => String.eqb (key s) k) subjects
       && num_lt num_zero (column_max rows k)
    then Some (column_max rows k) else None.
Proof. unfold subjectMaxMap. now rewrite subjectMaxMap_fold. Qed.

(** X14: every maximum the component records for a subject is a finite number
    above zero that some row holds in that column, and no finite value of
    the column exceeds it. *)
Theorem subjectMaxMap_is_the_maximum (rows : list row)
  (subjectFields : list FieldDescriptor) (k : string) (x : number) :
  prop (subjectMaxMap rows subjectFields) k = Some x ->
  In k (map key subjectFields)
  /\ Number_isFinite x = true
  /\ num_lt num_zero x = true
  /\ (exists r, In r rows /\ to_number (get r k) = x)
  /\ forall r, In r rows -> Number_isFinite (to_number (get r k)) = true ->
               num_le (to_number (get r k)) x = true.
Proof.
  rewrite subjectMaxMap_prop.
  destruct (existsb _ subjectFields) eqn:Hex; cbn [andb]; [|discriminate].
  destruct (num_lt num_zero (column_max rows k)) eqn:Hpos; [|discriminate].
  intros [= <-].
  destruct (column_max_spec rows k) as (H1 & _ & H3 & H4).
  split.
  - apply existsb_exists in Hex. destruct Hex as (s & Hs & E).
    apply String.eqb_eq in E. subst k. now apply in_map.
  - split; [exact H1|]. split; [exact Hpos|]. split; [now apply H3|exact H4].
Qed.

Lemma subjectMaxMap_is_the_maximum_witness :
  exists r, In r rows_scenario /\ to_number (get r "Physics_1") = of_Z 78.
Proof.
  apply (subjectMaxMap_is_the_maximum rows_scenario
           (App_subjectFields rows_scenario) "Physics_1" (of_Z 78)).
  reflexivity.
Defined.



(* ================================================================== *)
(** * Initial selection *)
(* ================================================================== *)

(** X18: a selection that exists is kept.  With rows and no selection, a row
    of the dataset becomes selected: the first row whose identifier cell,
    trimmed and in lowercase, is the target registration number, when
    there is an identifier field and such a row; otherwise the first
    row. *)
Theorem select_initial_picks_a_row (rows : list row) (selectedRow : option row)
  (idField : option string) :
  (forall r, selectedRow = Some r ->
             select_initial rows selectedRow idField = Some r)
  /\ (selectedRow = None -> rows <> [] ->
      exists r, select_initial rows None idField = Some r /\ In r rows
        /\ ((exists k before after,
               idField = Some k /\ k <> ""
               /\ rows = (before ++ r :: after)%list
               /\ is_target k r = true
               /\ forall r', In r' before -> is_target k r' = false)
            \/ (hd_error rows = Some r
                /\ forall k, idField = Some k -> k <> "" ->
                     forall r', In r' rows -> is_target k r' = false))).
Proof.
  split.
  - intros r ->. now destruct rows.
  - intros _ Hne. destruct rows as [|first rest]; [congruence|].
    cbn [select_initial].
    destruct idField as [k|].
    + destruct (falsy (Some k)) eqn:Hf.
      * exists first. split; [reflexivity|]. split; [now left|]. right.
        split; [reflexivity|]. intros k' [= <-] Hk. destruct k; [congruence|discriminate].
      * destruct (find (is_target k) (first :: rest)) as [r|] eqn:Hfind.
        -- exists r. split; [reflexivity|].
           pose proof Hfind as Hfind'. apply find_first in Hfind'.
           destruct Hfind' as (before & after & Hsplit & Ht & Hb).
           split; [rewrite Hsplit; apply in_elt|]. left.
           exists k, before, after. repeat split; trivial.
           intros ->. discriminate.
        -- exists first. split; [reflexivity|]. split; [now left|]. right.
           split; [reflexivity|]. intros k' [= <-] _.
           now apply find_none_iff.
    + exists first. split; [reflexivity|]. split; [now left|]. right.
      split; [reflexivity|]. intros k' [=].
Qed.

Lemma select_initial_picks_a_row_witness :
  exists r, select_initial rows_scenario None (Some "Reg") = Some r
            /\ In r rows_scenario.
Proof.
  destruct (proj2 (select_initial_picks_a_row rows_scenario None (Some "Reg"))
              eq_refl) as (r & Hr & Hin & _).
  - discriminate.
  - exists r. now split.
Defined.

(* ================================================================== *)
(** * Histogram: the bin count at its ends *)
(* ================================================================== *)

Lemma count_values_nonempty (mn mx B : number) (values : list number)
  (data : list HistogramBin) :
  data <> [] -> count_values mn mx B values data <> Normal [].
Proof.
  intros Hne H. apply count_values_inv in H. destruct H as [H _].
  destruct data; [congruence|discriminate].
Qed.

Lemma count_values_no_bins (mn mx B : number) (values : list number) :
  values <> [] -> count_values mn mx B values [] = Throw TypeError.
Proof.
  destruct values as [|v rest]; [congruence|]. intros _.
  cbn [count_values]. unfold increment.
  destruct (array_index _) as [i|]; [|reflexivity].
  now destruct (N.to_nat i).
Qed.

(** X20: whether the call returns the empty list does not depend on a bin
    count between 1 and [2^32 - 1]: either every bin count gives the empty
    list, or no bin count in that range does, and then zero bins throw a
    [TypeError] and more than [2^32 - 1] bins throw a [RangeError]. *)
Theorem histogram_bin_count_ends (rows : list row) (field : string) :
  (forall bins, buildHistogramData rows field bins = Normal [])
  \/ ((forall bins, (1 <= bins <= 4294967295)%N ->
         buildHistogramData rows field bins <> Normal [])
      /\ buildHistogramData rows field 0 = Throw TypeError
      /\ forall bins, (4294967295 < bins)%N ->
           buildHistogramData rows field bins = Throw RangeError).
Proof.
  unfold buildHistogramData. destruct rows as [|r0 rows]; [now left|].
  destruct (falsy (Some field)); [now left|]. cbv zeta.
  destruct (finite_values (r0 :: rows) field) as [|v rest] eqn:Ev; [now left|].
  set (values := (v :: rest)%list) in *.
  destruct (negb (Number_isFinite (Math_min values))
            || negb (Number_isFinite (Math_max values))
            || num_eq (Math_min values) (Math_max values)); [now left|].
  right. split; [|split].
  - intros bins Hb. unfold Array_from.
    assert ((4294967295 <? bins)%N = false) as -> by (apply N.ltb_ge; lia).
    apply count_values_nonempty.
    destruct (N.to_nat bins) eqn:E; [lia|]. discriminate.
  - cbn [Array_from N.ltb N.compare N.to_nat seq map].
    apply count_values_no_bins. discriminate.
  - intros bins Hb. unfold Array_from.
    now assert ((4294967295 <? bins)%N = true) as -> by (apply N.ltb_lt; lia).
Qed.

(* ================================================================== *)
(** * Histogram: a single value *)
(* ================================================================== *)

Lemma num_lt_irrefl (x : number) : num_lt x x = false.
Proof.
  destruct (is_nan x) eqn:Hn.
  - now destruct x.
  - apply not_true_is_false. rewrite num_lt_rank by assumption.
    apply lex_lt_irrefl.
Qed.

Lemma max_step_same (v : number) : is_nan v = false -> max_step v v = v.
Proof.
  intros Hn. unfold max_step. rewrite Hn. cbn [orb]. rewrite num_lt_irrefl.
  now destruct v as [[|]| | |].
Qed.

Lemma min_step_same (v : number) : is_nan v = false -> min_step v v = v.
Proof.
  intros Hn. unfold min_step. rewrite Hn. cbn [orb]. rewrite num_lt_irrefl.
  now destruct v as [[|]| | |].
Qed.

Lemma fold_same (step : number -> number -> number) (v : number)
  (l : list number) :
  step v v = v -> (forall x, In x l -> x = v) -> fold_left step l v = v.
Proof.
  intros Hs. induction l as [|a l IH]; intros H; cbn [fold_left]; [reflexivity|].
  rewrite (H a (or_introl eq_refl)), Hs. apply IH. intros x Hx. apply H. now right.
Qed.

Lemma num_eq_refl (v : number) : Number_isFinite v = true -> num_eq v v = true.
Proof.
  intros Hf. pose proof (compare_rank v v (finite_not_nan v Hf) (finite_not_nan v Hf)) as H.
  pose proof (lex_lt_irrefl (rank v)) as Hirr.
  unfold num_eq, SFeqb. destruct (SFcompare v v) as [[| |]|]; tauto.
Qed.

(** X21: a field whose finite values are all the same number has no
    histogram: the call returns the empty list for every bin count, and
    never throws. *)
Theorem histogram_of_one_value (rows : list row) (field : string) (bins : N)
  (v : number) :
  (forall x, In x (finite_values rows field) -> x = v) ->
  buildHistogramData rows field bins = Normal [].
Proof.
  intros Hall. unfold buildHistogramData. destruct rows as [|r0 rows]; [reflexivity|].
  destruct (falsy (Some field)); [reflexivity|]. cbv zeta.
  pose proof (finite_values_finite (r0 :: rows) field) as Hfin.
  destruct (finite_values (r0 :: rows) field) as [|x values]; [reflexivity|].
  assert (x = v) as -> by (apply Hall; now left).
  assert (Number_isFinite v = true) as Hv by (apply Hfin; now left).
  pose proof (finite_not_nan v Hv) as Hn.
  assert (Math_min (v :: values) = v) as ->.
  { unfold Math_min. cbn [fold_left].
    assert (min_step (S754_infinity false) v = v) as ->
        by (now destruct v as [[|]|[|]| |]).
    apply fold_same; [now apply min_step_same|].
    intros y Hy. apply Hall. now right. }
  assert (Math_max (v :: values) = v) as ->.
  { unfold Math_max. cbn [fold_left].
    assert (max_step (S754_infinity true) v = v) as ->
        by (now destruct v as [[|]|[|]| |]).
    apply fold_same; [now apply max_step_same|].
    intros y Hy. apply Hall. now right. }
  now rewrite (num_eq_refl v Hv), orb_true_r.
Qed.

Lemma histogram_of_one_value_witness :
  buildHistogramData rows_C2 "x" default_bins = Normal [].
Proof.
  apply (histogram_of_one_value rows_C2 "x" default_bins (of_Z 5)).
  intros x [<-|[]]. reflexivity.
Defined.

Lemma histogram_bin_counts_witness :
  exists data b,
    buildHistogramData rows_hist "m" default_bins = Normal data
    /\ nth_error data 7 = Some b
    /\ count b = of_N 1.
Proof.
  destruct (buildHistogramData rows_hist "m" default_bins) as [data|e] eqn:E;
    [|vm_compute in E; discriminate].
  destruct (nth_error data 7) as [b|] eqn:Eb;
    [|vm_compute in E; injection E as <-; discriminate].
  exists data, b. split; [reflexivity|]. split; [exact Eb|].
  rewrite (histogram_bin_counts rows_hist "m" default_bins data 7 b);
    [|reflexivity | exact E | exact Eb].
  vm_compute in E. injection E as <-. reflexivity.
Defined.

Lemma histogram_bin_count_ends_witness :
  buildHistogramData rows_hist "m" 4294967296 = Throw RangeError.
Proof.
  destruct (histogram_bin_count_ends rows_hist "m") as [H|(_ & _ & H)].
  - specialize (H default_bins). vm_compute in H. discriminate H.
  - apply H. reflexivity.
Defined.

(* ================================================================== *)
(** * Grouped counts *)
(* ================================================================== *)

Lemma fold_record_event (m : string) (rows : list row) (bins : bin_map) :
  fold_left record_event (map (pair m) rows) bins
  = fold_left (record_row m) rows bins.
Proof.
  revert bins. induction rows as [|r rows IH]; intros bins; cbn [map fold_left];
    [reflexivity|]. apply IH.
Qed.

Lemma fold_events (rows : list row) (metrics : list string) (bins : bin_map) :
  fold_left (fun bins metricKey => fold_left (record_row metricKey) rows bins)
    metrics bins
  = fold_left record_event (events rows metrics) bins.
Proof.
  revert bins. induction metrics as [|m metrics IH]; intros bins; [reflexivity|].
  unfold events. cbn [fold_left flat_map]. rewrite fold_left_app, fold_record_event.
  apply IH.
Qed.

Lemma events_no_rows (metrics : list string) : events [] metrics = [].
Proof. induction metrics as [|m metrics IH]; [reflexivity|exact IH]. Qed.

Lemma buildGpaCountData_events (rows : list row) (metrics : list string) :
  buildGpaCountData rows metrics
  = sort_by_gpa (map snd (fold_left record_event (events rows metrics) [])).
Proof.
  unfold buildGpaCountData. destruct rows as [|r rows].
  - now rewrite events_no_rows.
  - destruct metrics as [|m metrics]; [reflexivity|]. cbv zeta.
    now rewrite fold_events.
Qed.

Lemma in_events (rows : list row) (metrics : list string) (e : string * row) :
  In e (events rows metrics) <-> In (fst e) metrics /\ In (snd e) rows.
Proof.
  unfold events. rewrite in_flat_map. split.
  - intros (m & Hm & He). apply in_map_iff in He. destruct He as (r & <- & Hr).
    now split.
  - intros [Hm Hr]. exists (fst e). split; [exact Hm|]. apply in_map_iff.
    exists (snd e). split; [now destruct e|exact Hr].
Qed.

Lemma events_length (rows : list row) (metrics : list string) :
  List.length (events rows metrics)
  = (List.length metrics * List.length rows)%nat.
Proof.
  unfold events. induction metrics as [|m metrics IH]; [reflexivity|].
  cbn [flat_map]. rewrite length_app, length_map, IH. reflexivity.
Qed.

Lemma insert_by_gpa_perm (a : object) (l : list object) :
  Permutation (insert_by_gpa a l) (a :: l).
Proof.
  induction l as [|b l IH]; cbn [insert_by_gpa]; [reflexivity|].
  destruct (num_lt _ _); [reflexivity|].
  rewrite IH. apply perm_swap.
Qed.

(** Sorting rearranges the bins and nothing else. *)
Lemma sort_by_gpa_perm (l : list object) : Permutation (sort_by_gpa l) l.
Proof.
  unfold sort_by_gpa.
  assert (forall acc, Permutation (fold_left (fun acc a => insert_by_gpa a acc) l acc)
                        (acc ++ l)%list) as H.
  { induction l as [|a l IH]; intros acc; cbn [fold_left].
    - now rewrite app_nil_r.
    - rewrite IH, insert_by_gpa_perm. apply Permutation_middle. }
  exact (H []).
Qed.

(** ** The map of bins *)

Lemma map_get_update (bins : bin_map) (k k' : string) (f : object -> object) :
  map_get (map_update bins k f) k'
  = if String.eqb k k' then option_map f (map_get bins k') else map_get bins k'.
Proof.
  induction bins as [|[k0 o] bins IH]; cbn [map_update map_get].
  - now destruct (String.eqb k k').
  - destruct (String.eqb k0 k) eqn:E0; cbn [map_get].
    + apply String.eqb_eq in E0. subst k0.
      destruct (String.eqb k k') eqn:E; reflexivity.
    + destruct (String.eqb k0 k') eqn:E1.
      * destruct (String.eqb k k') eqn:E; [|reflexivity].
        apply String.eqb_eq in E, E1. subst. now rewrite String.eqb_refl in E0.
      * exact IH.
Qed.

Lemma map_update_keys (bins : bin_map) (k : string) (f : object -> object) :
  map fst (map_update bins k f) = map fst bins.
Proof.
  induction bins as [|[k0 o] bins IH]; cbn [map_update]; [reflexivity|].
  destruct (String.eqb k0 k); cbn [map fst]; [reflexivity|now rewrite IH].
Qed.

Lemma map_get_app (bins : bin_map) (k k' : string) (o : object) :
  map_get (bins ++ [(k, o)])%list k'
  = match map_get bins k' with
    | Some x => Some x
    | None => if String.eqb k k' then Some o else None
    end.
Proof.
  induction bins as [|[k0 o0] bins IH]; cbn [app map_get]; [reflexivity|].
  destruct (String.eqb k0 k'); [reflexivity|exact IH].
Qed.

Lemma map_get_None (bins : bin_map) (k : string) :
  map_get bins k = None <-> ~ In k (map fst bins).
Proof.
  induction bins as [|[k0 o] bins IH]; cbn [map_get map fst In]; [tauto|].
  destruct (String.eqb k0 k) eqn:E.
  - apply String.eqb_eq in E. split; [discriminate|tauto].
  - apply String.eqb_neq in E. tauto.
Qed.

Lemma map_get_In (bins : bin_map) (k : string) (o : object) :
  map_get bins k = Some o -> In (k, o) bins.
Proof.
  induction bins as [|[k0 o0] bins IH]; cbn [map_get]; [discriminate|].
  destruct (String.eqb k0 k) eqn:E.
  - apply String.eqb_eq in E. intros [= ->]. left. now subst.
  - intros H. right. now apply IH.
Qed.

Lemma In_map_get (bins : bin_map) (k : string) (o : object) :
  NoDup (map fst bins) -> In (k, o) bins -> map_get bins k = Some o.
Proof.
  induction bins as [|[k0 o0] bins IH]; cbn [map fst]; intros Hnd; [intros []|].
  inversion Hnd as [|? ? Hnot Hnd']; subst. cbn [map_get].
  intros [[= -> ->]|Hin].
  - now rewrite String.eqb_refl.
  - destruct (String.eqb k0 k) eqn:E; [|now apply IH].
    apply String.eqb_eq in E. subst k0. exfalso. apply Hnot.
    apply in_map_iff. now exists (k, o).
Qed.

(** ** The counters *)

Lemma of_nat_positive (n : nat) :
  Z.of_nat (S n) < 2 ^ 53 ->
  is_zero (of_nat (S n)) = false /\ is_nan (of_nat (S n)) = false.
Proof.
  intros H. unfold of_nat.
  destruct (Z.of_nat (S n)) as [|p|p] eqn:E; [lia| |lia].
  rewrite of_Z_finite by exact H. now split.
Qed.

Lemma counter_bump (o : object) (m : string) (n : nat) :
  Z.of_nat n + 1 < 2 ^ 53 ->
  prop o m = counter n -> prop (bump o m) m = counter (n + 1).
Proof.
  intros Hb Hp. unfold bump. rewrite prop_set_prop, Hp.
  replace (n + 1)%nat with (S n) by lia. cbn [counter]. f_equal.
  destruct n as [|n]; cbn [counter].
  - reflexivity.
  - destruct (of_nat_positive n ltac:(lia)) as [-> ->]. cbn [orb].
    unfold of_nat. rewrite add_one by lia. f_equal. lia.
Qed.

Lemma hits_snoc (binKey m : string) (past : list (string * row))
  (e : string * row) :
  hits binKey m (past ++ [e])%list
  = (hits binKey m past
     + if String.eqb (fst e) m && in_bucket binKey (fst e) (snd e)
       then 1 else 0)%nat.
Proof.
  unfold hits. rewrite filter_app, length_app. cbn [filter].
  now destruct (String.eqb (fst e) m && in_bucket binKey (fst e) (snd e)).
Qed.

Lemma hits_none (binKey m : string) (past : list (string * row)) :
  (forall e, In e past -> in_bucket binKey (fst e) (snd e) = false) ->
  hits binKey m past = O.
Proof.
  intros H. unfold hits. induction past as [|e past IH]; [reflexivity|].
  cbn [filter]. rewrite (H e (or_introl eq_refl)), andb_false_r.
  apply IH. intros e' He'. apply H. now right.
Qed.

Lemma hits_le (binKey m : string) (past : list (string * row)) :
  (hits binKey m past <= List.length past)%nat.
Proof. unfold hits. apply filter_length_le. Qed.

Lemma record_row_cases (m : string) (bins : bin_map) (r : row) :
  match bucket m r with
  | None => record_row m bins r = bins
  | Some rounded =>
      record_row m bins r
      = match map_get bins (Number_toString rounded) with
        | Some _ =>
            map_update bins (Number_toString rounded) (fun bin => bump bin m)
        | None =>
            (bins ++ [(Number_toString rounded, bump [("gpa", rounded)] m)])%list
        end
  end.
Proof.
  unfold bucket, record_row. cbv zeta.
  now destruct (Number_isFinite (to_number (get r m))).
Qed.

Lemma gpa_bump (o : object) (m : string) :
  m <> "gpa" -> gpa (bump o m) = gpa o.
Proof. intros H. unfold gpa, bump. now rewrite prop_set_prop_other. Qed.

Lemma prop_bump_other (o : object) (m m' : string) :
  m <> m' -> prop (bump o m) m' = prop o m'.
Proof. intros H. unfold bump. now apply prop_set_prop_other. Qed.

Lemma in_bucket_of (k m : string) (r : row) (x : number) :
  bucket m r = Some x -> in_bucket k m r = String.eqb (Number_toString x) k.
Proof. intros H. unfold in_bucket. now rewrite H. Qed.

Lemma in_bucket_none (k m : string) (r : row) :
  bucket m r = None -> in_bucket k m r = false.
Proof. intros H. unfold in_bucket. now rewrite H. Qed.

Lemma bins_after_step (past : list (string * row)) (bins : bin_map)
  (e : string * row) :
  fst e <> "gpa" ->
  Z.of_nat (List.length past) + 1 < 2 ^ 53 ->
  bins_after past bins ->
  bins_after (past ++ [e])%list (record_event bins e).
Proof.
  destruct e as [m r]. cbn [fst]. intros Hm Hlen (I1 & I2 & I3 & I4).
  unfold record_event. cbn [fst snd].
  pose proof (record_row_cases m bins r) as Hrow.
  destruct (bucket m r) as [x|] eqn:Hb.
  - set (k0 := Number_toString x) in *.
    assert (forall k, in_bucket k m r = String.eqb k0 k) as Hin
        by (intros k; now apply in_bucket_of).
    destruct (map_get bins k0) as [o0|] eqn:Hget; rewrite Hrow; clear Hrow.
    + (* the bin exists *)
      split; [now rewrite map_update_keys|]. split; [|split].
      * intros k o. rewrite map_get_update.
        destruct (String.eqb k0 k) eqn:E.
        -- apply String.eqb_eq in E. subst k. rewrite Hget. cbn [option_map].
           intros [= <-]. destruct (I2 k0 o0 Hget) as (H1 & (e' & He' & Hbe') & H3).
           rewrite gpa_bump by exact Hm. split; [exact H1|]. split.
           ++ exists e'. split; [apply in_or_app; now left|exact Hbe'].
           ++ intros m' Hm'. rewrite hits_snoc. cbn [fst snd].
              rewrite Hin, String.eqb_refl, andb_true_r.
              destruct (String.eqb m m') eqn:Em.
              ** apply String.eqb_eq in Em. subst m'.
                 apply counter_bump; [|now apply H3].
                 pose proof (hits_le k0 m past). lia.
              ** apply String.eqb_neq in Em.
                 rewrite prop_bump_other by exact Em. rewrite Nat.add_0_r.
                 now apply H3.
        -- intros Hk. destruct (I2 k o Hk) as (H1 & (e' & He' & Hbe') & H3).
           split; [exact H1|]. split.
           ++ exists e'. split; [apply in_or_app; now left|exact Hbe'].
           ++ intros m' Hm'. rewrite hits_snoc. cbn [fst snd].
              rewrite Hin, E, andb_false_r, Nat.add_0_r. now apply H3.
      * intros k. rewrite map_get_update.
        destruct (String.eqb k0 k) eqn:E.
        -- apply String.eqb_eq in E. subst k. now rewrite Hget.
        -- intros Hk e' He'. apply in_app_or in He'.
           destruct He' as [He'|[<-|[]]]; [now apply (I3 k)|].
           cbn [fst snd]. now rewrite Hin.
      * intros e' x' He' Hbe'. rewrite map_get_update.
        destruct (String.eqb k0 (Number_toString x')) eqn:E.
        -- apply String.eqb_eq in E. rewrite <- E, Hget. discriminate.
        -- apply in_app_or in He'. destruct He' as [He'|[<-|[]]];
             [now apply (I4 e')|].
           cbn [fst snd] in Hbe'. rewrite Hb in Hbe'. injection Hbe' as <-.
           subst k0. now rewrite String.eqb_refl in E.
    + (* a new bin *)
      set (onew := bump [("gpa", x)] m).
      assert (gpa onew = x) as Hgpa.
      { unfold onew. rewrite gpa_bump by exact Hm. reflexivity. }
      split.
      { rewrite map_app. cbn [map fst]. apply NoDup_app; [exact I1| |].
        - constructor; [intros []|constructor].
        - intros k Hk [<-|[]]. now apply (map_get_None bins k0). }
      split; [|split].
      * intros k o. rewrite map_get_app.
        destruct (map_get bins k) as [o'|] eqn:Hk.
        -- intros [= <-].
           assert (String.eqb k0 k = false) as E.
           { apply String.eqb_neq. intros <-. congruence. }
           destruct (I2 k o' Hk) as (H1 & (e' & He' & Hbe') & H3).
           split; [exact H1|]. split.
           ++ exists e'. split; [apply in_or_app; now left|exact Hbe'].
           ++ intros m' Hm'. rewrite hits_snoc. cbn [fst snd].
              rewrite Hin, E, andb_false_r, Nat.add_0_r. now apply H3.
        -- destruct (String.eqb k0 k) eqn:E; [|discriminate].
           apply String.eqb_eq in E. subst k. intros [= <-].
           rewrite Hgpa. split; [reflexivity|]. split.
           ++ exists (m, r). split; [apply in_or_app; right; now left|exact Hb].
           ++ intros m' Hm'. rewrite hits_snoc. cbn [fst snd].
              rewrite Hin, String.eqb_refl, andb_true_r.
              rewrite (hits_none k0 m' past (I3 k0 Hget)).
              destruct (String.eqb m m') eqn:Em.
              ** apply String.eqb_eq in Em. subst m'.
                 apply (counter_bump [("gpa", x)] m O); [lia|].
                 cbn [prop counter]. apply String.eqb_neq in Hm.
                 rewrite String.eqb_sym in Hm. now rewrite Hm.
              ** apply String.eqb_neq in Em. unfold onew.
                 rewrite prop_bump_other by exact Em.
                 cbn [prop counter Nat.add]. apply String.eqb_neq in Hm'.
                 rewrite String.eqb_sym in Hm'. now rewrite Hm'.
      * intros k. rewrite map_get_app.
        destruct (map_get bins k) as [o'|] eqn:Hk; [discriminate|].
        destruct (String.eqb k0 k) eqn:E; [discriminate|].
        intros _ e' He'. apply in_app_or in He'.
        destruct He' as [He'|[<-|[]]]; [now apply (I3 k)|].
        cbn [fst snd]. now rewrite Hin.
      * intros e' x' He' Hbe'. rewrite map_get_app.
        apply in_app_or in He'. destruct He' as [He'|[<-|[]]].
        -- pose proof (I4 e' x' He' Hbe') as H.
           destruct (map_get bins (Number_toString x')); [discriminate|congruence].
        -- cbn [fst snd] in Hbe'. rewrite Hb in Hbe'. injection Hbe' as <-.
           fold k0. rewrite Hget, String.eqb_refl. discriminate.
  - (* the cell holds no finite number *)
    rewrite Hrow. clear Hrow.
    assert (forall k, in_bucket k m r = false) as Hin
        by (intros k; now apply in_bucket_none).
    split; [exact I1|]. split; [|split].
    + intros k o Hk. destruct (I2 k o Hk) as (H1 & (e' & He' & Hbe') & H3).
      split; [exact H1|]. split.
      * exists e'. split; [apply in_or_app; now left|exact Hbe'].
      * intros m' Hm'. rewrite hits_snoc. cbn [fst snd].
        rewrite Hin, andb_false_r, Nat.add_0_r. now apply H3.
    + intros k Hk e' He'. apply in_app_or in He'.
      destruct He' as [He'|[<-|[]]]; [now apply (I3 k)|]. apply Hin.
    + intros e' x' He' Hbe'. apply in_app_or in He'.
      destruct He' as [He'|[<-|[]]]; [now apply (I4 e')|].
      cbn [fst snd] in Hbe'. congruence.
Qed.

Lemma bins_after_fold (evs past : list (string * row)) (bins : bin_map) :
  (forall e, In e evs -> fst e <> "gpa") ->
  Z.of_nat (List.length past + List.length evs) < 2 ^ 53 ->
  bins_after past bins ->
  bins_after (past ++ evs)%list (fold_left record_event evs bins).
Proof.
  revert past bins. induction evs as [|e evs IH]; intros past bins Hm Hlen Hinv.
  - now rewrite app_nil_r.
  - cbn [fold_left].
    replace (past ++ e :: evs)%list with ((past ++ [e]) ++ evs)%list
      by (now rewrite <- app_assoc).
    cbn [List.length] in Hlen. apply IH.
    + intros e' He'. apply Hm. now right.
    + rewrite length_app. cbn [List.length]. hide_pow. lia.
    + apply bins_after_step; [apply Hm; now left | hide_pow; lia | exact Hinv].
Qed.

Lemma bins_after_nothing : bins_after [] [].
Proof.
  split; [constructor|]. split; [discriminate|]. split; [intros k _ e []|].
  intros e x [].
Qed.

Lemma bins_after_events (rows : list row) (metrics : list string) :
  ~ In "gpa" metrics ->
  Z.of_nat (List.length metrics * List.length rows) < 2 ^ 53 ->
  bins_after (events rows metrics)
    (fold_left record_event (events rows metrics) []).
Proof.
  intros Hm Hlen.
  apply (bins_after_fold (events rows metrics) [] []).
  - intros e He Heq. apply in_events in He. rewrite Heq in He. tauto.
  - cbn [List.length Nat.add]. now rewrite events_length.
  - exact bins_after_nothing.
Qed.

Lemma hits_absent (binKey m : string) (rows : list row) (metrics : list string) :
  ~ In m metrics -> hits binKey m (events rows metrics) = O.
Proof.
  intros Hm. unfold hits.
  rewrite (filter_ext_in _ (fun _ => false)); [now rewrite filter_false|].
  intros e He. apply in_events in He.
  destruct (String.eqb (fst e) m) eqn:E; [|reflexivity].
  apply String.eqb_eq in E. rewrite E in He. tauto.
Qed.

Lemma hits_one_metric (binKey m : string) (rows : list row) :
  hits binKey m (map (pair m) rows)
  = List.length (filter (in_bucket binKey m) rows).
Proof.
  unfold hits. induction rows as [|r rows IH]; [reflexivity|].
  cbn [map filter fst snd]. rewrite String.eqb_refl. cbn [andb].
  destruct (in_bucket binKey m r); cbn [List.length]; now rewrite IH.
Qed.

Lemma hits_other_metric (binKey m m' : string) (rows : list row) :
  m' <> m -> hits binKey m (map (pair m') rows) = O.
Proof.
  intros Hne. unfold hits. induction rows as [|r rows IH]; [reflexivity|].
  cbn [map filter fst snd]. apply String.eqb_neq in Hne. now rewrite Hne.
Qed.

Lemma hits_app (binKey m : string) (a b : list (string * row)) :
  hits binKey m (a ++ b)%list = (hits binKey m a + hits binKey m b)%nat.
Proof. unfold hits. now rewrite filter_app, length_app. Qed.

(** With distinct metrics, the events of a metric in a bucket are the
    rows in that bucket. *)
Lemma hits_events (binKey m : string) (rows : list row) (metrics : list string) :
  NoDup metrics -> In m metrics ->
  hits binKey m (events rows metrics)
  = List.length (filter (in_bucket binKey m) rows).
Proof.
  induction metrics as [|m' metrics IH]; intros Hnd Hin; [destruct Hin|].
  inversion Hnd as [|? ? Hnot Hnd']; subst.
  change (events rows (m' :: metrics))
    with (map (pair m') rows ++ events rows metrics)%list.
  rewrite hits_app. destruct (string_dec m' m) as [->|Hne].
  - now rewrite hits_one_metric, hits_absent, Nat.add_0_r.
  - rewrite hits_other_metric by exact Hne.
    destruct Hin as [E|Hin]; [congruence|]. now apply IH.
Qed.

Lemma bins_keys (past : list (string * row)) (bins : bin_map) :
  bins_after past bins ->
  map (fun o => Number_toString (gpa o)) (map snd bins) = map fst bins.
Proof.
  intros (I1 & I2 & _). rewrite map_map. apply map_ext_in.
  intros [k o] Hin. cbn [fst snd].
  exact (proj1 (I2 k o (In_map_get bins k o I1 Hin))).
Qed.

(** X13: the chart of metrics other than ["gpa"].  For distinct metrics, none
    of them ["gpa"] or the name of a member of [Object.prototype] (for
    which a bin reads an inherited function instead of its counter), and
    fewer than [2^53] pairs of a metric and a row:
    the chart rows print distinct bucket values; each bucket value is the
    value of some row for some metric, rounded to two decimals; every
    finite value of a metric has the chart row of its bucket; and the
    counter of a metric in a chart row is absent when no row falls in the
    bucket for that metric, and else the number of rows that do. *)
Theorem chart_counts_rows (rows : list row) (metrics : list string) :
  ~ In "gpa" metrics ->
  (forall m, In m metrics -> ~ In m Object_prototype_members) ->
  NoDup metrics ->
  Z.of_nat (List.length metrics * List.length rows) < 2 ^ 53 ->
  let data := buildGpaCountData rows metrics in
  NoDup (map (fun o => Number_toString (gpa o)) data)
  /\ (forall o, In o data ->
        exists m r, In m metrics /\ In r rows /\ bucket m r = Some (gpa o))
  /\ (forall m r x, In m metrics -> In r rows -> bucket m r = Some x ->
        exists o, In o data /\ Number_toString (gpa o) = Number_toString x)
  /\ (forall o m, In o data -> In m metrics ->
        prop o m
        = counter (List.length
                     (filter (in_bucket (Number_toString (gpa o)) m) rows))).
Proof.
  intros Hgpa _ Hnd Hlen data. subst data. rewrite buildGpaCountData_events.
  pose proof (bins_after_events rows metrics Hgpa Hlen) as Hinv.
  set (bins := fold_left record_event (events rows metrics) []) in *.
  pose proof (sort_by_gpa_perm (map snd bins)) as Hperm.
  pose proof (bins_keys _ _ Hinv) as Hkeys.
  destruct Hinv as (I1 & I2 & I3 & I4).
  assert (forall o, In o (sort_by_gpa (map snd bins)) ->
                    map_get bins (Number_toString (gpa o)) = Some o) as Hget.
  { intros o Ho. apply (Permutation_in _ Hperm) in Ho.
    apply in_map_iff in Ho. destruct Ho as ([k o'] & <- & Hin). cbn [snd].
    pose proof (In_map_get bins k o' I1 Hin) as Hk.
    now rewrite (proj1 (I2 k o' Hk)). }
  split; [|split; [|split]].
  - apply (Permutation_NoDup
             (Permutation_map (fun o => Number_toString (gpa o))
                (Permutation_sym Hperm))).
    now rewrite Hkeys.
  - intros o Ho. destruct (I2 _ o (Hget o Ho)) as (_ & (e & He & Hbe) & _).
    apply in_events in He. exists (fst e), (snd e). tauto.
  - intros m r x Hm Hr Hb.
    assert (In (m, r) (events rows metrics)) as He by (now apply in_events).
    pose proof (I4 (m, r) x He Hb) as Hsome.
    destruct (map_get bins (Number_toString x)) as [o|] eqn:Hk; [|congruence].
    exists o. split.
    + apply (Permutation_in _ (Permutation_sym Hperm)).
      apply in_map_iff. exists (Number_toString x, o).
      split; [reflexivity|now apply map_get_In].
    + exact (proj1 (I2 _ o Hk)).
  - intros o m Ho Hm.
    destruct (I2 _ o (Hget o Ho)) as (_ & _ & H3).
    rewrite H3 by (intros ->; tauto). f_equal. now apply hits_events.
Qed.

Lemma chart_counts_rows_witness :
  prop (hd [] (buildGpaCountData rows_scenario ["CGPA"])) "CGPA"
  = Some (of_nat 2).
Proof.
  assert (~ In "gpa" ["CGPA"]) as H1 by (intros [H|[]]; discriminate H).
  assert (forall m, In m ["CGPA"] -> ~ In m Object_prototype_members) as H0.
  { intros m [<-|[]] H. unfold Object_prototype_members in H. cbn [In] in H.
    repeat (destruct H as [H|H]; [discriminate H|]). destruct H. }
  assert (NoDup ["CGPA"]) as H2 by (constructor; [intros []|constructor]).
  assert (Z.of_nat (List.length ["CGPA"] * List.length rows_scenario) < 2 ^ 53)
    as H3 by reflexivity.
  rewrite (proj2 (proj2 (proj2 (chart_counts_rows rows_scenario ["CGPA"] H1 H0 H2 H3)))).
  - reflexivity.
  - vm_compute. now left.
  - now left.
Defined.

(* ================================================================== *)
(** * The metric toggle and the chart *)
(* ================================================================== *)

Lemma blank_not_finite (raw : value) :
  is_blank raw = true -> Number_isFinite (to_number raw) = false.
Proof.
  destruct raw as [| |b|s|x]; try discriminate; try reflexivity.
  destruct s; [reflexivity|discriminate].
Qed.

Lemma has_metric_finite (k : string) (r : row) :
  has_metric k r = Number_isFinite (to_number (get r k)).
Proof.
  unfold has_metric. cbv zeta. destruct (is_blank (get r k)) eqn:E; [|reflexivity].
  symmetry. now apply blank_not_finite.
Qed.

Lemma record_row_skips (m : string) (bins : bin_map) (r : row) :
  has_metric m r = false -> record_row m bins r = bins.
Proof.
  rewrite has_metric_finite. intros H. unfold record_row. cbv zeta. now rewrite H.
Qed.

Lemma fold_record_row_filter (m : string) (rows : list row) (bins : bin_map) :
  fold_left (record_row m) (filter (has_metric m) rows) bins
  = fold_left (record_row m) rows bins.
Proof.
  revert bins. induction rows as [|r rows IH]; intros bins; [reflexivity|].
  cbn [filter fold_left]. destruct (has_metric m r) eqn:E.
  - cbn [fold_left]. apply IH.
  - rewrite (record_row_skips m bins r E). apply IH.
Qed.

Lemma chart_of_filtered (m : string) (rows : list row) :
  buildGpaCountData (filter (has_metric m) rows) [m]
  = buildGpaCountData rows [m].
Proof.
  rewrite !buildGpaCountData_events. unfold events. cbn [flat_map].
  rewrite !app_nil_r, !fold_record_event. now rewrite fold_record_row_filter.
Qed.

(** X12: with a single charted metric, the toggle that keeps only the rows
    with a value for the filter metric never changes the chart: the rows
    it removes are rows the chart does not count. *)
Theorem toggle_keeps_single_metric_chart (rows : list row)
  (search metricKey : string) :
  buildGpaCountData
    (filteredRows rows search true (filterMetricKey [metricKey])) [metricKey]
  = buildGpaCountData
      (filteredRows rows search false (filterMetricKey [metricKey])) [metricKey].
Proof.
  rewrite !filteredRows_filter. unfold filterMetricKey, or_null. cbn [hd_error].
  destruct (falsy (Some metricKey)) eqn:Hf; [reflexivity|].
  rewrite <- (chart_of_filtered metricKey
                (filter (shown search false (Some metricKey)) rows)).
  rewrite filter_twice. f_equal. apply filter_ext_all. intros r.
  unfold shown. rewrite Hf. cbn [negb orb andb]. apply andb_comm.
Qed.

(* ================================================================== *)
(** * Before any row is loaded *)
(* ================================================================== *)

Lemma subjectMaxMap_no_rows (subjectFields : list FieldDescriptor) :
  subjectMaxMap [] subjectFields = [].
Proof.
  unfold subjectMaxMap. induction subjectFields as [|s l IH]; [reflexivity|].
  exact IH.
Qed.

(** X24: with no rows, every derived view is empty and no call throws,
    whatever the other arguments are: no fields, no chart rows, no bins,
    no listed rows, no maxima, a summary without scores, and the selection
    is left as it is. *)
Theorem nothing_from_no_rows (field search : string) (bins : N)
  (metrics : list string) (onlyWithMetric : bool) (metricKey designated : option string)
  (subjectFields : list FieldDescriptor) (selectedRow : option row)
  (idField : option string) :
  (App_textFields [] = [] /\ App_numericFields [] = []
   /\ App_subjectFields [] = [] /\ App_idField [] = None
   /\ App_primaryTextField [] = None /\ App_primaryNumericField [] = None
   /\ App_defaultMetricKey [] = None /\ App_metricOptions [] = [])
  /\ buildHistogramData [] field bins = Normal []
  /\ buildGpaCountData [] metrics = []
  /\ filteredRows [] search onlyWithMetric metricKey = []
  /\ subjectMaxMap [] subjectFields = []
  /\ summary [] designated
     = {| totalStudents := 0; avgScore := None; maxScore := None;
          minScore := None |}
  /\ select_initial [] selectedRow idField = selectedRow.
Proof.
  split; [repeat split|]. split; [reflexivity|]. split; [reflexivity|].
  split; [now rewrite filteredRows_filter|].
  split; [apply subjectMaxMap_no_rows|]. split; reflexivity.
Qed.

(* ================================================================== *)
(** * Student overview *)
(* ================================================================== *)

Lemma drop_null_filter {A B : Type} (keep : A -> bool) (g : A -> B)
  (l : list A) :
  drop_null (map (fun a => if keep a then Some (g a) else None) l)
  = map g (filter keep l).
Proof.
  induction l as [|a l IH]; [reflexivity|]. cbn [map filter].
  destruct (keep a); cbn [drop_null map]; now rewrite IH.
Qed.

(** X17: for a row of the dataset, the overview lists exactly the subject
    fields in which the row is not blank, in their order, each with the
    number of its cell: a subject column never holds anything else. *)
Theorem overview_lists_present_subjects (rows : list row) (selected : row) :
  In selected rows ->
  studentOverviewData (Some selected) (App_subjectFields rows)
  = map (fun s => {| subject := label s;
                     score := to_number (get selected (key s)) |})
      (filter (fun s => negb (is_blank (get selected (key s))))
         (App_subjectFields rows)).
Proof.
  intros Hsel. unfold studentOverviewData.
  destruct (App_subjectFields rows) as [|s0 l] eqn:E; [reflexivity|].
  rewrite <- E. cbv zeta.
  rewrite (drop_null_filter
             (fun s => Number_isFinite (to_number (get selected (key s))))
             (fun s => {| subject := label s;
                          score := to_number (get selected (key s)) |})).
  f_equal. apply filter_ext_in. intros s Hs.
  assert (In (key s) (map key (App_subjectFields rows))) as Hk by (now apply in_map).
  apply subject_key_facts in Hk.
  destruct Hk as (_ & _ & _ & _ & Hall & _).
  destruct (is_blank (get selected (key s))) eqn:Hb; cbn [negb].
  - now apply blank_not_finite.
  - destruct (Hall selected Hsel); congruence.
Qed.

Lemma overview_lists_present_subjects_witness :
  studentOverviewData (Some (hd [] rows_scenario)) (App_subjectFields rows_scenario)
  = [ {| subject := "Physics 1"; score := of_Z 78 |} ].
Proof.
  refine (eq_trans
            (overview_lists_present_subjects rows_scenario (hd [] rows_scenario) _)
            _).
  - left. reflexivity.
  - reflexivity.
Defined.

(* ================================================================== *)
(** * Identifier field and subject fields *)
(* ================================================================== *)

Lemma idField_matches (rows : list row) (textFields : list string) (k : string) :
  idField rows textFields = Some k ->
  exists cand, In cand id_candidates /\ matches_token cand k = true.
Proof.
  unfold idField. fold (search_order rows textFields). cbv zeta.
  destruct (falsy _); [discriminate|].
  destruct (find _ id_candidates) as [cand|] eqn:Hc; [|discriminate].
  intros H. apply in_or_null in H. apply find_some in H.
  apply find_some in Hc. exists cand. split; [tauto|]. exact (proj2 H).
Qed.

(** X22: an identifier field is a subject field only when its lowercase name
    contains the token admission, the one identifier token the subject
    extractor does not know; and this does happen. *)
Theorem idField_subject_only_by_admission :
  (forall (rows : list row) (k : string),
      App_idField rows = Some k ->
      In k (map key (App_subjectFields rows)) ->
      matches_token "admission" k = true)
  /\ exists rows k,
       App_idField rows = Some k /\ In k (map key (App_subjectFields rows)).
Proof.
  split.
  - intros rows k Hid Hsub.
    apply idField_matches in Hid. destruct Hid as (cand & Hc & Hm).
    apply subject_key_facts in Hsub.
    destruct Hsub as (_ & _ & Hnot & _).
    unfold test_any, id_like in Hnot. cbn [existsb] in Hnot.
    unfold matches_token in Hm.
    unfold id_candidates in Hc. cbn [In] in Hc.
    repeat (destruct Hc as [<-|Hc];
            [first [exact Hm | rewrite Hm in Hnot; cbn [orb] in Hnot;
                               rewrite ?orb_true_r in Hnot; discriminate]|]).
    destruct Hc.
  - exists [[("Admission", VNumber (of_Z 7))]], "Admission". split.
    + reflexivity.
    + vm_compute. now left.
Qed.

Lemma idField_subject_only_by_admission_witness :
  matches_token "admission" "Admission" = true.
Proof.
  apply (proj1 idField_subject_only_by_admission
           [[("Admission", VNumber (of_Z 7))]] "Admission").
  - reflexivity.
  - vm_compute. now left.
Defined.

(* ================================================================== *)
(** * Clicks on the metric buttons *)
(* ================================================================== *)

Lemma toggle_metric_includes (k x : string) (current : list string) :
  list_includes (toggle_metric k current) x
  = xorb (list_includes current x) (String.eqb k x).
Proof.
  apply eq_true_iff_eq. rewrite list_includes_In, toggle_metric_In.
  destruct (list_includes current x) eqn:Ex.
  - apply list_includes_In in Ex. destruct (String.eqb k x) eqn:E.
    + apply String.eqb_eq in E. subst x. cbn. split; [intros [[_ H]|[H _]]; tauto|discriminate].
    + apply String.eqb_neq in E. cbn. split; [trivial|]. intros _. right. split; [congruence|exact Ex].
  - assert (~ In x current) as Hx.
    { intros H. apply list_includes_In in H. congruence. }
    destruct (String.eqb k x) eqn:E.
    + apply String.eqb_eq in E. subst x. cbn. split; [trivial|]. intros _. now left.
    + apply String.eqb_neq in E. cbn. split; [|discriminate].
      intros [[H _]|[_ H]]; [congruence|tauto].
Qed.

Lemma toggle_metric_NoDup (k : string) (current : list string) :
  NoDup current -> NoDup (toggle_metric k current).
Proof.
  intros Hnd. unfold toggle_metric. destruct (list_includes current k) eqn:Hin.
  - now apply NoDup_filter.
  - apply NoDup_app; [exact Hnd | repeat constructor; intros [] |].
    intros x Hx [<-|[]]. apply list_includes_In in Hx. congruence.
Qed.

Lemma toggles_from (clicks current : list string) :
  NoDup current ->
  NoDup (fold_left (fun current k => toggle_metric k current) clicks current)
  /\ forall x,
       list_includes
         (fold_left (fun current k => toggle_metric k current) clicks current) x
       = xorb (list_includes current x)
           (Nat.odd (count_occ string_dec clicks x)).
Proof.
  revert current. induction clicks as [|k clicks IH]; intros current Hnd.
  - cbn [fold_left count_occ]. split; [exact Hnd|]. intros x.
    now rewrite xorb_false_r.
  - cbn [fold_left].
    destruct (IH (toggle_metric k current) (toggle_metric_NoDup k current Hnd))
      as [H1 H2].
    split; [exact H1|]. intros x. rewrite H2, toggle_metric_includes.
    cbn [count_occ]. destruct (string_dec k x) as [->|Hne].
    + rewrite String.eqb_refl, Nat.odd_succ, <- Nat.negb_odd.
      now destruct (list_includes current x), (Nat.odd _).
    + apply String.eqb_neq in Hne. rewrite Hne. now rewrite xorb_false_r.
Qed.

(** X9: after any sequence of clicks the active metrics are pairwise
    distinct, and a metric is active exactly when it was clicked an odd
    number of times. *)
Theorem active_metrics_by_parity (clicks : list string) :
  NoDup (activeMetricKeys_after clicks)
  /\ forall k, In k (activeMetricKeys_after clicks)
               <-> Nat.odd (count_occ string_dec clicks k) = true.
Proof.
  destruct (toggles_from clicks [] (NoDup_nil _)) as [H1 H2].
  split; [exact H1|]. intros k. rewrite <- list_includes_In.
  unfold activeMetricKeys_after. rewrite H2. reflexivity.
Qed.

Lemma active_metrics_by_parity_witness :
  In "CGPA" (activeMetricKeys_after ["CGPA"; "Math"; "Math"]).
Proof.
  apply (proj2 (active_metrics_by_parity ["CGPA"; "Math"; "Math"])). reflexivity.
Defined.

(* ================================================================== *)
(** * Labels *)
(* ================================================================== *)

Lemma space_not_word (a : ascii) : is_space a && is_word a = false.
Proof. destruct a as [[] [] [] [] [] [] [] []]; reflexivity. Qed.

Lemma upper_char_space (a : ascii) : is_space (upper_char a) = is_space a.
Proof. destruct a as [[] [] [] [] [] [] [] []]; reflexivity. Qed.

Lemma upper_char_word (a : ascii) : is_word (upper_char a) = is_word a.
Proof. destruct a as [[] [] [] [] [] [] [] []]; reflexivity. Qed.

Lemma upper_char_not_lower (a : ascii) : is_lower (upper_char a) = false.
Proof. destruct a as [[] [] [] [] [] [] [] []]; reflexivity. Qed.

Lemma upper_char_underscore (a : ascii) :
  Ascii.eqb (upper_char a) "_" = Ascii.eqb a "_".
Proof. destruct a as [[] [] [] [] [] [] [] []]; reflexivity. Qed.

Lemma upper_char_space_fixed (a : ascii) :
  is_space a = true -> upper_char a = a.
Proof. destruct a as [[] [] [] [] [] [] [] []]; intros H; try reflexivity; discriminate H. Qed.

(** ** No underscore *)

Lemma no_underscore_replaced (s : string) :
  no_underscore (underscores_to_spaces s) = true.
Proof.
  unfold underscores_to_spaces. induction s as [|a s IH]; [reflexivity|].
  cbn [map_string no_underscore]. rewrite IH, andb_true_r.
  destruct (Ascii.eqb a "_") eqn:E; [reflexivity|]. now rewrite E.
Qed.

Lemma no_underscore_split_camel (s : string) :
  no_underscore s = true -> no_underscore (split_camel s) = true.
Proof.
  induction s as [|a s IH]; [reflexivity|]. cbn [no_underscore split_camel].
  intros H. apply andb_prop in H. destruct H as [Ha Hs].
  destruct s as [|b s']; [cbn; now rewrite Ha|].
  destruct (is_lower a && is_upper b); cbn [no_underscore];
    rewrite Ha; cbn [andb negb Ascii.eqb]; now apply IH.
Qed.

Lemma no_underscore_collapse_space (s : string) :
  no_underscore s = true -> no_underscore (collapse_space s) = true.
Proof.
  induction s as [|a s IH]; [reflexivity|]. cbn [no_underscore collapse_space].
  intros H. apply andb_prop in H. destruct H as [Ha Hs].
  destruct (is_space a).
  - destruct s as [|b s']; [reflexivity|].
    destruct (is_space b); [now apply IH|].
    cbn [no_underscore]. cbn [andb negb Ascii.eqb]. now apply IH.
  - cbn [no_underscore]. rewrite Ha. now apply IH.
Qed.

Lemma no_underscore_capitalize_words (p : bool) (s : string) :
  no_underscore s = true -> no_underscore (capitalize_words p s) = true.
Proof.
  revert p. induction s as [|a s IH]; intros p; [reflexivity|].
  cbn [no_underscore capitalize_words].
  intros H. apply andb_prop in H. destruct H as [Ha Hs].
  rewrite (IH _ Hs), andb_true_r.
  destruct (is_word a && negb p); [now rewrite upper_char_underscore|exact Ha].
Qed.

Lemma no_underscore_skip_space (s : string) :
  no_underscore s = true -> no_underscore (skip_space s) = true.
Proof.
  induction s as [|a s IH]; [reflexivity|]. cbn [skip_space].
  destruct (is_space a); [|trivial]. cbn [no_underscore]. intros H.
  apply andb_prop in H. now apply IH.
Qed.

Lemma no_underscore_drop_trailing_space (s : string) :
  no_underscore s = true -> no_underscore (drop_trailing_space s) = true.
Proof.
  induction s as [|a s IH]; [reflexivity|]. cbn [drop_trailing_space].
  destruct (all_space (String a s)); [reflexivity|].
  cbn [no_underscore]. intros H. apply andb_prop in H. destruct H as [Ha Hs].
  now rewrite Ha, IH.
Qed.

(** ** White space *)

Lemma spaced_collapse_space (s : string) : spaced true (collapse_space s) = true.
Proof.
  induction s as [|a s IH]; [reflexivity|]. cbn [collapse_space].
  destruct (is_space a) eqn:Ea.
  - destruct s as [|b s']; [reflexivity|].
    destruct (is_space b) eqn:Eb; [exact IH|].
    cbn [collapse_space] in IH |- *. rewrite Eb in IH |- *.
    cbn [spaced] in IH |- *. rewrite Eb in IH |- *. cbn [negb andb] in IH |- *.
    exact IH.
  - cbn [spaced]. now rewrite Ea, IH.
Qed.

Lemma capitalize_words_head (p : bool) (s : string) :
  match capitalize_words p s, s with
  | String a' _, String a _ => is_space a' = is_space a
  | EmptyString, EmptyString => True
  | _, _ => False
  end.
Proof.
  destruct s as [|a s]; [exact I|]. cbn [capitalize_words].
  destruct (is_word a && negb p); [apply upper_char_space|reflexivity].
Qed.

Lemma spaced_capitalize_words (p : bool) (s : string) :
  spaced true s = true -> spaced true (capitalize_words p s) = true.
Proof.
  revert p. induction s as [|a s IH]; intros p; [reflexivity|].
  cbn [spaced capitalize_words]. intros H. apply andb_prop in H.
  destruct H as [Ha Hs]. rewrite (IH _ Hs), andb_true_r.
  pose proof (capitalize_words_head (is_word a) s) as Hh.
  destruct (is_space a) eqn:Ea.
  - pose proof (space_not_word a) as Hw. rewrite Ea in Hw. cbn [andb] in Hw.
    rewrite Hw. cbn [andb]. rewrite Ea.
    apply andb_prop in Ha. destruct Ha as [Ha1 Ha2]. rewrite Ha1. cbn [andb].
    rewrite Hw in Hh. destruct s as [|b s']; [exact Ha2|].
    destruct (capitalize_words false (String b s')) as [|b' t]; [destruct Hh|].
    now rewrite Hh.
  - destruct (is_word a && negb p); [|now rewrite Ea].
    now rewrite upper_char_space, Ea.
Qed.

Lemma spaced_skip_space (s : string) :
  spaced true s = true ->
  spaced true (skip_space s) = true
  /\ starts_without_space (skip_space s) = true.
Proof.
  induction s as [|a s IH]; [now split|]. cbn [skip_space].
  destruct (is_space a) eqn:Ea.
  - cbn [spaced]. intros H. apply andb_prop in H. now apply IH.
  - intros H. split; [exact H|]. cbn [starts_without_space]. now rewrite Ea.
Qed.

Lemma all_space_head_false (a : ascii) (s : string) :
  is_space a = false -> all_space (String a s) = false.
Proof. intros H. cbn [all_space]. now rewrite H. Qed.

Lemma spaced_drop_trailing_space (s : string) :
  spaced true s = true -> spaced false (drop_trailing_space s) = true.
Proof.
  induction s as [|a s IH]; [reflexivity|]. cbn [drop_trailing_space].
  destruct (all_space (String a s)) eqn:Eall; [reflexivity|].
  cbn [spaced]. intros H. apply andb_prop in H. destruct H as [Ha Hs].
  rewrite (IH Hs), andb_true_r.
  destruct (is_space a) eqn:Ea; [|reflexivity].
  apply andb_prop in Ha. destruct Ha as [Ha1 Ha2]. rewrite Ha1. cbn [andb].
  destruct s as [|b s'].
  - cbn [all_space] in Eall. rewrite Ea in Eall. discriminate.
  - apply negb_true_iff in Ha2. cbn [drop_trailing_space].
    rewrite (all_space_head_false b s' Ha2). now rewrite Ha2.
Qed.

Lemma starts_drop_trailing_space (s : string) :
  starts_without_space s = true ->
  starts_without_space (drop_trailing_space s) = true.
Proof.
  destruct s as [|a s]; [reflexivity|]. cbn [starts_without_space].
  intros H. apply negb_true_iff in H. cbn [drop_trailing_space].
  rewrite (all_space_head_false a s H). cbn [starts_without_space].
  now rewrite H.
Qed.

(** ** Capitals *)

Lemma capitalized_capitalize_words (p : bool) (s : string) :
  capitalized p (capitalize_words p s) = true.
Proof.
  revert p. induction s as [|a s IH]; intros p; [reflexivity|].
  cbn [capitalize_words capitalized].
  destruct (is_word a && negb p) eqn:E.
  - rewrite upper_char_word, E, upper_char_not_lower. cbn [negb andb]. apply IH.
  - rewrite E. cbn [andb]. apply IH.
Qed.

Lemma capitalized_skip_space (s : string) :
  capitalized false s = true -> capitalized false (skip_space s) = true.
Proof.
  induction s as [|a s IH]; [reflexivity|]. cbn [skip_space].
  destruct (is_space a) eqn:Ea; [|trivial].
  pose proof (space_not_word a) as Hw. rewrite Ea in Hw. cbn [andb] in Hw.
  cbn [capitalized]. rewrite Hw. cbn [andb]. exact IH.
Qed.

Lemma capitalized_drop_trailing_space (p : bool) (s : string) :
  capitalized p s = true -> capitalized p (drop_trailing_space s) = true.
Proof.
  revert p. induction s as [|a s IH]; intros p; [reflexivity|].
  cbn [drop_trailing_space]. destruct (all_space (String a s)); [reflexivity|].
  cbn [capitalized]. intros H. apply andb_prop in H. destruct H as [Ha Hs].
  now rewrite Ha, IH.
Qed.

(** X23: a label has no underscore; its white space is single spaces between
    other characters, none at either end; and none of its words starts
    with a lowercase letter. *)
Theorem prettyKey_is_tidy (k : string) :
  no_underscore (prettyKey k) = true
  /\ starts_without_space (prettyKey k) = true
  /\ spaced false (prettyKey k) = true
  /\ capitalized false (prettyKey k) = true.
Proof.
  unfold prettyKey, trim.
  set (s := capitalize_words false
              (collapse_space (split_camel (underscores_to_spaces k)))).
  assert (no_underscore s = true) as H1.
  { apply no_underscore_capitalize_words, no_underscore_collapse_space,
      no_underscore_split_camel, no_underscore_replaced. }
  assert (spaced true s = true) as H2
      by (apply spaced_capitalize_words, spaced_collapse_space).
  assert (capitalized false s = true) as H3
      by (apply capitalized_capitalize_words).
  destruct (spaced_skip_space s H2) as [H4 H5].
  split; [now apply no_underscore_drop_trailing_space, no_underscore_skip_space|].
  split; [now apply starts_drop_trailing_space|].
  split; [now apply spaced_drop_trailing_space|].
  now apply capitalized_drop_trailing_space, capitalized_skip_space.
Qed.

(* ================================================================== *)
(** * The order of the integers below [2^53] *)
(* ================================================================== *)






(* ================================================================== *)
(** * The shape of a floor *)
(* ================================================================== *)





(* ================================================================== *)
(** * The clamp of the bin index *)
(* ================================================================== *)











(* ================================================================== *)
(** * Sums and quotients of natural numbers *)
(* ================================================================== *)









(* ================================================================== *)
(** * Summary statistics *)
(* ================================================================== *)




